(** * Console todo application: command grammar, state container, dispatcher

    A shallow embedding of the command interpretation and state-mutation
    pipeline (command_parser.js, command_types.js, todo_class.js,
    app_state.js, validation_utils.js, add_todo.js, complete_todo.js,
    edit_todo.js, delete_todo.js, clear_completed.js, list_todos.js,
    command_router.js, process_input.js), followed by the properties
    established about it.

    Modelling conventions.
    - A JavaScript string is the sequence of its code units; the model
      covers strings whose code units are below 256, one [ascii] each.
    - A number that holds an integer is an integer ([Z]); [undefined] is
      [None].  Arithmetic and printing are those of the integers, which
      is what the code does on safe integers (at most 2^53 - 1 in
      absolute value); a property that depends on how a number prints
      states that bound.
    - [new Date().toISOString()] reads a clock: the n-th read of a run
      returns [clock n].
    - A [throw] is the [Throw] outcome of the [M] monad, carrying the
      message of the [Error]; what the application throws is always an
      [Error].  The persistence callback is foreign code and may throw
      any value, [null] and [undefined] included.
    - The entries of the [todos] array are distinct objects, so that an
      object is identified by its index and a mutation in place is an
      update at that index.
    - The persistence callback reads the state and does not change it.
    - Console output is not part of the model. *)

From Stdlib Require Import ZArith Lia Bool Ascii DecimalString.
From stdpp Require Import base option list strings gmap.

(** ** JavaScript strings *)

Module JsString.

Definition code (c : ascii) : N := N_of_ascii c.

(** WhiteSpace and LineTerminator code units below 256: TAB, LF, VT, FF,
    CR, SP and NBSP.  This is the set removed by [String.prototype.trim]
    and matched by [\s]. *)
Definition is_space (c : ascii) : bool :=
  let n := code c in
  ((9 <=? n) && (n <=? 13) || (n =? 32) || (n =? 160))%N.

(** LineTerminator: the code units [.] does not match. *)
Definition is_line_terminator (c : ascii) : bool :=
  let n := code c in ((n =? 10) || (n =? 13))%N.

Definition is_dot (c : ascii) : bool := negb (is_line_terminator c).

(** [\d] *)
Definition is_digit (c : ascii) : bool :=
  let n := code c in ((48 <=? n) && (n <=? 57))%N.

Definition is_quote (c : ascii) : bool := (code c =? 34)%N.

Definition quote : ascii := ascii_of_N 34.

(** [toLowerCase] on one code unit below 256: A-Z and the Latin-1
    capitals (all of 192..222 but the multiplication sign). *)
Definition lower_char (c : ascii) : ascii :=
  let n := code c in
  if ((65 <=? n) && (n <=? 90)
      || (192 <=? n) && (n <=? 222) && negb (n =? 215))%N
  then ascii_of_N (n + 32) else c.

(** Canonicalisation of the [i] flag against a pattern character below
    128: only A-Z and a-z are identified. *)
Definition fold_char (c : ascii) : ascii :=
  let n := code c in
  if ((65 <=? n) && (n <=? 90))%N then ascii_of_N (n + 32) else c.

Fixpoint toLowerCase (s : string) : string :=
  match s with
  | EmptyString => EmptyString
  | String c s' => String (lower_char c) (toLowerCase s')
  end.

Fixpoint trimStart (s : string) : string :=
  match s with
  | EmptyString => EmptyString
  | String c s' => if is_space c then trimStart s' else s
  end.

(** [trimEnd]: a character is kept when something non-blank follows or
    when it is itself non-blank. *)
Fixpoint trimEnd (s : string) : string :=
  match s with
  | EmptyString => EmptyString
  | String c s' =>
      match trimEnd s' with
      | EmptyString => if is_space c then EmptyString else String c EmptyString
      | r => String c r
      end
  end.

Definition trim (s : string) : string := trimEnd (trimStart s).

Definition eqb (a b : string) : bool := bool_decide (a = b).

(** Truthiness of a string value. *)
Definition truthy (s : string) : bool := negb (eqb s "").

(** [a < b] on strings: lexicographic on code units. *)
Fixpoint ltb (a b : string) : bool :=
  match a, b with
  | _, EmptyString => false
  | EmptyString, String _ _ => true
  | String x a', String y b' =>
      if (code x <? code y)%N then true
      else if (code y <? code x)%N then false
      else ltb a' b'
  end.

(** [haystack.includes(needle)] *)
Fixpoint startsWith (p s : string) : bool :=
  match p, s with
  | EmptyString, _ => true
  | String _ _, EmptyString => false
  | String x p', String y s' => bool_decide (x = y) && startsWith p' s'
  end.

Fixpoint includes (s needle : string) : bool :=
  startsWith needle s ||
  match s with
  | EmptyString => false
  | String _ s' => includes s' needle
  end.

(** [Number.isSafeInteger]: the integers that a number holds exactly,
    together with their neighbours. *)
Definition isSafeInteger (z : Z) : bool := (Z.abs z <=? 9007199254740991)%Z.

(** Decimal rendering of a safe integer inside a template literal: all
    its digits.  (Of a larger number the engine prints the shortest
    digits that identify it, in exponent form from 10^21 on; [of_Z] does
    not follow it there.) *)
Definition of_Z (z : Z) : string := NilZero.string_of_int (Z.to_int z).

(** [parseInt(s, 10)] on a string matched by [\d+]. *)
Definition parseInt (s : string) : Z :=
  let fix go (acc : Z) (s : string) : Z :=
    match s with
    | EmptyString => acc
    | String c s' =>
        if is_digit c then go (10 * acc + Z.of_N (code c - 48))%Z s' else acc
    end in
  go 0%Z s.

End JsString.

(** ** Regular expressions

    The patterns of the grammar are built from a few combinators written in
    continuation-passing style, so that the matcher backtracks the way the
    JavaScript engine does: alternatives are tried left to right, [+] and
    [?] are greedy and give back on failure.  A continuation receives the
    text consumed and the text that remains. *)

Module Regex.
Import JsString.

Section Combinators.
Context {R : Type}.

(** [w] as a case-insensitive literal at the head of [s]. *)
Fixpoint lit (w s : string) : option (string * string) :=
  match w, s with
  | EmptyString, _ => Some (EmptyString, s)
  | String _ _, EmptyString => None
  | String p w', String c s' =>
      if bool_decide (fold_char p = fold_char c)
      then '(m, r) ← lit w' s'; Some (String c m, r)
      else None
  end.

(** [(w1|w2|...)] *)
Fixpoint alt (ws : list string) (s : string)
    (k : string → string → option R) : option R :=
  match ws with
  | [] => None
  | w :: ws' =>
      match ('(m, r) ← lit w s; k m r) with
      | Some x => Some x
      | None => alt ws' s k
      end
  end.

(** [c*] for a character class [c], greedy. *)
Fixpoint star (c : ascii → bool) (s : string)
    (k : string → string → option R) : option R :=
  match s with
  | EmptyString => k EmptyString EmptyString
  | String a s' =>
      if c a then
        match star c s' (λ m r, k (String a m) r) with
        | Some x => Some x
        | None => k EmptyString s
        end
      else k EmptyString s
  end.

(** [c+] *)
Definition plus (c : ascii → bool) (s : string)
    (k : string → string → option R) : option R :=
  match s with
  | String a s' => if c a then star c s' (λ m r, k (String a m) r) else None
  | EmptyString => None
  end.

(** [(?: e )?] where [e] yields one capture: take [e] first, skip it
    when the rest of the pattern then fails. *)
Definition opt (e : string → (string → string → option R) → option R)
    (s : string) (k : option string → string → option R) : option R :=
  match e s (λ m r, k (Some m) r) with
  | Some x => Some x
  | None => k None s
  end.

(** [$] *)
Definition eos (s : string) (x : R) : option R :=
  match s with EmptyString => Some x | _ => None end.

End Combinators.

(** The array returned by [String.prototype.match]: the whole match, then
    one entry per capture group, [None] for a group that took no part. *)
Definition MatchArray := list (option string).

End Regex.


(** ** Outcomes: values and thrown errors *)

Inductive result (A : Type) : Type :=
| Ok (a : A)
| Throw (message : string).
Arguments Ok {A} a.
Arguments Throw {A} message.

(** ** Command structures and types (command_types.js) *)

Inductive CommandType : Type :=
| ADD_TODO | COMPLETE_TODO | INCOMPLETE_TODO | TOGGLE_TODO | DELETE_TODO
| EDIT_TODO | LIST_TODOS | CLEAR_COMPLETED | FILTER_TODOS | HELP | EXIT
| UNKNOWN.

Global Instance CommandType_eq_dec : EqDecision CommandType.
Proof. solve_decision. Defined.

(** The object [COMMAND_TYPES], from property name to value. *)
Definition COMMAND_TYPES : gmap string CommandType :=
  list_to_map
    [ ("ADD_TODO", ADD_TODO); ("COMPLETE_TODO", COMPLETE_TODO);
      ("INCOMPLETE_TODO", INCOMPLETE_TODO); ("TOGGLE_TODO", TOGGLE_TODO);
      ("DELETE_TODO", DELETE_TODO); ("EDIT_TODO", EDIT_TODO);
      ("LIST_TODOS", LIST_TODOS); ("CLEAR_COMPLETED", CLEAR_COMPLETED);
      ("FILTER_TODOS", FILTER_TODOS); ("HELP", HELP); ("EXIT", EXIT);
      ("UNKNOWN", UNKNOWN) ].

Module Command.

(** The payload object; a property that was never set is [None]. *)
Record Payload : Type := mkPayload {
  input : option string;
  title : option string;
  id : option Z;
  filter : option string;
  searchTerm : option string;
  sortBy : option string;
  ascending : option bool
}.

Record Meta : Type := mkMeta {
  error : option string;
  search : bool;
  stats : bool;
  sort : bool
}.

(** [type] is [None] when the constructor received [undefined].  The
    [timestamp] property is left out: nothing reads it. *)
Record t : Type := mk {
  type : option CommandType;
  payload : Payload;
  meta : Meta
}.

(** [{}] *)
Definition noPayload : Payload := mkPayload None None None None None None None.
Definition noMeta : Meta := mkMeta None false false false.

End Command.

Abbreviation Command := Command.t.

(** ** Command parser (command_parser.js) *)

Module Parser.
Import JsString Regex.

Module Pattern.

Definition words3 : list string := ["all"; "active"; "completed"].

(** [/^(k1|k2|...)\s+(.+)$/i] *)
Definition kw_text (kws : list string) (s : string) : option MatchArray :=
  alt kws s (λ g1 r,
  plus is_space r (λ _ r,
  plus is_dot r (λ g2 r,
  eos r [Some s; Some g1; Some g2]))).

(** [/^(k1|k2|...)\s+(\d+)$/i] *)
Definition kw_id (kws : list string) (s : string) : option MatchArray :=
  alt kws s (λ g1 r,
  plus is_space r (λ _ r,
  plus is_digit r (λ g2 r,
  eos r [Some s; Some g1; Some g2]))).

(** [/^(k1|k2|...)$/i] *)
Definition kw_only (kws : list string) (s : string) : option MatchArray :=
  alt kws s (λ g1 r, eos r [Some s; Some g1]).

Definition ADD := kw_text ["add"; "create"; "new"].
Definition COMPLETE := kw_id ["complete"; "done"; "finish"; "check"].
Definition INCOMPLETE := kw_id ["incomplete"; "notdone"; "uncheck"; "unfinish"].
Definition TOGGLE := kw_id ["toggle"; "switch"].
Definition DELETE := kw_id ["delete"; "remove"; "del"; "rm"].

(** [/^(edit|update|change)\s+(\d+)\s+(.+)$/i] *)
Definition EDIT (s : string) : option MatchArray :=
  alt ["edit"; "update"; "change"] s (λ g1 r,
  plus is_space r (λ _ r,
  plus is_digit r (λ g2 r,
  plus is_space r (λ _ r,
  plus is_dot r (λ g3 r,
  eos r [Some s; Some g1; Some g2; Some g3]))))).

(** [/^(list|show|view|ls)(?:\s+(all|active|completed))?$/i] *)
Definition LIST (s : string) : option MatchArray :=
  alt ["list"; "show"; "view"; "ls"] s (λ g1 r,
  opt (λ s k, plus is_space s (λ _ r, alt words3 r k)) r (λ g2 r,
  eos r [Some s; Some g1; g2])).

Definition CLEAR_COMPLETED :=
  kw_only ["clear"; "clean"; "clearcompleted"; "clear-done"; "clear_done"].

(** [/^(filter|view)\s+(all|active|completed)$/i] *)
Definition FILTER (s : string) : option MatchArray :=
  alt ["filter"; "view"] s (λ g1 r,
  plus is_space r (λ _ r,
  alt words3 r (λ g2 r,
  eos r [Some s; Some g1; Some g2]))).

Definition HELP := kw_only ["help"; "?"; "--help"; "-h"].
Definition EXIT := kw_only ["exit"; "quit"; "q"; "stop"; "end"; "bye"].
Definition SEARCH := kw_text ["search"; "find"].
Definition STATS := kw_only ["stats"; "statistics"; "count"].

(** [/^(sort)\s+(id|title|date|status)(?:\s+(asc|desc))?$/i] *)
Definition SORT (s : string) : option MatchArray :=
  alt ["sort"] s (λ g1 r,
  plus is_space r (λ _ r,
  alt ["id"; "title"; "date"; "status"] r (λ g2 r,
  opt (λ s k, plus is_space s (λ _ r, alt ["asc"; "desc"] r k)) r (λ g3 r,
  eos r [Some s; Some g1; Some g2; g3])))).

End Pattern.

(** [Object.entries(COMMAND_PATTERNS)], in the order of the literal. *)
Definition COMMAND_PATTERNS : list (string * (string → option MatchArray)) :=
  [ ("ADD", Pattern.ADD); ("COMPLETE", Pattern.COMPLETE);
    ("INCOMPLETE", Pattern.INCOMPLETE); ("TOGGLE", Pattern.TOGGLE);
    ("DELETE", Pattern.DELETE); ("EDIT", Pattern.EDIT); ("LIST", Pattern.LIST);
    ("CLEAR_COMPLETED", Pattern.CLEAR_COMPLETED); ("FILTER", Pattern.FILTER);
    ("HELP", Pattern.HELP); ("EXIT", Pattern.EXIT); ("SEARCH", Pattern.SEARCH);
    ("STATS", Pattern.STATS); ("SORT", Pattern.SORT) ].

(** The own properties of [COMMAND_ALIASES]. *)
Definition COMMAND_ALIASES : gmap string string :=
  list_to_map
    [ ("a", "ADD"); ("c", "COMPLETE"); ("i", "INCOMPLETE"); ("t", "TOGGLE");
      ("d", "DELETE"); ("e", "EDIT"); ("l", "LIST"); ("cc", "CLEAR_COMPLETED");
      ("f", "FILTER"); ("h", "HELP"); ("x", "EXIT"); ("s", "SEARCH");
      ("st", "STATS") ].

(** [COMMAND_ALIASES[key]] for a lower-case [key], as the property name it
    becomes when it indexes [COMMAND_TYPES].  The object literal inherits
    from [Object.prototype], whose only all-lower-case properties are
    [constructor] and [__proto__]; both are truthy. *)
Definition alias (key : string) : option string :=
  match COMMAND_ALIASES !! key with
  | Some v => Some v
  | None =>
      if bool_decide (key = "constructor")
      then Some "function Object() { [native code] }"
      else if bool_decide (key = "__proto__") then Some "[object Object]"
      else None
  end.

(** The pattern of a quoted title: a double quote, a greedy group of any
    number of non-terminator characters, a double quote, anchored at both
    ends.  The result is the group. *)
Definition quoted (s : string) : option string :=
  match s with
  | String c r =>
      if is_quote c then
        star is_dot r (λ g1 r,
          match r with
          | String c' EmptyString => if is_quote c' then Some g1 else None
          | _ => None
          end)
      else None
  | EmptyString => None
  end.

(** The quote handling of the ADD, EDIT and SEARCH cases: when the quoted
    pattern matches, the title becomes its first group. *)
Definition stripQuotes (title : string) : string :=
  match quoted title with
  | Some inner => inner
  | None => title
  end.

(** [args[i]] *)
Definition arg (args : MatchArray) (i : nat) : option string := mjoin (args !! i).

(** Calling a string method on [args[i]]; on [undefined] a TypeError. *)
Definition method (args : MatchArray) (i : nat) (name : string) : result string :=
  match arg args i with
  | Some s => Ok s
  | None =>
      Throw ("Cannot read properties of undefined (reading '" +:+ name +:+ "')")
  end.

Definition createCommandFromMatch (commandName : string) (match_ : MatchArray)
    : result Command :=
  let args := tail match_ in
  let with_id (ty : CommandType) : result Command :=
    Ok (Command.mk (Some ty)
          (Command.mkPayload None None (parseInt <$> arg args 1)
             None None None None)
          Command.noMeta) in
  if bool_decide (commandName = "ADD") then
    match method args 1 "trim" with
    | Throw e => Throw e
    | Ok a =>
        let title := stripQuotes (trim a) in
        Ok (Command.mk (Some ADD_TODO)
              (Command.mkPayload None (Some title) None None None None None)
              Command.noMeta)
    end
  else if bool_decide (commandName = "COMPLETE") then with_id COMPLETE_TODO
  else if bool_decide (commandName = "INCOMPLETE") then with_id INCOMPLETE_TODO
  else if bool_decide (commandName = "TOGGLE") then with_id TOGGLE_TODO
  else if bool_decide (commandName = "DELETE") then with_id DELETE_TODO
  else if bool_decide (commandName = "EDIT") then
    match method args 2 "trim" with
    | Throw e => Throw e
    | Ok a =>
        let editTitle := stripQuotes (trim a) in
        Ok (Command.mk (Some EDIT_TODO)
              (Command.mkPayload None (Some editTitle)
                 (parseInt <$> arg args 1) None None None None)
              Command.noMeta)
    end
  else if bool_decide (commandName = "LIST") then
    let filter :=
      match arg args 1 with
      | Some f => if truthy f then f else "all"
      | None => "all"
      end in
    Ok (Command.mk (Some LIST_TODOS)
          (Command.mkPayload None None None (Some (toLowerCase filter))
             None None None)
          Command.noMeta)
  else if bool_decide (commandName = "CLEAR_COMPLETED") then
    Ok (Command.mk (Some CLEAR_COMPLETED) Command.noPayload Command.noMeta)
  else if bool_decide (commandName = "FILTER") then
    match method args 0 "toLowerCase" with
    | Throw e => Throw e
    | Ok a =>
        Ok (Command.mk (Some FILTER_TODOS)
              (Command.mkPayload None None None (Some (toLowerCase a))
                 None None None)
              Command.noMeta)
    end
  else if bool_decide (commandName = "HELP") then
    Ok (Command.mk (Some HELP) Command.noPayload Command.noMeta)
  else if bool_decide (commandName = "EXIT") then
    Ok (Command.mk (Some EXIT) Command.noPayload Command.noMeta)
  else if bool_decide (commandName = "SEARCH") then
    match method args 1 "trim" with
    | Throw e => Throw e
    | Ok a =>
        let searchTerm := stripQuotes (trim a) in
        Ok (Command.mk (Some LIST_TODOS)
              (Command.mkPayload None None None (Some "all")
                 (Some searchTerm) None None)
              (Command.mkMeta None true false false))
    end
  else if bool_decide (commandName = "STATS") then
    Ok (Command.mk (Some LIST_TODOS)
          (Command.mkPayload None None None (Some "all") None None None)
          (Command.mkMeta None false true false))
  else if bool_decide (commandName = "SORT") then
    match method args 0 "toLowerCase" with
    | Throw e => Throw e
    | Ok a =>
        Ok (Command.mk (Some LIST_TODOS)
              (Command.mkPayload None None None (Some "all") None
                 (Some (toLowerCase a))
                 (Some (negb (bool_decide (arg args 1 = Some "desc")))))
              (Command.mkMeta None false false true))
    end
  else
    Ok (Command.mk (Some UNKNOWN)
          (Command.mkPayload (mjoin (match_ !! 0%nat)) None None None None None None)
          Command.noMeta).

(** The [for ... of] loop over the patterns: the first that matches. *)
Fixpoint firstMatch (ps : list (string * (string → option MatchArray)))
    (trimmedInput : string) : option (string * MatchArray) :=
  match ps with
  | [] => None
  | (commandName, pattern) :: ps' =>
      match pattern trimmedInput with
      | Some m => Some (commandName, m)
      | None => firstMatch ps' trimmedInput
      end
  end.

Definition parseCommand (input : string) : result Command :=
  if eqb (trim input) "" then
    Ok (Command.mk (Some UNKNOWN)
          (Command.mkPayload (Some input) None None None None None None)
          (Command.mkMeta (Some "Empty input") false false false))
  else
    let trimmedInput := trim input in
    let lowerInput := toLowerCase trimmedInput in
    match alias lowerInput with
    | Some commandType =>
        Ok (Command.mk (COMMAND_TYPES !! commandType)
              (Command.mkPayload (Some trimmedInput) None None None None None None)
              Command.noMeta)
    | None =>
        match firstMatch COMMAND_PATTERNS trimmedInput with
        | Some (commandName, m) => createCommandFromMatch commandName m
        | None =>
            Ok (Command.mk (Some UNKNOWN)
                  (Command.mkPayload (Some trimmedInput) None None None None None None)
                  Command.noMeta)
        end
    end.

(** [validateParsedCommand]: the list of errors ([isValid] is its
    emptiness). *)
Definition validateParsedCommand (command : Command) : list string :=
  let p := Command.payload command in
  let no_title :=
    match Command.title p with Some s => negb (truthy s) | None => true end in
  let no_id := match Command.id p with Some _ => false | None => true end in
  (match Command.type command with
   | None => ["Command must have a type"]
   | Some _ => []
   end) ++
  (match Command.type command with
   | Some ADD_TODO =>
       if no_title then ["Add todo command must have a title"] else []
   | Some COMPLETE_TODO | Some INCOMPLETE_TODO | Some TOGGLE_TODO
   | Some DELETE_TODO =>
       if no_id then ["Todo command must have a valid ID"] else []
   | Some EDIT_TODO =>
       if no_id || no_title
       then ["Edit todo command must have a valid ID and title"] else []
   | _ => []
   end).

End Parser.


(** ** The runtime and the monad of methods

    A method of a class is a computation on [this]: it may read and update
    the object, read the clock, and throw.  State changes made before a
    [throw] persist, as they do on the heap. *)

Record Runtime : Type := mkRuntime {
  clock : nat → string;          (* the successive values of toISOString() *)
  ticks : nat;                   (* how many were read so far *)
  dateValue : string → option Z; (* new Date(s).valueOf(); None is NaN *)
  engineOrder : list (list Z) → list nat
    (* the order in which Array.prototype.sort leaves the places of an
       array when the comparison function is not consistent: it is
       implementation-defined, and a function of the table of the
       comparisons *)
}.

Definition M (S A : Type) : Type := S → Runtime → result A * S * Runtime.

Module Js.

Section Ops.
Context {S : Type}.

Definition ret {A} (a : A) : M S A := λ s rt, (Ok a, s, rt).

Definition throw {A} (message : string) : M S A := λ s rt, (Throw message, s, rt).

Definition bind {A B} (m : M S A) (k : A → M S B) : M S B :=
  λ s rt,
    match m s rt with
    | (Ok a, s', rt') => k a s' rt'
    | (Throw e, s', rt') => (Throw e, s', rt')
    end.

(** [try { m } catch (error) { h error.message }] *)
Definition catch {A} (m : M S A) (h : string → M S A) : M S A :=
  λ s rt,
    match m s rt with
    | (Ok a, s', rt') => (Ok a, s', rt')
    | (Throw e, s', rt') => h e s' rt'
    end.

Definition get : M S S := λ s rt, (Ok s, s, rt).

Definition modify (f : S → S) : M S unit := λ s rt, (Ok tt, f s, rt).

(** A method written as a function from the object to a value and the
    updated object. *)
Definition call {A} (f : S → A * S) : M S A :=
  λ s rt, let '(a, s') := f s in (Ok a, s', rt).

Definition runtime : M S Runtime := λ s rt, (Ok rt, s, rt).

(** The value of a variable that the checks before it have shown not to
    be [undefined]. *)
Definition defined {A} (v : option A) : M S A :=
  match v with
  | Some a => ret a
  | None => throw "TypeError: undefined"
  end.

(** [new Date().toISOString()] *)
Definition now : M S string :=
  λ s rt, (Ok (clock rt (ticks rt)), s,
           mkRuntime (clock rt) (Datatypes.S (ticks rt)) (dateValue rt)
                     (engineOrder rt)).

End Ops.

End Js.

Notation "'let*' x ':=' m 'in' k" := (Js.bind m (λ x, k))
  (at level 10, x pattern, m at level 100, k at level 200,
   format "'[v' 'let*'  x  ':='  m  'in' '/' k ']'").
Notation "m ';;' k" := (Js.bind m (λ _, k))
  (at level 100, k at level 200, right associativity).

(** ** Todo item class (todo_class.js) *)

Module Todo.
Import JsString.

Record t : Type := mk {
  id : Z;
  title : string;
  completed : bool;
  createdAt : string;
  updatedAt : string
}.

Global Instance eq_dec : EqDecision t.
Proof. solve_decision. Defined.

(** A plain object with the properties of a todo, any of which may be
    missing. *)
Record Object : Type := mkObject {
  o_id : option Z;
  o_title : option string;
  o_completed : option bool;
  o_createdAt : option string;
  o_updatedAt : option string
}.

(** [value || new Date().toISOString()] *)
Definition orNow {S} (value : option string) : M S string :=
  match value with
  | Some v => if truthy v then Js.ret v else Js.now
  | None => Js.now
  end.

(** [new Todo(id, title, completed, createdAt, updatedAt)] *)
Definition new {S} (id : Z) (title : string) (completed : option bool)
    (createdAt updatedAt : option string) : M S t :=
  let* c := orNow createdAt in
  let* u := orNow updatedAt in
  Js.ret (mk id (trim title) (default false completed) c u).

Definition complete : M t unit :=
  Js.modify (λ this, mk (id this) (title this) true (createdAt this) (updatedAt this));;
  let* n := Js.now in
  Js.modify (λ this, mk (id this) (title this) (completed this) (createdAt this) n).

Definition uncomplete : M t unit :=
  Js.modify (λ this, mk (id this) (title this) false (createdAt this) (updatedAt this));;
  let* n := Js.now in
  Js.modify (λ this, mk (id this) (title this) (completed this) (createdAt this) n).

Definition toggle : M t unit :=
  Js.modify (λ this, mk (id this) (title this) (negb (completed this))
                        (createdAt this) (updatedAt this));;
  let* n := Js.now in
  Js.modify (λ this, mk (id this) (title this) (completed this) (createdAt this) n).

Definition updateTitle (newTitle : string) : M t unit :=
  if negb (truthy newTitle) || eqb (trim newTitle) "" then
    Js.throw "Todo title cannot be empty"
  else
    Js.modify (λ this, mk (id this) (trim newTitle) (completed this)
                          (createdAt this) (updatedAt this));;
    let* n := Js.now in
    Js.modify (λ this, mk (id this) (title this) (completed this) (createdAt this) n).

Definition toJSON (this : t) : Object :=
  mkObject (Some (id this)) (Some (title this)) (Some (completed this))
           (Some (createdAt this)) (Some (updatedAt this)).

Definition fromObject {S} (obj : Object) : M S t :=
  match o_id obj, o_title obj with
  | Some id, Some title =>
      new id title (o_completed obj) (o_createdAt obj) (o_updatedAt obj)
  | _, _ => Js.throw "Todo object must have id and title"
  end.

End Todo.

Abbreviation Todo := Todo.t.

(** ** Application state (app_state.js)

    The array [todos] holds the todo objects; an object of the array is
    referred to by its index.  Two entries of the array are taken to be
    two different objects, which is how the application builds the array:
    every entry comes from its own [new Todo]. *)

Module AppState.

Record t : Type := mk {
  todos : list Todo;
  nextId : Z;
  currentView : string
}.

(** The plain object written to and read from the snapshot. *)
Record Object : Type := mkObject {
  o_todos : option (list Todo.Object);
  o_nextId : option Z;
  o_currentView : option string
}.

Definition views : list string := ["all"; "active"; "completed"].

Definition addTodo (todo : Todo) (this : t) : t :=
  let pushed := todos this ++ [todo] in
  if (nextId this <=? Todo.id todo)%Z
  then mk pushed (Todo.id todo + 1)%Z (currentView this)
  else mk pushed (nextId this) (currentView this).

(** [this.todos.find(todo => todo.id === id)], with the index of the
    object found. *)
Definition findTodoById (id : Z) (this : t) : option (nat * Todo) :=
  list_find (λ todo, Todo.id todo = id) (todos this).

Definition updateTodo (updatedTodo : Todo) (this : t) : bool * t :=
  match list_find (λ todo, Todo.id todo = Todo.id updatedTodo) (todos this) with
  | Some (index, _) =>
      (true, mk (<[index := updatedTodo]> (todos this)) (nextId this)
                (currentView this))
  | None => (false, this)
  end.

Definition removeTodo (id : Z) (this : t) : bool * t :=
  let initialLength := length (todos this) in
  let kept := filter (λ todo, Todo.id todo ≠ id) (todos this) in
  (bool_decide (length kept < initialLength),
   mk kept (nextId this) (currentView this)).

Definition getFilteredTodos (this : t) : list Todo :=
  if bool_decide (currentView this = "active")
  then filter (λ todo, Todo.completed todo = false) (todos this)
  else if bool_decide (currentView this = "completed")
  then filter (λ todo, Todo.completed todo = true) (todos this)
  else todos this.

(** The view is a string or [undefined]. *)
Definition setCurrentView (view : option string) : M t unit :=
  match view with
  | Some v =>
      if bool_decide (v ∈ views) then
        Js.modify (λ this, mk (todos this) (nextId this) v)
      else
        Js.throw ("Invalid view: " +:+ v +:+
                  ". Must be 'all', 'active', or 'completed'")
  | None =>
      Js.throw "Invalid view: undefined. Must be 'all', 'active', or 'completed'"
  end.

Definition toJSON (this : t) : Object :=
  mkObject (Some (Todo.toJSON <$> todos this)) (Some (nextId this))
           (Some (currentView this)).

(** [todos.map(todoObj => Todo.fromObject(todoObj))] *)
Fixpoint fromObjects {S} (objs : list Todo.Object) : M S (list Todo) :=
  match objs with
  | [] => Js.ret []
  | obj :: objs' =>
      let* todo := Todo.fromObject obj in
      let* rest := fromObjects objs' in
      Js.ret (todo :: rest)
  end.

Definition fromObject {S} (obj : Object) : M S t :=
  let* todoInstances :=
    match o_todos obj with
    | Some todos => fromObjects todos
    | None => Js.ret []
    end in
  let nextId :=
    match o_nextId obj with
    | Some n => if bool_decide (n = 0%Z) then 1%Z else n
    | None => 1%Z
    end in
  let currentView :=
    match o_currentView obj with
    | Some v => if JsString.truthy v then v else "all"
    | None => "all"
    end in
  Js.ret (mk todoInstances nextId currentView).

(** The object held at [index]. *)
Definition at_ (index : nat) : M t Todo :=
  let* this := Js.get in
  match todos this !! index with
  | Some todo => Js.ret todo
  | None => Js.throw "no such object"
  end.

(** A method call on the object held at [index]: the object is updated
    where it is. *)
Definition send {A} (index : nat) (method : M Todo A) : M t A :=
  λ this rt,
    match todos this !! index with
    | Some todo =>
        let '(r, todo', rt') := method todo rt in
        (r, mk (<[index := todo']> (todos this)) (nextId this) (currentView this), rt')
    | None => (Throw "no such object", this, rt)
    end.

End AppState.

Abbreviation AppState := AppState.t.

(** ** Validation utilities (validation_utils.js) *)

Module Validation.
Import JsString.

(** [errors.join('; ')] *)
Fixpoint join (errors : list string) : string :=
  match errors with
  | [] => ""
  | [e] => e
  | e :: rest => e +:+ "; " +:+ join rest
  end.

(** The [errors] array of [validateTodoInput]; [isValid] is its emptiness.
    The title is a string or [undefined]. *)
Definition validateTodoInput (title : option string) : list string :=
  match title with
  | None => ["Todo title is required"]
  | Some title =>
      (if eqb (trim title) "" then ["Todo title cannot be empty"] else []) ++
      (if bool_decide (255 < String.length title)
       then ["Todo title is too long (max 255 characters)"] else [])
  end.

(** The [errors] array of [validateTodoId].  An identifier is an integer
    or [undefined]. *)
Definition validateTodoId (id : option Z) : list string :=
  match id with
  | None => ["Todo ID is required"]
  | Some id =>
      if bool_decide (id < 1)%Z then ["Todo ID must be a positive integer"] else []
  end.

(** [if (!validation.isValid) throw new Error(validation.errors.join('; '))] *)
Definition check {S} (errors : list string) : M S unit :=
  match errors with
  | [] => Js.ret tt
  | _ => Js.throw (join errors)
  end.

End Validation.

(** ** Results of the operations *)

(** What the persistence callback may throw (or reject with).  The
    operations only read the [message] of the value, which is itself a
    TypeError when the value is [null] or [undefined]; every other value,
    an [Error] among them, has the property or lacks it silently. *)
Inductive Thrown : Type :=
| ThrownNull
| ThrownUndefined
| ThrownValue.

(** One call of the callback: it resolves to a boolean or it throws. *)
Inductive Saving : Type :=
| Resolves (saved : bool)
| Rejects (thrown : Thrown).

(** The persistence callback: it receives the state.  [None] is a missing
    callback ([null]). *)
Definition SaveFunction : Type := option (AppState → Saving).

Module Op.

(** [saveSuccess] is [None] in the results of the operations without
    persistence, which do not have the property. *)
Record AddResult : Type := mkAdd {
  a_todo : Todo;
  a_nextId : Z;
  a_todosCount : nat;
  a_saveSuccess : option bool
}.

Record TodoResult : Type := mkTodo {
  t_todo : Todo;
  t_message : string;
  t_saveSuccess : option bool
}.

Record EditResult : Type := mkEdit {
  e_todo : Todo;
  e_oldTitle : string;
  e_message : string;
  e_saveSuccess : option bool
}.

Record BulkDeleteResult : Type := mkBulk {
  b_results : list TodoResult;
  b_errors : list (Z * string);
  b_totalDeleted : nat;
  b_totalErrors : nat;
  b_saveSuccess : bool
}.

Record ClearResult : Type := mkClear {
  c_clearedTodos : list Todo;
  c_count : nat;
  c_message : string;
  c_saveSuccess : bool
}.

(** [getTodoStats] without its percentage, a floating-point value. *)
Record Stats : Type := mkStats {
  s_total : nat;
  s_active : nat;
  s_completed : nat
}.

(** The block shared by every operation with persistence:
    [let saveSuccess = false;
     if (saveFunction) {
       try { saveSuccess = await saveFunction(appState); }
       catch (saveError) { console.warn(..., saveError.message); } }]
    [outcome] is the value left in [saveSuccess], or the TypeError that
    leaves the [catch] block when [saveError] has no properties. *)
Definition outcome (saveFunction : SaveFunction) (appState : AppState)
    : result bool :=
  match saveFunction with
  | Some save =>
      match save appState with
      | Resolves saved => Ok saved
      | Rejects ThrownValue => Ok false
      | Rejects ThrownNull =>
          Throw "Cannot read properties of null (reading 'message')"
      | Rejects ThrownUndefined =>
          Throw "Cannot read properties of undefined (reading 'message')"
      end
  | None => Ok false
  end.

Definition attemptSave (saveFunction : SaveFunction) : M AppState bool :=
  let* appState := Js.get in
  match outcome saveFunction appState with
  | Ok saved => Js.ret saved
  | Throw message => Js.throw message
  end.

End Op.

(** ** Adding (add_todo.js) *)

Module AddTodo.
Import JsString Validation.

(** The part common to [addTodo] and [addTodoWithPersistence]: validate,
    construct the todo at [nextId], add it. *)
Definition create (title : option string) : M AppState Todo :=
  check (validateTodoInput title);;
  let* title := Js.defined title in
  let* appState := Js.get in
  let* newTodo := Todo.new (AppState.nextId appState) (trim title) None None None in
  Js.modify (AppState.addTodo newTodo);;
  Js.ret newTodo.

Definition addTodo (title : option string) : M AppState Op.AddResult :=
  let* newTodo := create title in
  let* appState := Js.get in
  Js.ret (Op.mkAdd newTodo (AppState.nextId appState)
            (length (AppState.todos appState)) None).

Definition addTodoWithPersistence (title : option string)
    (saveFunction : SaveFunction) : M AppState Op.AddResult :=
  let* newTodo := create title in
  let* saveSuccess := Op.attemptSave saveFunction in
  let* appState := Js.get in
  Js.ret (Op.mkAdd newTodo (AppState.nextId appState)
            (length (AppState.todos appState)) (Some saveSuccess)).

End AddTodo.

(** ** Completing (complete_todo.js) *)

Module CompleteTodo.
Import JsString Validation.

(** Validate the identifier and find the todo; the result is the index of
    the object found. *)
Definition lookup (id : option Z) : M AppState nat :=
  check (validateTodoId id);;
  let* id := Js.defined id in
  let* appState := Js.get in
  match AppState.findTodoById id appState with
  | Some (index, _) => Js.ret index
  | None => Js.throw ("Todo with ID " +:+ of_Z id +:+ " not found")
  end.

(** [appState.updateTodo(todo)] for the object [todo] held at [index]. *)
Definition store (index : nat) : M AppState Todo :=
  let* todo := AppState.at_ index in
  Js.call (AppState.updateTodo todo);;
  AppState.at_ index.

Definition completeMessage (todo : Todo) : string :=
  "Todo " +:+ String quote (Todo.title todo) +:+ String quote " marked as complete".

Definition incompleteMessage (todo : Todo) : string :=
  "Todo " +:+ String quote (Todo.title todo) +:+ String quote " marked as incomplete".

Definition completeTodo (id : option Z) : M AppState Op.TodoResult :=
  let* index := lookup id in
  AppState.send index Todo.complete;;
  let* todo := store index in
  Js.ret (Op.mkTodo todo (completeMessage todo) None).

Definition incompleteTodo (id : option Z) : M AppState Op.TodoResult :=
  let* index := lookup id in
  AppState.send index Todo.uncomplete;;
  let* todo := store index in
  Js.ret (Op.mkTodo todo (incompleteMessage todo) None).

Definition toggleTodo (id : option Z) : M AppState Op.TodoResult :=
  let* index := lookup id in
  let* before := AppState.at_ index in
  let wasCompleted := Todo.completed before in
  AppState.send index Todo.toggle;;
  let* todo := store index in
  Js.ret (Op.mkTodo todo
            (if wasCompleted then incompleteMessage todo else completeMessage todo)
            None).

Definition completeTodoWithPersistence (id : option Z)
    (saveFunction : SaveFunction) : M AppState Op.TodoResult :=
  let* index := lookup id in
  AppState.send index Todo.complete;;
  let* todo := store index in
  let* saveSuccess := Op.attemptSave saveFunction in
  Js.ret (Op.mkTodo todo (completeMessage todo) (Some saveSuccess)).

Definition incompleteTodoWithPersistence (id : option Z)
    (saveFunction : SaveFunction) : M AppState Op.TodoResult :=
  let* index := lookup id in
  AppState.send index Todo.uncomplete;;
  let* todo := store index in
  let* saveSuccess := Op.attemptSave saveFunction in
  Js.ret (Op.mkTodo todo (incompleteMessage todo) (Some saveSuccess)).

Definition toggleTodoWithPersistence (id : option Z)
    (saveFunction : SaveFunction) : M AppState Op.TodoResult :=
  let* index := lookup id in
  let* before := AppState.at_ index in
  let wasCompleted := Todo.completed before in
  AppState.send index Todo.toggle;;
  let* todo := store index in
  let* saveSuccess := Op.attemptSave saveFunction in
  Js.ret (Op.mkTodo todo
            (if wasCompleted then incompleteMessage todo else completeMessage todo)
            (Some saveSuccess)).

End CompleteTodo.

(** ** Editing (edit_todo.js) *)

Module EditTodo.
Import JsString Validation.

Definition editMessage (oldTitle : string) (todo : Todo) : string :=
  "Todo updated: " +:+ String quote oldTitle +:+ String quote " -> "
  +:+ String quote (Todo.title todo) +:+ String quote "".

(** The part common to [editTodo] and [editTodoWithPersistence]. *)
Definition retitle (id : option Z) (newTitle : option string)
    : M AppState (Todo * string) :=
  check (validateTodoId id);;
  check (validateTodoInput newTitle);;
  let* id := Js.defined id in
  let* newTitle := Js.defined newTitle in
  let* appState := Js.get in
  match AppState.findTodoById id appState with
  | None => Js.throw ("Todo with ID " +:+ of_Z id +:+ " not found")
  | Some (index, found) =>
      let oldTitle := Todo.title found in
      AppState.send index (Todo.updateTitle newTitle);;
      let* todo := CompleteTodo.store index in
      Js.ret (todo, oldTitle)
  end.

Definition editTodo (id : option Z) (newTitle : option string)
    : M AppState Op.EditResult :=
  let* (todo, oldTitle) := retitle id newTitle in
  Js.ret (Op.mkEdit todo oldTitle (editMessage oldTitle todo) None).

Definition editTodoWithPersistence (id : option Z) (newTitle : option string)
    (saveFunction : SaveFunction) : M AppState Op.EditResult :=
  let* (todo, oldTitle) := retitle id newTitle in
  let* saveSuccess := Op.attemptSave saveFunction in
  Js.ret (Op.mkEdit todo oldTitle (editMessage oldTitle todo) (Some saveSuccess)).

End EditTodo.

(** ** Deleting (delete_todo.js) *)

Module DeleteTodo.
Import JsString Validation.

Definition deleteMessage (todo : Todo) : string :=
  "Todo " +:+ String quote (Todo.title todo) +:+ String quote " deleted successfully".

(** The part common to [deleteTodo] and [deleteTodoWithPersistence]. *)
Definition remove (id : option Z) : M AppState Todo :=
  check (validateTodoId id);;
  let* id := Js.defined id in
  let* appState := Js.get in
  match AppState.findTodoById id appState with
  | None => Js.throw ("Todo with ID " +:+ of_Z id +:+ " not found")
  | Some (_, todo) =>
      let* removed := Js.call (AppState.removeTodo id) in
      if removed then Js.ret todo
      else Js.throw ("Failed to remove todo with ID " +:+ of_Z id)
  end.

Definition deleteTodo (id : option Z) : M AppState Op.TodoResult :=
  let* todo := remove id in
  Js.ret (Op.mkTodo todo (deleteMessage todo) None).

Definition deleteTodoWithPersistence (id : option Z)
    (saveFunction : SaveFunction) : M AppState Op.TodoResult :=
  let* todo := remove id in
  let* saveSuccess := Op.attemptSave saveFunction in
  Js.ret (Op.mkTodo todo (deleteMessage todo) (Some saveSuccess)).

(** The loop of [deleteMultipleTodosWithPersistence]: each deletion runs
    without a callback, inside its own [try]; the pair collects [results]
    and [errors]. *)
Fixpoint deleteEach (ids : list Z)
    : M AppState (list Op.TodoResult * list (Z * string)) :=
  match ids with
  | [] => Js.ret ([], [])
  | id :: ids' =>
      let* one :=
        Js.catch
          (let* r := deleteTodoWithPersistence (Some id) None in Js.ret (inl r))
          (λ message, Js.ret (inr (id, message))) in
      let* (results, errors) := deleteEach ids' in
      match one with
      | inl r => Js.ret (r :: results, errors)
      | inr e => Js.ret (results, e :: errors)
      end
  end.

Definition deleteMultipleTodosWithPersistence (ids : list Z)
    (saveFunction : SaveFunction) : M AppState Op.BulkDeleteResult :=
  let* (results, errors) := deleteEach ids in
  let successCount := length results in
  let* saveSuccess :=
    if bool_decide (0 < successCount)
    then Op.attemptSave saveFunction else Js.ret false in
  Js.ret (Op.mkBulk results errors successCount (length errors) saveSuccess).

End DeleteTodo.

(** ** Clearing completed todos (clear_completed.js) *)

Module ClearCompleted.
Import JsString.

Definition clearCompletedTodosWithPersistence (saveFunction : SaveFunction)
    : M AppState Op.ClearResult :=
  let* appState := Js.get in
  let completedTodos :=
    filter (λ todo, Todo.completed todo = true) (AppState.todos appState) in
  if bool_decide (length completedTodos = 0) then
    Js.ret (Op.mkClear [] 0 "No completed todos to clear" false)
  else
    let completedIds := Todo.id <$> completedTodos in
    let* deleteResults :=
      DeleteTodo.deleteMultipleTodosWithPersistence completedIds saveFunction in
    Js.ret (Op.mkClear completedTodos (length completedTodos)
              (of_Z (Z.of_nat (length completedTodos))
               +:+ " completed todo(s) cleared")
              (Op.b_saveSuccess deleteResults)).

End ClearCompleted.

(** ** Listing, searching, sorting (list_todos.js) *)

Module ListTodos.
Import JsString.

Definition badFilter : string :=
  "Filter must be " +:+ String quote "all" +:+ String quote ", "
  +:+ String quote "active" +:+ String quote ", or "
  +:+ String quote "completed" +:+ String quote "".

(** [listTodos(appState, filter = 'all')] *)
Definition listTodos (filter : option string) : M AppState (list Todo) :=
  let filter := default "all" filter in
  if bool_decide (filter ∈ AppState.views) then
    AppState.setCurrentView (Some filter);;
    let* appState := Js.get in
    Js.ret (AppState.getFilteredTodos appState)
  else Js.throw badFilter.

Definition getTodoStats (appState : AppState) : Op.Stats :=
  let allTodos := AppState.todos appState in
  let activeTodos := filter (λ todo, Todo.completed todo = false) allTodos in
  let completedTodos := filter (λ todo, Todo.completed todo = true) allTodos in
  Op.mkStats (length allTodos) (length activeTodos) (length completedTodos).

(** [searchTodos(appState, searchTerm, filter = 'all')] *)
Definition searchTodos (searchTerm : option string) (filter : option string)
    : M AppState (list Todo) :=
  match searchTerm with
  | None => Js.throw "Search term must be a string"
  | Some searchTerm =>
      if bool_decide (default "all" filter ∈ AppState.views) then
        let* filteredTodos := listTodos filter in
        let searchLower := toLowerCase searchTerm in
        Js.ret (base.filter (λ todo,
                  includes (toLowerCase (Todo.title todo)) searchLower = true)
                  filteredTodos)
      else Js.throw badFilter
  end.

(** The value [a[sortBy]] as the comparison sees it: a number (an id, a
    boolean, the time value of a date), a lower-cased string, or NaN (an
    invalid date). *)
Inductive SortValue : Type :=
| Number (n : Z)
| Text (s : string)
| NaN.

Definition sortKeys : list string :=
  ["id"; "title"; "createdAt"; "updatedAt"; "completed"].

Definition sortValue (rt : Runtime) (sortBy : string) (todo : Todo) : SortValue :=
  let date s := match dateValue rt s with Some ms => Number ms | None => NaN end in
  if bool_decide (sortBy = "id") then Number (Todo.id todo)
  else if bool_decide (sortBy = "title") then Text (toLowerCase (Todo.title todo))
  else if bool_decide (sortBy = "createdAt") then date (Todo.createdAt todo)
  else if bool_decide (sortBy = "updatedAt") then date (Todo.updatedAt todo)
  else Number (if Todo.completed todo then 1 else 0).

(** [valueA < valueB] *)
Definition lt (a b : SortValue) : bool :=
  match a, b with
  | Number x, Number y => bool_decide (x < y)%Z
  | Text x, Text y => ltb x y
  | _, _ => false
  end.

(** The comparison function handed to [sort]. *)
Definition compareTodos (rt : Runtime) (sortBy : string) (ascending : bool)
    (a b : Todo) : Z :=
  let valueA := sortValue rt sortBy a in
  let valueB := sortValue rt sortBy b in
  if ascending then
    if lt valueB valueA then 1 else if lt valueA valueB then (-1) else 0
  else
    if lt valueA valueB then 1 else if lt valueB valueA then (-1) else 0.

(** [Array.prototype.sort] is stable: for a comparison function that
    orders its arguments consistently its result is that of an insertion
    sort that keeps equal elements in their original order.  [sort] is
    that result; it says nothing about the engine where the comparison is
    not consistent. *)
Fixpoint insert (cmp : Todo → Todo → Z) (x : Todo) (l : list Todo) : list Todo :=
  match l with
  | [] => [x]
  | y :: l' => if bool_decide (cmp x y ≤ 0)%Z then x :: l else y :: insert cmp x l'
  end.

Definition sort (cmp : Todo → Todo → Z) (l : list Todo) : list Todo :=
  foldr (insert cmp) [] l.

(** The comparison orders the todos consistently when no sort value is
    NaN: numbers and strings are then compared by their order.  An
    invalid date compares equal to everything, which is not consistent. *)
Definition isNaN (v : SortValue) : bool :=
  match v with NaN => true | _ => false end.

Definition comparable (rt : Runtime) (sortBy : string) (todos : list Todo) : bool :=
  forallb (λ todo, negb (isNaN (sortValue rt sortBy todo))) todos.

(** The results of the comparison function on every pair of places. *)
Definition comparisons (cmp : Todo → Todo → Z) (todos : list Todo) : list (list Z) :=
  (λ a, cmp a <$> todos) <$> todos.

(** [[...todos].sort(compare)]: where the comparison is not consistent
    the order is the engine's. *)
Definition sorted (rt : Runtime) (sortBy : string) (ascending : bool)
    (todos : list Todo) : list Todo :=
  let cmp := compareTodos rt sortBy ascending in
  if comparable rt sortBy todos then sort cmp todos
  else omap (λ place, todos !! place) (engineOrder rt (comparisons cmp todos)).

(** [sortTodos(appState, sortBy = 'id', ascending = true, filter = 'all')] *)
Definition sortTodos (sortBy : option string) (ascending : option bool)
    (filter : option string) : M AppState (list Todo) :=
  let sortBy := default "id" sortBy in
  let ascending := default true ascending in
  if bool_decide (sortBy ∈ sortKeys) then
    let* todos := listTodos filter in
    let* rt := Js.runtime in
    Js.ret (sorted rt sortBy ascending todos)
  else
    Js.throw "Sort by must be one of: id, title, createdAt, updatedAt, completed".

End ListTodos.

(** ** Command router (command_router.js) *)

Module CommandRouter.
Import JsString.

Definition name (ty : CommandType) : string :=
  match ty with
  | ADD_TODO => "ADD_TODO" | COMPLETE_TODO => "COMPLETE_TODO"
  | INCOMPLETE_TODO => "INCOMPLETE_TODO" | TOGGLE_TODO => "TOGGLE_TODO"
  | DELETE_TODO => "DELETE_TODO" | EDIT_TODO => "EDIT_TODO"
  | LIST_TODOS => "LIST_TODOS" | CLEAR_COMPLETED => "CLEAR_COMPLETED"
  | FILTER_TODOS => "FILTER_TODOS" | HELP => "HELP" | EXIT => "EXIT"
  | UNKNOWN => "UNKNOWN"
  end.

(** The [result] property of a command result, one shape per handler. *)
Inductive Payload : Type :=
| Added (r : Op.AddResult)
| Changed (r : Op.TodoResult)
| Edited (r : Op.EditResult)
| Listed (todos : list Todo) (stats : option Op.Stats) (filter : option string)
         (count : nat)
| Cleared (r : Op.ClearResult)
| Filtered (todos : list Todo) (filter : option string) (message : string)
| Help (message : string)
| Exiting (message : string)
| Unknown (message help : string)
| Invalid (errors : list string) (message : string)
| Failed (error message : string).

Record Result : Type := mkResult {
  success : bool;
  command : string;
  error : option string;
  result : option Payload
}.

Definition done (ty : CommandType) (p : Payload) : Result :=
  mkResult true (name ty) None (Some p).

Section Router.
(** The router holds the state (the state of the monad) and the
    persistence callback. *)
Variable saveFunction : SaveFunction.

Definition handleAddTodo (command : Command) : M AppState Result :=
  let* r := AddTodo.addTodoWithPersistence
              (Command.title (Command.payload command)) saveFunction in
  Js.ret (done ADD_TODO (Added r)).

Definition handleCompleteTodo (command : Command) : M AppState Result :=
  let* r := CompleteTodo.completeTodoWithPersistence
              (Command.id (Command.payload command)) saveFunction in
  Js.ret (done COMPLETE_TODO (Changed r)).

Definition handleIncompleteTodo (command : Command) : M AppState Result :=
  let* r := CompleteTodo.incompleteTodoWithPersistence
              (Command.id (Command.payload command)) saveFunction in
  Js.ret (done INCOMPLETE_TODO (Changed r)).

Definition handleToggleTodo (command : Command) : M AppState Result :=
  let* r := CompleteTodo.toggleTodoWithPersistence
              (Command.id (Command.payload command)) saveFunction in
  Js.ret (done TOGGLE_TODO (Changed r)).

Definition handleDeleteTodo (command : Command) : M AppState Result :=
  let* r := DeleteTodo.deleteTodoWithPersistence
              (Command.id (Command.payload command)) saveFunction in
  Js.ret (done DELETE_TODO (Changed r)).

Definition handleEditTodo (command : Command) : M AppState Result :=
  let* r := EditTodo.editTodoWithPersistence
              (Command.id (Command.payload command))
              (Command.title (Command.payload command)) saveFunction in
  Js.ret (done EDIT_TODO (Edited r)).

Definition handleListTodos (command : Command) : M AppState Result :=
  let p := Command.payload command in
  let* todos :=
    if Command.search (Command.meta command) then
      ListTodos.searchTodos (Command.searchTerm p) (Command.filter p)
    else if Command.sort (Command.meta command) then
      ListTodos.sortTodos (Command.sortBy p) (Command.ascending p) (Command.filter p)
    else ListTodos.listTodos (Command.filter p) in
  let* appState := Js.get in
  let stats :=
    if Command.stats (Command.meta command)
    then Some (ListTodos.getTodoStats appState) else None in
  Js.ret (done LIST_TODOS (Listed todos stats (Command.filter p) (length todos))).

Definition handleClearCompleted (command : Command) : M AppState Result :=
  let* r := ClearCompleted.clearCompletedTodosWithPersistence saveFunction in
  Js.ret (done CLEAR_COMPLETED (Cleared r)).

Definition handleFilterTodos (command : Command) : M AppState Result :=
  let filter := Command.filter (Command.payload command) in
  AppState.setCurrentView filter;;
  let* todos := ListTodos.listTodos filter in
  Js.ret (done FILTER_TODOS
            (Filtered todos filter
               ("Now showing " +:+ default "undefined" filter +:+ " todos"))).

(** The help screen; its text is not reproduced. *)
Definition helpText : string := "Todo Application Commands: ...".

Definition handleHelp (command : Command) : M AppState Result :=
  Js.ret (done HELP (Help helpText)).

Definition handleExit (command : Command) : M AppState Result :=
  Js.ret (done EXIT (Exiting "Exiting application...")).

Definition handleUnknownCommand (command : Command) : M AppState Result :=
  let shown :=
    match Command.input (Command.payload command) with
    | Some i => if truthy i then i else "No input provided"
    | None => "No input provided"
    end in
  Js.ret (mkResult false (name UNKNOWN) None
            (Some (Unknown ("Unknown command: " +:+ shown)
                     ("Type " +:+ String quote "help"
                      +:+ String quote " to see available commands")))).

Definition routeCommand (command : Command) : M AppState Result :=
  match Command.type command with
  | None => Js.throw "Invalid command: command must have a type"
  | Some ty =>
      Js.catch
        (match ty with
         | ADD_TODO => handleAddTodo command
         | COMPLETE_TODO => handleCompleteTodo command
         | INCOMPLETE_TODO => handleIncompleteTodo command
         | TOGGLE_TODO => handleToggleTodo command
         | DELETE_TODO => handleDeleteTodo command
         | EDIT_TODO => handleEditTodo command
         | LIST_TODOS => handleListTodos command
         | CLEAR_COMPLETED => handleClearCompleted command
         | FILTER_TODOS => handleFilterTodos command
         | HELP => handleHelp command
         | EXIT => handleExit command
         | UNKNOWN => handleUnknownCommand command
         end)
        (λ message, Js.ret (mkResult false (name ty) (Some message) None))
  end.

(** [processCommand] of process_input.js: parse, validate, route; whatever
    is thrown on the way becomes a result. *)
Definition processCommand (input : string) : M AppState Result :=
  Js.catch
    (match Parser.parseCommand input with
     | Throw message => Js.throw message
     | Ok command =>
         match Parser.validateParsedCommand command with
         | [] => routeCommand command
         | errors =>
             Js.ret (mkResult false "VALIDATION_ERROR" None
                       (Some (Invalid errors "Command validation failed")))
         end
     end)
    (λ message,
       Js.ret (mkResult false "PROCESSING_ERROR" None
                 (Some (Failed message "Error processing command")))).

End Router.

End CommandRouter.

(** ** Several commands in one line (command_parser.js, process_input.js) *)

Module Batch.
Import JsString.

(** The separators of [split(/;|\n/)]. *)
Definition is_separator (c : ascii) : bool :=
  let n := code c in ((n =? 59) || (n =? 10))%N.

(** [input.split(/;|\n/)]: the pieces between separators, empty pieces
    included; there is always at least one piece. *)
Fixpoint split (input : string) : list string :=
  match input with
  | EmptyString => [EmptyString]
  | String c rest =>
      if is_separator c then EmptyString :: split rest
      else
        match split rest with
        | piece :: pieces => String c piece :: pieces
        | [] => [String c EmptyString]
        end
  end.

(** [.map(cmd => cmd.trim()).filter(cmd => cmd)] *)
Definition commandStrings (input : string) : list string :=
  base.filter (λ cmd, truthy cmd = true) (trim <$> split input).

(** [commandStrings.map(cmd => parseCommand(cmd))] *)
Fixpoint parseEach (cmds : list string) : result (list Command) :=
  match cmds with
  | [] => Ok []
  | cmd :: cmds' =>
      match Parser.parseCommand cmd with
      | Throw e => Throw e
      | Ok command =>
          match parseEach cmds' with
          | Throw e => Throw e
          | Ok commands => Ok (command :: commands)
          end
      end
  end.

Definition parseMultipleCommands (input : string) : result (list Command) :=
  parseEach (commandStrings input).

Section Process.
Variable saveFunction : SaveFunction.

(** The loop of [processMultipleCommands]: a command that throws in the
    router leaves a PROCESSING_ERROR result and the loop goes on; after the
    result of an Exit command the loop stops. *)
Fixpoint processEach (commands : list Command)
    : M AppState (list CommandRouter.Result) :=
  match commands with
  | [] => Js.ret []
  | command :: commands' =>
      let* outcome :=
        Js.catch
          (let* r := CommandRouter.routeCommand saveFunction command in
           Js.ret (r, bool_decide (Command.type command = Some EXIT)))
          (λ message,
             Js.ret (CommandRouter.mkResult false "PROCESSING_ERROR" None
                       (Some (CommandRouter.Failed message
                                "Error processing command")), false)) in
      if outcome.2 then Js.ret [outcome.1]
      else
        let* results := processEach commands' in
        Js.ret (outcome.1 :: results)
  end.

Definition processMultipleCommands (input : string)
    : M AppState (list CommandRouter.Result) :=
  match parseMultipleCommands input with
  | Throw e => Js.throw e
  | Ok commands => processEach commands
  end.

End Process.

End Batch.

(** ** Raw input (process_input.js) *)

Module Input.
Import JsString.

(** The class of [sanitizeInput]: semicolon, ampersand, bar, backquote,
    dollar, parentheses, braces, brackets, backslash, angle brackets. *)
Definition is_harmful (c : ascii) : bool :=
  bool_decide (code c ∈ [59; 38; 124; 96; 36; 40; 41; 123; 125; 91; 93; 92;
                         60; 62]%N).

(** [s.replace(/[...]/g, '')] for that class. *)
Fixpoint removeHarmful (s : string) : string :=
  match s with
  | EmptyString => EmptyString
  | String c s' =>
      if is_harmful c then removeHarmful s' else String c (removeHarmful s')
  end.

Definition sanitizeInput (input : string) : string := removeHarmful (trim input).

(** The [errors] array of [validateInput]. *)
Definition validateInput (input : string) : list string :=
  if eqb (trim input) "" then ["Input cannot be empty"]
  else if bool_decide (1000 < String.length input)
  then ["Input is too long (max 1000 characters)"]
  else [].

Definition processRawInput (saveFunction : SaveFunction) (rawInput : string)
    : M AppState CommandRouter.Result :=
  let sanitizedInput := sanitizeInput rawInput in
  match validateInput sanitizedInput with
  | [] => CommandRouter.processCommand saveFunction sanitizedInput
  | errors =>
      Js.ret (CommandRouter.mkResult false "INPUT_VALIDATION_ERROR" None
                (Some (CommandRouter.Invalid errors "Invalid input")))
  end.

End Input.

(** ** Operations on several todos (add_todo.js, edit_todo.js, delete_todo.js) *)

Module Bulk.
Import JsString.

Record AddResults : Type := mkAdds {
  added_results : list Op.AddResult;
  added_errors : list (option string * string);
  totalAdded : nat;
  added_totalErrors : nat
}.

Record EditResults : Type := mkEdits {
  edited_results : list Op.EditResult;
  edited_errors : list (option Z * option string * string);
  totalEdited : nat;
  edited_totalErrors : nat;
  edited_saveSuccess : option bool
}.

(** The loop of [addMultipleTodos]. *)
Fixpoint addEach (titles : list (option string))
    : M AppState (list Op.AddResult * list (option string * string)) :=
  match titles with
  | [] => Js.ret ([], [])
  | title :: titles' =>
      let* one :=
        Js.catch
          (let* r := AddTodo.addTodo title in Js.ret (inl r))
          (λ message, Js.ret (inr (title, message))) in
      let* (results, errors) := addEach titles' in
      match one with
      | inl r => Js.ret (r :: results, errors)
      | inr e => Js.ret (results, e :: errors)
      end
  end.

Definition addMultipleTodos (titles : list (option string))
    : M AppState AddResults :=
  let* (results, errors) := addEach titles in
  Js.ret (mkAdds results errors (length results) (length errors)).

(** The loop of [editMultipleTodos] and, with [edit] the operation with
    persistence and no callback, of [editMultipleTodosWithPersistence]. *)
Fixpoint editEach
    (edit : option Z → option string → M AppState Op.EditResult)
    (edits : list (option Z * option string))
    : M AppState (list Op.EditResult * list (option Z * option string * string)) :=
  match edits with
  | [] => Js.ret ([], [])
  | (id, title) :: edits' =>
      let* one :=
        Js.catch
          (let* r := edit id title in Js.ret (inl r))
          (λ message, Js.ret (inr (id, title, message))) in
      let* (results, errors) := editEach edit edits' in
      match one with
      | inl r => Js.ret (r :: results, errors)
      | inr e => Js.ret (results, e :: errors)
      end
  end.

Definition editMultipleTodos (edits : list (option Z * option string))
    : M AppState EditResults :=
  let* (results, errors) := editEach EditTodo.editTodo edits in
  Js.ret (mkEdits results errors (length results) (length errors) None).


(** The loop of [deleteMultipleTodos]. *)
Fixpoint deleteEach (ids : list Z)
    : M AppState (list Op.TodoResult * list (Z * string)) :=
  match ids with
  | [] => Js.ret ([], [])
  | id :: ids' =>
      let* one :=
        Js.catch
          (let* r := DeleteTodo.deleteTodo (Some id) in Js.ret (inl r))
          (λ message, Js.ret (inr (id, message))) in
      let* (results, errors) := deleteEach ids' in
      match one with
      | inl r => Js.ret (r :: results, errors)
      | inr e => Js.ret (results, e :: errors)
      end
  end.


(** [deleteAllTodos] and [deleteAllTodosWithPersistence]: the todos that
    were there, and the flag of the save. *)
Definition deleteAllTodos : M AppState (list Todo) :=
  let* appState := Js.get in
  let deletedTodos := AppState.todos appState in
  Js.modify (λ this, AppState.mk [] (AppState.nextId this)
                                 (AppState.currentView this));;
  Js.ret deletedTodos.

Definition deleteAllTodosWithPersistence (saveFunction : SaveFunction)
    : M AppState (list Todo * bool) :=
  let* deletedTodos := deleteAllTodos in
  let* saveSuccess := Op.attemptSave saveFunction in
  Js.ret (deletedTodos, saveSuccess).

End Bulk.

(** ** Clearing without persistence (clear_completed.js)

    The module imports [deleteMultipleTodosWithPersistence] only; the name
    [deleteMultipleTodos] that [clearCompletedTodos] calls is bound
    nowhere, and evaluating it throws a ReferenceError. *)

Module ClearSync.
Import JsString.

Definition completedOf (appState : AppState) : list Todo :=
  base.filter (λ todo, Todo.completed todo = true) (AppState.todos appState).

(** The results without persistence have no [saveSuccess]: the todos
    cleared, their number and the message. *)
Definition clearCompletedTodos : M AppState (list Todo * nat * string) :=
  let* appState := Js.get in
  let completedTodos := completedOf appState in
  if bool_decide (length completedTodos = 0) then
    Js.ret ([], 0, "No completed todos to clear")
  else
    Js.throw "deleteMultipleTodos is not defined".

Definition previewClearCompletedTodos (appState : AppState) : list Todo :=
  completedOf appState.

Definition countCompletedTodosForClear (appState : AppState) : nat :=
  length (completedOf appState).

(** [clearedTodos] is [None] for the [null] of the unconfirmed answer. *)
Definition clearCompletedTodosWithConfirmation (confirmed : bool)
    : M AppState (option (list Todo) * nat * string) :=
  let* appState := Js.get in
  let count := length (completedOf appState) in
  if bool_decide (count = 0) then
    Js.ret (Some [], 0, "No completed todos to clear")
  else if negb confirmed then
    Js.ret (None, count,
            "Are you sure you want to clear " +:+ of_Z (Z.of_nat count)
            +:+ " completed todo(s)? Confirm with confirmed=true parameter.")
  else
    let* (cleared, n, message) := clearCompletedTodos in
    Js.ret (Some cleared, n, message).

End ClearSync.

(** ** Looking up (list_todos.js) *)

Module Lookup.

(** [getTodoById]: the identifier is an integer or [undefined]. *)
Definition getTodoById (id : option Z) : M AppState (option Todo) :=
  match id with
  | Some id =>
      if bool_decide (id < 1)%Z then Js.throw "ID must be a positive number"
      else
        let* appState := Js.get in
        Js.ret (snd <$> AppState.findTodoById id appState)
  | None => Js.throw "ID must be a positive number"
  end.

Definition hasTodos (filter : option string) : M AppState bool :=
  let* todos := ListTodos.listTodos filter in
  Js.ret (bool_decide (0 < length todos)).

End Lookup.

(** ** Snapshots on disk (data_model.js, save_todos.js, load_todos.js,
       initialize_state.js, error_handler.js)

    The text of the file is not modelled: a file holds the value that
    [JSON.parse] returns for it.  The todo objects of a snapshot are
    objects whose properties, where present, have the types the
    application writes, and the numbers of a snapshot are integers. *)

Module Persist.
Import JsString.

(** A property of the parsed object: absent, present with a value of
    another type than expected ([null] included), or present and of the
    expected type. *)
Inductive Field (A : Type) : Type :=
| Missing
| Wrong
| Good (a : A).
Arguments Missing {A}.
Arguments Wrong {A}.
Arguments Good {A} a.

Record Data : Type := mkData {
  d_todos : Field (list Todo.Object);
  d_nextId : Field Z;
  d_currentView : Field string;
  d_version : Field string
}.

(** What the data file holds. *)
Inductive File : Type :=
| NoFile                 (* there is no file *)
| NotJson                (* its text is not JSON *)
| NotAnObject            (* JSON, but not an object with properties *)
| Snapshot (data : Data).

(** [DATA_CONFIG.DEFAULT_DATA] *)
Definition DEFAULT_DATA : Data :=
  mkData (Good []) (Good 1%Z) (Good "all") (Good "1.0.0").

(** [{ ...DEFAULT_DATA, ...data }]: a property that [data] has, whatever
    its value, replaces the default. *)
Definition orDefault {A} (given fallback : Field A) : Field A :=
  match given with
  | Missing => fallback
  | _ => given
  end.

Definition withDefaults (data : Data) : Data :=
  mkData (orDefault (d_todos data) (d_todos DEFAULT_DATA))
         (orDefault (d_nextId data) (d_nextId DEFAULT_DATA))
         (orDefault (d_currentView data) (d_currentView DEFAULT_DATA))
         (orDefault (d_version data) (d_version DEFAULT_DATA)).

(** [validateDataStructure]: the three required properties are there. *)
Definition validateDataStructure (data : Data) : bool :=
  let has {A} (f : Field A) := match f with Missing => false | _ => true end in
  has (d_todos data) && has (d_nextId data) && has (d_currentView data).

Definition ensureDataCompatibility (data : Data) : Data :=
  let result := withDefaults data in
  let todos :=
    match d_todos result with Good todos => todos | _ => [] end in
  let nextId :=
    match d_nextId result with
    | Good n => if bool_decide (n < 1)%Z then 1%Z else n
    | _ => 1%Z
    end in
  let currentView :=
    match d_currentView result with
    | Good v => if bool_decide (v ∈ AppState.views) then v else "all"
    | _ => "all"
    end in
  mkData (Good todos) (Good nextId) (Good currentView) (d_version result).

(** [saveTodosToFile(state)]: the snapshot written.  The todos are
    serialised by their [toJSON]. *)
Definition snapshotOf (state : AppState) : Data :=
  mkData (Good (Todo.toJSON <$> AppState.todos state))
         (Good (AppState.nextId state)) (Good (AppState.currentView state))
         (Good "1.0.0").

(** [saveTodosToFile]: the new content of the file and the boolean
    returned; a failed write is caught and reported as [false]. *)
Definition saveTodosToFile (writable : bool) (state : AppState) (file : File)
    : File * bool :=
  if writable then (Snapshot (snapshotOf state), true) else (file, false).

(** [loadTodosFromFile] *)
Definition loadTodosFromFile (file : File) : Data :=
  match file with
  | NoFile => DEFAULT_DATA
  | NotJson => DEFAULT_DATA
  | NotAnObject => ensureDataCompatibility (mkData Missing Missing Missing Missing)
  | Snapshot data => ensureDataCompatibility data
  end.

(** [Date.now()]: the time value of the reading of the clock. *)
Definition dateNow {S} : M S Z :=
  let* iso := Js.now in
  let* rt := Js.runtime in
  Js.ret (default 0%Z (dateValue rt iso)).

(** The conversion of one todo object in [loadTodosAsInstances]. *)
Definition toInstance {S} (todoObj : Todo.Object) : M S Todo :=
  Js.catch (Todo.fromObject todoObj)
    (λ _,
       let* id :=
         match Todo.o_id todoObj with
         | Some id => if bool_decide (id = 0%Z) then dateNow else Js.ret id
         | None => dateNow
         end in
       let title :=
         match Todo.o_title todoObj with
         | Some t => if truthy t then t else "Recovery todo"
         | None => "Recovery todo"
         end in
       Todo.new id title (Some (default false (Todo.o_completed todoObj)))
                (Todo.o_createdAt todoObj) (Todo.o_updatedAt todoObj)).

Fixpoint toInstances {S} (objs : list Todo.Object) : M S (list Todo) :=
  match objs with
  | [] => Js.ret []
  | obj :: objs' =>
      let* todo := toInstance obj in
      let* rest := toInstances objs' in
      Js.ret (todo :: rest)
  end.

(** What [loadTodosAsInstances] returns. *)
Record Loaded : Type := mkLoaded {
  l_todos : list Todo;
  l_nextId : Z;
  l_currentView : string
}.

Definition noData : Loaded := mkLoaded [] 1 "all".

Definition loadTodosAsInstances {S} (file : File) : M S Loaded :=
  Js.catch
    (let data := loadTodosFromFile file in
     match d_todos data with
     | Good todos =>
         let* todoInstances := toInstances todos in
         let nextId :=
           match d_nextId data with
           | Good n => if bool_decide (n = 0%Z) then 1%Z else n
           | _ => 1%Z
           end in
         let currentView :=
           match d_currentView data with
           | Good v => if truthy v then v else "all"
           | _ => "all"
           end in
         Js.ret (mkLoaded todoInstances nextId currentView)
     | _ => Js.ret noData
     end)
    (λ _, Js.ret noData).

(** [validateStateWithErrorHandling(state).valid] *)
Definition validState (state : AppState) : bool :=
  bool_decide (1 ≤ AppState.nextId state)%Z
  && bool_decide (AppState.currentView state ∈ AppState.views).

Definition initializeAppState {S} (file : File) : M S AppState :=
  Js.catch
    (let* loadedData := loadTodosAsInstances file in
     Js.ret (AppState.mk (l_todos loadedData) (l_nextId loadedData)
                         (l_currentView loadedData)))
    (λ _, Js.ret (AppState.mk [] 1 "all")).

(** [Math.max(...todos.map(todo => todo.id), 0)] *)
Definition maxOf (todos : list Todo) : Z := foldr Z.max 0%Z (Todo.id <$> todos).

(** The default todos of [initializeAppStateWithDefaults], numbered from
    [index + 1]. *)
Fixpoint defaultInstances {S} (index : Z) (defaults : list Todo.Object)
    : M S (list Todo) :=
  match defaults with
  | [] => Js.ret []
  | todoData :: defaults' =>
      let* title :=
        match Todo.o_title todoData with
        | Some t => Js.ret t
        | None => Js.throw "Cannot read properties of undefined (reading 'trim')"
        end in
      let* todo :=
        Todo.new (index + 1)%Z title
                 (Some (default false (Todo.o_completed todoData)))
                 (Todo.o_createdAt todoData) (Todo.o_updatedAt todoData) in
      let* rest := defaultInstances (index + 1)%Z defaults' in
      Js.ret (todo :: rest)
  end.

Definition initializeAppStateWithDefaults {S} (file : File)
    (defaultTodos : list Todo.Object) : M S AppState :=
  Js.catch
    (let* loadedData := loadTodosAsInstances file in
     let* todos :=
       if bool_decide (0 < length (l_todos loadedData))
       then Js.ret (l_todos loadedData)
       else defaultInstances 0 defaultTodos in
     let maxId := maxOf todos in
     let nextId := if bool_decide (0 < length todos) then (maxId + 1)%Z else 1%Z in
     Js.ret (AppState.mk todos nextId (l_currentView loadedData)))
    (λ _, Js.ret (AppState.mk [] 1 "all")).

Definition initializeCompatibleState {S} (file : File) : M S AppState :=
  Js.catch
    (let* loadedData := loadTodosAsInstances file in
     let todos := l_todos loadedData in
     let maxId := if bool_decide (0 < length todos) then maxOf todos else 0%Z in
     let nextId :=
       if bool_decide (l_nextId loadedData < 1)%Z then (maxId + 1)%Z
       else l_nextId loadedData in
     let currentView :=
       if bool_decide (l_currentView loadedData ∈ AppState.views)
       then l_currentView loadedData else "all" in
     let appState := AppState.mk todos nextId currentView in
     if validState appState then Js.ret appState
     else Js.ret (AppState.mk [] 1 "all"))
    (λ _, Js.ret (AppState.mk [] 1 "all")).

End Persist.

(** ** Validation of the state (validation_utils.js)

    [validateAppState] on an instance of the container: its [todos] are
    an array and its [nextId] is a number, so two of the checks remain. *)

Module StateValidation.
Import JsString.

Definition viewError : string :=
  "Current view must be " +:+ String quote "all" +:+ String quote ", "
  +:+ String quote "active" +:+ String quote ", or "
  +:+ String quote "completed" +:+ String quote "".

(** The [errors] array; [isValid] is its emptiness. *)
Definition validateAppState (state : AppState) : list string :=
  (if bool_decide (AppState.nextId state < 1)%Z
   then ["Next ID must be a positive number"] else []) ++
  (if bool_decide (AppState.currentView state ∈ AppState.views)
   then [] else [viewError]).

End StateValidation.

(** * Vocabulary of the properties *)

(** The number of double quotes in a string. *)
Fixpoint quotes (s : string) : nat :=
  match s with
  | EmptyString => 0
  | String c s' => (if JsString.is_quote c then 1 else 0) + quotes s'
  end.

(** The string without its last character. *)
Fixpoint dropLast (s : string) : string :=
  match s with
  | EmptyString => EmptyString
  | String c EmptyString => EmptyString
  | String c s' => String c (dropLast s')
  end.

(** The string without its first and its last character. *)
Definition interior (s : string) : string :=
  match s with
  | EmptyString => EmptyString
  | String _ s' => dropLast s'
  end.

(** [s] holds an embedded quote pair when two double quotes occur strictly
    inside it, between its first and its last character. *)
Definition embeddedQuotePair (s : string) : Prop := 2 ≤ quotes (interior s).

(** [resetAppState()] of initialize_state.js: the empty container. *)
Definition resetAppState : AppState := AppState.mk [] 1 "all".

(** A runtime whose clock stands still and that parses no date. *)
Definition epoch : Runtime :=
  mkRuntime (λ _, "1970-01-01T00:00:00.000Z") 0 (λ _, None) (λ _, []).

(** Two clock reads later. *)
Definition later2 (rt : Runtime) : Runtime :=
  mkRuntime (clock rt) (S (S (ticks rt))) (dateValue rt) (engineOrder rt).

(** The todo that an accepted Add constructs. *)
Definition added (title : string) (s : AppState) (rt : Runtime) : Todo :=
  Todo.mk (AppState.nextId s) (JsString.trim title) false
          (clock rt (ticks rt)) (clock rt (S (ticks rt))).

(** The rule of [validateTodoInput] for a string. *)
Definition rejected (title : string) : Prop :=
  JsString.trim title = "" ∨ 255 < String.length title.

Global Instance rejected_dec title : Decision (rejected title).
Proof. unfold rejected. apply _. Defined.

(** A string of [n] copies of a character. *)
Fixpoint repeatChar (n : nat) (c : ascii) : string :=
  match n with
  | 0 => EmptyString
  | S n' => String c (repeatChar n' c)
  end.

(** A sequence of Add operations, one per title, each on the state the
    previous one left (whether it succeeded or threw). *)
Fixpoint addSequence (titles : list (option string)) (s : AppState)
    (rt : Runtime) : AppState * Runtime :=
  match titles with
  | [] => (s, rt)
  | title :: titles' =>
      let '(_, s', rt') := AddTodo.addTodo title s rt in
      addSequence titles' s' rt'
  end.

(** The identifiers present, in the order of the container. *)
Definition ids (s : AppState) : list Z := Todo.id <$> AppState.todos s.

(** The largest identifier present, 0 when there is none. *)
Definition maxId (s : AppState) : Z := foldr Z.max 0%Z (ids s).

(** The allocation invariant. *)
Definition allocated (s : AppState) : Prop :=
  NoDup (ids s) ∧ AppState.nextId s = (1 + maxId s)%Z.

(** Removal as the specification words it: the first todo whose identifier
    matches goes, everything else stays. *)
Fixpoint removeFirst (id : Z) (todos : list Todo) : list Todo :=
  match todos with
  | [] => []
  | todo :: todos' =>
      if bool_decide (Todo.id todo = id) then todos'
      else todo :: removeFirst id todos'
  end.

(** A container in which two todos carry the identifier 1. *)
Definition twins : AppState :=
  AppState.mk
    [ Todo.mk 1 "first" false "t0" "t0"; Todo.mk 1 "second" false "t1" "t1" ]
    2 "all".

(** What the round trip is claimed to preserve of a todo. *)
Definition essence (todo : Todo) : Z * string * bool :=
  (Todo.id todo, Todo.title todo, Todo.completed todo).

(** The invariants of the data model that the round trip relies on. *)
Definition wellFormed (s : AppState) : Prop :=
  (∀ todo, todo ∈ AppState.todos s →
     Todo.title todo ≠ "" ∧ JsString.trim (Todo.title todo) = Todo.title todo)
  ∧ (1 ≤ AppState.nextId s)%Z
  ∧ AppState.currentView s ∈ AppState.views.

(** A container with two todos, one completed, to load back. *)
Definition sampleState : AppState :=
  AppState.mk
    [ Todo.mk 1 "Buy milk" false "2024-01-01T00:00:00.000Z" "2024-01-01T00:00:00.000Z";
      Todo.mk 2 "Walk the dog" true "2024-01-02T00:00:00.000Z" "2024-01-03T00:00:00.000Z" ]
    3 "active".

(** [s'] differs from [s] at most in the todos whose identifier is [i]:
    the counter and the view are the same, the identifiers are the same in
    the same order, and every todo with another identifier is where it was
    with all its fields. *)
Definition touchesOnly (i : Z) (s s' : AppState) : Prop :=
  AppState.nextId s' = AppState.nextId s
  ∧ AppState.currentView s' = AppState.currentView s
  ∧ ids s' = ids s
  ∧ ∀ k todo, AppState.todos s !! k = Some todo → Todo.id todo ≠ i →
              AppState.todos s' !! k = Some todo.

(** [s'] agrees with [s] everywhere but at one place, which holds [i]. *)
Definition differsAtOnePlace (i : Z) (s s' : AppState) : Prop :=
  ∃ k, ids s !! k = Some i
       ∧ ∀ k', k' ≠ k → AppState.todos s' !! k' = AppState.todos s !! k'.

(** A method that leaves the identifier of its object alone. *)
Definition keepsId {A} (method : M Todo A) : Prop :=
  ∀ todo rt, Todo.id (method todo rt).1.2 = Todo.id todo.

(** The callback throws on every call. *)
Definition alwaysThrows (save : AppState → Saving) : Prop :=
  ∀ s, ∃ thrown, save s = Rejects thrown.

(** The callback throws on every call, and what it throws is never
    [null] or [undefined]. *)
Definition alwaysThrowsValues (save : AppState → Saving) : Prop :=
  ∀ s, save s = Rejects ThrownValue.

(** The Add command that the parser builds for a title. *)
Definition addCommand (title : string) : Command :=
  Command.mk (Some ADD_TODO)
    (Command.mkPayload None (Some title) None None None None None)
    Command.noMeta.

(** A callback that reports a full disk with an [Error]; one that throws
    [null]; one that rejects with no reason, as [Promise.reject()] does. *)
Definition diskFull : AppState → Saving := λ _, Rejects ThrownValue.
Definition throwsNull : AppState → Saving := λ _, Rejects ThrownNull.
Definition rejectsBare : AppState → Saving := λ _, Rejects ThrownUndefined.

(** A container with one todo, not completed, whose identifier is 1. *)
Definition oneTodo : AppState :=
  AppState.mk [ Todo.mk 1 "Buy milk" false "t0" "t0" ] 2 "all".

(** A container whose todos are titled b, a, c, in that order. *)
Definition bac : AppState :=
  AppState.mk
    [ Todo.mk 1 "b" false "t0" "t0"; Todo.mk 2 "a" false "t1" "t1";
      Todo.mk 3 "c" false "t2" "t2" ]
    4 "all".

(** A clock that shows [now] at every read. *)
Definition at_time (now : string) : Runtime :=
  mkRuntime (λ _, now) 0 (λ _, None) (λ _, []).

(** The Unknown command that carries [input], and what routing it returns. *)
Definition unknownCommand (input : string) : Command :=
  Command.mk (Some UNKNOWN)
    (Command.mkPayload (Some input) None None None None None None)
    Command.noMeta.

Definition unknownResult (input : string) : CommandRouter.Result :=
  CommandRouter.mkResult false "UNKNOWN" None
    (Some (CommandRouter.Unknown ("Unknown command: " +:+ input)
             ("Type " +:+ String JsString.quote "help"
              +:+ String JsString.quote " to see available commands"))).

(** The command built for [sort title desc]. *)
Definition sortCommand : Command :=
  Command.mk (Some LIST_TODOS)
    (Command.mkPayload None None None (Some "all") None (Some "sort") (Some true))
    (Command.mkMeta None false false true).

(** The command built for [filter w], whatever the view word [w]. *)
Definition filterCommand : Command :=
  Command.mk (Some FILTER_TODOS)
    (Command.mkPayload None None None (Some "filter") None None None)
    Command.noMeta.


(** The state with its view set to [view]. *)
Definition viewing (view : string) (s : AppState) : AppState :=
  AppState.mk (AppState.todos s) (AppState.nextId s) view.

(** A container with every combination of completion. *)
Definition mixedState : AppState :=
  AppState.mk
    [ Todo.mk 3 "write" true "t0" "t1"; Todo.mk 1 "Read" false "t2" "t2";
      Todo.mk 2 "review" true "t3" "t4"; Todo.mk 4 "rest" false "t5" "t5" ]
    5 "all".

Global Instance SortValue_eq_dec : EqDecision ListTodos.SortValue.
Proof. solve_decision. Defined.

(** What a method may do to a todo: it keeps the identifier and the time
    of creation, and keeps the title or sets it to a validated title,
    trimmed. *)
Definition revised (todo todo' : Todo) : Prop :=
  Todo.id todo' = Todo.id todo
  ∧ Todo.createdAt todo' = Todo.createdAt todo
  ∧ (Todo.title todo' = Todo.title todo
     ∨ ∃ newTitle, ¬ rejected newTitle
                   ∧ Todo.title todo' = JsString.trim newTitle).

Definition revises {A} (method : M Todo A) : Prop :=
  ∀ todo rt, revised todo (method todo rt).1.2.

(** The ways in which a command changes the container: not at all; in its
    view only; by one todo appended at [nextId]; by one todo revised in
    its place; by todos removed. *)
Inductive change (s s' : AppState) : Prop :=
| ch_unchanged : s' = s → change s s'
| ch_viewed (view : string) :
    view ∈ AppState.views → s' = viewing view s → change s s'
| ch_appended (title : string) (rt : Runtime) :
    ¬ rejected title → s' = AppState.addTodo (added title s rt) s → change s s'
| ch_replaced (k : nat) (todo todo' : Todo) :
    AppState.todos s !! k = Some todo → revised todo todo' →
    s' = AppState.mk (<[k:=todo']> (AppState.todos s)) (AppState.nextId s)
                     (AppState.currentView s) →
    change s s'
| ch_removed :
    AppState.todos s' `sublist_of` AppState.todos s →
    AppState.nextId s' = AppState.nextId s →
    AppState.currentView s' = AppState.currentView s →
    change s s'.

(** Todos may have gone, nothing else has changed. *)
Definition shrinks (s s' : AppState) : Prop :=
  AppState.todos s' `sublist_of` AppState.todos s
  ∧ AppState.nextId s' = AppState.nextId s
  ∧ AppState.currentView s' = AppState.currentView s.

(** Identifiers are unique and all below [nextId]. *)
Definition freshIds (s : AppState) : Prop :=
  NoDup (ids s) ∧ ∀ i, i ∈ ids s → (i < AppState.nextId s)%Z.

(** The invariants of the data model: every title is non-empty, trimmed
    and at most 255 characters long, [nextId] is at least 1, the view is
    one of the three. *)
Definition modelInvariant (s : AppState) : Prop :=
  wellFormed s
  ∧ ∀ todo, todo ∈ AppState.todos s → String.length (Todo.title todo) ≤ 255.

(** A command of a given type carrying an identifier, and one carrying an
    identifier and a title. *)
Definition idCommand (ty : CommandType) (id : Z) : Command :=
  Command.mk (Some ty)
    (Command.mkPayload None None (Some id) None None None None)
    Command.noMeta.

Definition editCommand (id : Z) (title : string) : Command :=
  Command.mk (Some EDIT_TODO)
    (Command.mkPayload None (Some title) (Some id) None None None None)
    Command.noMeta.

(** The types of the commands that only read. *)
Definition readingTypes : list (option CommandType) :=
  [Some LIST_TODOS; Some FILTER_TODOS; Some HELP; Some EXIT; Some UNKNOWN].

(** A List command that searches. *)
Definition searchCommand (term : string) : Command :=
  Command.mk (Some LIST_TODOS)
    (Command.mkPayload None None None (Some "all") (Some term) None None)
    (Command.mkMeta None true false false).

(** The result of a command that did not find its todo. *)
Definition notFound (ty : CommandType) (id : Z) : CommandRouter.Result :=
  CommandRouter.mkResult false (CommandRouter.name ty)
    (Some ("Todo with ID " +:+ JsString.of_Z id +:+ " not found")) None.

(** The container with [todo'] in place [k]. *)
Definition withTodo (k : nat) (todo' : Todo) (s : AppState) : AppState :=
  AppState.mk (<[k:=todo']> (AppState.todos s)) (AppState.nextId s)
              (AppState.currentView s).

(** The container without the todos that carry [id]. *)
Definition without (id : Z) (s : AppState) : AppState :=
  AppState.mk (filter (λ todo, Todo.id todo ≠ id) (AppState.todos s))
              (AppState.nextId s) (AppState.currentView s).

(** One clock read later. *)
Definition later1 (rt : Runtime) : Runtime :=
  mkRuntime (clock rt) (S (ticks rt)) (dateValue rt) (engineOrder rt).

(** A todo after Toggle and after Edit at the reading [rt] of the clock. *)
Definition toggled (rt : Runtime) (todo : Todo) : Todo :=
  Todo.mk (Todo.id todo) (Todo.title todo) (negb (Todo.completed todo))
          (Todo.createdAt todo) (clock rt (ticks rt)).

Definition retitled (rt : Runtime) (newTitle : string) (todo : Todo) : Todo :=
  Todo.mk (Todo.id todo) (JsString.trim newTitle) (Todo.completed todo)
          (Todo.createdAt todo) (clock rt (ticks rt)).

(** The todos that Clear Completed removes: those that share a positive
    identifier with a completed todo. *)
Definition cleared (s : AppState) (todo : Todo) : Prop :=
  (1 ≤ Todo.id todo)%Z
  ∧ Todo.id todo ∈ Todo.id <$> ClearSync.completedOf s.

(** What becomes of a title handed to Add: the trimmed title of the new
    todo, or nothing when it is refused. *)
Definition accepts (title : option string) : option string :=
  match title with
  | Some title =>
      if decide (rejected title) then None else Some (JsString.trim title)
  | None => None
  end.

(** The titles of the todos that a sequence of Adds creates, and the
    titles it refuses, both in order. *)
Definition acceptedTitles (titles : list (option string)) : list string :=
  omap accepts titles.

Definition refusedTitles (titles : list (option string)) : list (option string) :=
  filter (λ title, accepts title = None) titles.


(** A container whose [nextId] is the identifier of one of its todos. *)
Definition staleState : AppState :=
  AppState.mk [ Todo.mk 2 "old" false "t0" "t0" ] 2 "all".


(** Every character of a string is in a class. *)
Fixpoint allChars (c : ascii → bool) (s : string) : bool :=
  match s with
  | EmptyString => true
  | String a s' => c a && allChars c s'
  end.

(** The keywords of the Add command. *)
Definition addKeywords : list string := ["add"; "create"; "new"].

(** * Properties *)

(** ** Strings *)

Section StringFacts.
Import JsString.

Lemma trimEnd_idem s : trimEnd (trimEnd s) = trimEnd s.
Proof.
  induction s as [|c s IH]; simpl; [done|].
  destruct (trimEnd s) as [|d r] eqn:E.
  - destruct (is_space c) eqn:Hc; simpl; [done|]. by rewrite Hc.
  - simpl in *. by rewrite IH.
Qed.

Lemma trimStart_head s :
  trimStart s = "" ∨ ∃ c r, trimStart s = String c r ∧ is_space c = false.
Proof.
  induction s as [|c s IH]; simpl; [by left|].
  destruct (is_space c) eqn:Hc; [done|]. right. eauto.
Qed.

Lemma trim_idem s : trim (trim s) = trim s.
Proof.
  unfold trim. destruct (trimStart_head s) as [->|(c & r & -> & Hc)]; [done|].
  assert (∃ r', trimEnd (String c r) = String c r') as [r' Hr'].
  { simpl. destruct (trimEnd r); rewrite ?Hc; eauto. }
  rewrite Hr'. simpl trimStart. rewrite Hc, <- Hr'. apply trimEnd_idem.
Qed.

End StringFacts.

(** ** Quote stripping *)

Section Quotes.
Import JsString Regex Parser.

(** A successful [star] splits its input into what it consumed and what
    it handed to the continuation. *)
Lemma star_split {R} (c : ascii → bool) (s : string)
    (k : string → string → option R) (x : R) :
  star c s k = Some x → ∃ m r, s = m +:+ r ∧ k m r = Some x.
Proof.
  revert k. induction s as [|a s IH]; intros k; simpl.
  - intros H. by exists "", "".
  - destruct (c a).
    + destruct (star c s _) as [y|] eqn:E.
      * intros [= ->]. apply IH in E as (m & r & -> & Hk).
        by exists (String a m), r.
      * intros H. by exists "", (String a s).
    + intros H. by exists "", (String a s).
Qed.

Lemma is_quote_eq c : is_quote c = true → c = quote.
Proof.
  unfold is_quote, code. intros H%N.eqb_eq.
  rewrite <- (ascii_N_embedding c). by rewrite H.
Qed.

(** What the quoted pattern accepts: a quote, the group, a quote. *)
Lemma quoted_Some s inner :
  quoted s = Some inner → s = String quote (inner +:+ String quote "").
Proof.
  destruct s as [|c r]; simpl; [done|].
  destruct (is_quote c) eqn:Hc; [|done].
  intros (m & r' & -> & Hk)%star_split.
  destruct r' as [|c' [|]]; try done.
  destruct (is_quote c') eqn:Hc'; [|done].
  injection Hk as ->. by rewrite (is_quote_eq c), (is_quote_eq c').
Qed.

Lemma quotes_app s1 s2 : quotes (s1 +:+ s2) = quotes s1 + quotes s2.
Proof. induction s1 as [|c s1 IH]; simpl; [done|]. rewrite IH. lia. Qed.

Lemma dropLast_snoc s c : dropLast (s +:+ String c "") = s.
Proof.
  induction s as [|a s IH]; simpl; [done|].
  rewrite IH. by destruct s.
Qed.

Lemma stripQuotes_few_quotes s : quotes s < 2 → stripQuotes s = s.
Proof.
  unfold stripQuotes. destruct (quoted s) as [inner|] eqn:E; [|done].
  apply quoted_Some in E as ->. simpl. rewrite quotes_app. simpl. lia.
Qed.

End Quotes.

(** C9. Quote stripping is idempotent on every string that holds no
    embedded quote pair: stripping the result of a strip changes nothing. *)
Theorem stripQuotes_idempotent (s : string) :
  ¬ embeddedQuotePair s →
  Parser.stripQuotes (Parser.stripQuotes s) = Parser.stripQuotes s.
Proof.
  intros Hs. unfold Parser.stripQuotes at 2 3.
  destruct (Parser.quoted s) as [inner|] eqn:E.
  - apply stripQuotes_few_quotes.
    apply quoted_Some in E as ->.
    unfold embeddedQuotePair in Hs. simpl in Hs.
    rewrite dropLast_snoc in Hs. lia.
  - unfold Parser.stripQuotes. by rewrite E.
Qed.

Lemma stripQuotes_idempotent_witness :
  let s := String JsString.quote ("Buy milk" +:+ String JsString.quote "") in
  Parser.stripQuotes s = "Buy milk" ∧
  Parser.stripQuotes (Parser.stripQuotes s) = Parser.stripQuotes s.
Proof.
  split; [reflexivity|].
  apply stripQuotes_idempotent. unfold embeddedQuotePair. vm_compute. lia.
Defined.

(** The restriction matters: with a quote pair inside the outer one, a
    second strip removes the inner pair too. *)
Lemma stripQuotes_embedded_pair :
  let q := JsString.quote in
  let s := String q (String q ("a" +:+ String q (String q ""))) in
  Parser.stripQuotes s = String q ("a" +:+ String q "") ∧
  Parser.stripQuotes (Parser.stripQuotes s) = "a".
Proof. split; reflexivity. Qed.

(** ** Adding *)

Section Adding.
Import JsString Validation.

Lemma validateTodoInput_nil title :
  validateTodoInput (Some title) = [] ↔ ¬ rejected title.
Proof.
  unfold validateTodoInput, rejected, eqb.
  repeat case_bool_decide; simpl; split; intros; try done; tauto.
Qed.

Lemma check_nil {S} (errors : list string) (s : S) rt :
  errors = [] → check errors s rt = (Ok tt, s, rt).
Proof. by intros ->. Qed.

Lemma check_cons {S} (errors : list string) (s : S) rt :
  errors ≠ [] → check errors s rt = (Throw (join errors), s, rt).
Proof. by destruct errors. Qed.

Lemma create_accepts title s rt :
  ¬ rejected title →
  AddTodo.create (Some title) s rt
  = (Ok (added title s rt), AppState.addTodo (added title s rt) s, later2 rt).
Proof.
  intros H%validateTodoInput_nil.
  unfold AddTodo.create, Js.bind. rewrite (check_nil _ _ _ H). simpl.
  unfold added. by rewrite trim_idem.
Qed.

Lemma create_rejects title s rt :
  rejected title →
  AddTodo.create (Some title) s rt
  = (Throw (join (validateTodoInput (Some title))), s, rt).
Proof.
  intros H. unfold AddTodo.create, Js.bind. rewrite check_cons; [done|].
  intros E%validateTodoInput_nil. done.
Qed.

End Adding.

(** C8, as the code has it.  Add throws the validation message, and leaves
    the state as it was, exactly when the title is blank after trimming or
    the title as given is longer than 255 characters; otherwise it succeeds,
    appends one todo at [nextId] and that todo stores the trimmed title. *)
Theorem addTodo_title_rule (title : string) (s : AppState) (rt : Runtime) :
  if decide (JsString.trim title = "" ∨ 255 < String.length title)
  then AddTodo.addTodo (Some title) s rt
       = (Throw (Validation.join (Validation.validateTodoInput (Some title))), s, rt)
  else ∃ r s' rt',
       AddTodo.addTodo (Some title) s rt = (Ok r, s', rt')
       ∧ AppState.todos s' = AppState.todos s ++ [Op.a_todo r]
       ∧ Todo.id (Op.a_todo r) = AppState.nextId s
       ∧ Todo.title (Op.a_todo r) = JsString.trim title
       ∧ Todo.completed (Op.a_todo r) = false.
Proof.
  case_decide as H.
  - unfold AddTodo.addTodo, Js.bind. by rewrite create_rejects.
  - unfold AddTodo.addTodo, Js.bind. rewrite create_accepts by done. simpl.
    eexists _, _, _. split; [reflexivity|]. simpl.
    unfold AppState.addTodo. by case_match.
Qed.

(** C8, as the claim has it, fails: a space followed by 255 letters is 255
    characters long once trimmed, and Add rejects it. *)
Lemma addTodo_rejects_padded_title :
  let title := String " " (repeatChar 255 "a") in
  (JsString.trim title ≠ "" ∧ String.length (JsString.trim title) ≤ 255)
  ∧ AddTodo.addTodo (Some title) resetAppState epoch
    = (Throw "Todo title is too long (max 255 characters)", resetAppState, epoch).
Proof. vm_compute. split; [split; [done|lia]|done]. Qed.

(** ** Identifier allocation *)

Section Allocation.
Import JsString Validation.

Lemma foldr_max_snoc (l : list Z) (x : Z) :
  foldr Z.max 0%Z (l ++ [x]) = Z.max (foldr Z.max 0%Z l) x.
Proof. induction l as [|y l IH]; simpl; [lia|]. rewrite IH. lia. Qed.

Lemma foldr_max_ge (l : list Z) (x : Z) :
  x ∈ l → (x ≤ foldr Z.max 0%Z l)%Z.
Proof.
  induction l as [|y l IH]; simpl; [by intros ?%elem_of_nil|].
  intros [->|H]%elem_of_cons; [lia|]. apply IH in H. lia.
Qed.

Lemma foldr_max_nonneg (l : list Z) : (0 ≤ foldr Z.max 0%Z l)%Z.
Proof. induction l; simpl; lia. Qed.

(** Adding a todo whose identifier is [nextId] keeps the invariant. *)
Lemma allocated_addTodo (s : AppState) (todo : Todo) :
  Todo.id todo = AppState.nextId s →
  allocated s → allocated (AppState.addTodo todo s).
Proof.
  intros Hid [Hnd Hnext]. unfold allocated, AppState.addTodo.
  rewrite <- Hid, Z.leb_refl. unfold maxId, ids in *. simpl.
  rewrite fmap_app. simpl. split.
  - apply NoDup_app. split_and!; [done| |apply NoDup_singleton].
    intros x Hx ->%list_elem_of_singleton.
    apply foldr_max_ge in Hx. lia.
  - rewrite foldr_max_snoc. pose proof (foldr_max_nonneg (Todo.id <$> AppState.todos s)). lia.
Qed.

Lemma allocated_step title s rt :
  allocated s → allocated (AddTodo.addTodo title s rt).1.2.
Proof.
  intros H. destruct title as [title|].
  - unfold AddTodo.addTodo, Js.bind. destruct (decide (rejected title)).
    + by rewrite create_rejects.
    + rewrite create_accepts by done. simpl. by apply allocated_addTodo.
  - done.
Qed.

Lemma allocated_sequence titles s rt :
  allocated s → allocated (addSequence titles s rt).1.
Proof.
  revert s rt. induction titles as [|title titles IH]; intros s rt H; [done|].
  simpl. pose proof (allocated_step title s rt H) as H'.
  destruct (AddTodo.addTodo title s rt) as [[r s'] rt']. by apply IH.
Qed.

End Allocation.

(** C4. After any sequence of Add operations on the empty container, no
    two todos share an identifier and [nextId] is one more than the largest
    identifier present (1 when there is none).  The sequence being
    arbitrary, this holds after each of its operations. *)
Theorem add_sequence_ids (titles : list (option string)) (rt : Runtime) :
  let s := (addSequence titles resetAppState rt).1 in
  NoDup (ids s) ∧ AppState.nextId s = (1 + maxId s)%Z.
Proof.
  apply allocated_sequence. split; [apply NoDup_nil_2|done].
Qed.

(** ** Removal *)

Section Removal.

Lemma filter_length_lt_iff (id : Z) (todos : list Todo) :
  length (filter (λ todo, Todo.id todo ≠ id) todos) < length todos
  ↔ ∃ todo, todo ∈ todos ∧ Todo.id todo = id.
Proof.
  split.
  - induction todos as [|t l IH]; simpl; [lia|].
    rewrite filter_cons. destruct (decide (Todo.id t ≠ id)) as [Hne|Heq].
    + simpl. intros H. destruct IH as (x & Hx & Hid); [lia|].
      exists x. split; [by apply elem_of_cons; right|done].
    + intros _. exists t. split; [apply elem_of_cons; by left|].
      by destruct (decide (Todo.id t = id)).
  - intros (x & Hx & Hid). apply (length_filter_lt _ _ x); [done|]. by intros ?.
Qed.

Lemma filter_all (P : Todo → Prop) `{∀ x, Decision (P x)} (l : list Todo) :
  (∀ x, x ∈ l → P x) → filter P l = l.
Proof.
  induction l as [|t l IH]; intros Hl; [done|].
  rewrite filter_cons_True by (apply Hl, elem_of_cons; by left).
  f_equal. apply IH. intros x Hx. apply Hl, elem_of_cons. by right.
Qed.

(** With unique identifiers the two notions of removal agree. *)
Lemma removeFirst_filter (id : Z) (todos : list Todo) :
  NoDup (Todo.id <$> todos) →
  removeFirst id todos = filter (λ todo, Todo.id todo ≠ id) todos.
Proof.
  induction todos as [|t l IH]; simpl; [done|].
  intros [Hni Hnd]%NoDup_cons. rewrite filter_cons.
  case_bool_decide as Hid; destruct (decide (Todo.id t ≠ id)); try done.
  - symmetry. apply filter_all. intros x Hx Hx'.
    apply Hni. rewrite Hid, <- Hx'. by apply list_elem_of_fmap_2.
  - by rewrite IH.
Qed.

End Removal.

(** C5, as the code has it.  [removeTodo] removes every todo whose
    identifier matches and keeps all the others, in their order; it leaves
    [nextId] and the view alone; it returns true exactly when some todo
    matched. *)
Theorem removeTodo_removes_all_matches (id : Z) (s : AppState) :
  let '(removed, s') := AppState.removeTodo id s in
  AppState.todos s' = filter (λ todo, Todo.id todo ≠ id) (AppState.todos s)
  ∧ (∀ todo, todo ∈ AppState.todos s' ↔
             todo ∈ AppState.todos s ∧ Todo.id todo ≠ id)
  ∧ AppState.todos s' `sublist_of` AppState.todos s
  ∧ AppState.nextId s' = AppState.nextId s
  ∧ AppState.currentView s' = AppState.currentView s
  ∧ (removed = true ↔ ∃ todo, todo ∈ AppState.todos s ∧ Todo.id todo = id).
Proof.
  unfold AppState.removeTodo. simpl. split_and!; try done.
  - intros todo. rewrite list_elem_of_filter. tauto.
  - apply sublist_filter.
  - rewrite bool_decide_eq_true. apply filter_length_lt_iff.
Qed.

(** C5, as the claim has it, fails: of two todos with the identifier 1,
    the specification keeps the second, the code keeps none. *)
Lemma removeTodo_drops_later_twin :
  removeFirst 1 (AppState.todos twins) = [ Todo.mk 1 "second" false "t1" "t1" ]
  ∧ AppState.todos (AppState.removeTodo 1 twins).2 = []
  ∧ AppState.todos (AppState.removeTodo 1 twins).2
    ≠ removeFirst 1 (AppState.todos twins).
Proof. vm_compute. split_and!; done. Qed.

(** ** Snapshot round trip *)

Section RoundTrip.
Import JsString.
Context {S : Type}.

Lemma fromObject_toJSON (todo : Todo) (x : S) (rt : Runtime) :
  ∃ todo' rt',
    Todo.fromObject (Todo.toJSON todo) x rt = (Ok todo', x, rt')
    ∧ Todo.id todo' = Todo.id todo
    ∧ Todo.title todo' = trim (Todo.title todo)
    ∧ Todo.completed todo' = Todo.completed todo.
Proof.
  unfold Todo.fromObject, Todo.toJSON, Todo.new, Todo.orNow, Js.bind,
    Js.ret, Js.now. simpl.
  destruct (truthy (Todo.createdAt todo)), (truthy (Todo.updatedAt todo));
    eexists _, _; (split; [reflexivity|done]).
Qed.

Lemma fromObjects_toJSON (todos : list Todo) (x : S) (rt : Runtime) :
  (∀ todo, todo ∈ todos → trim (Todo.title todo) = Todo.title todo) →
  ∃ todos' rt',
    AppState.fromObjects (Todo.toJSON <$> todos) x rt = (Ok todos', x, rt')
    ∧ essence <$> todos' = essence <$> todos.
Proof.
  revert rt. induction todos as [|todo todos IH]; intros rt Htrim.
  - by exists [], rt.
  - rewrite fmap_cons. simpl AppState.fromObjects. unfold Js.bind.
    destruct (fromObject_toJSON todo x rt) as (todo' & rt1 & -> & Hi & Ht & Hc).
    destruct (IH rt1) as (todos' & rt2 & -> & Hrest).
    { intros t Ht'. apply Htrim, elem_of_cons. by right. }
    exists (todo' :: todos'), rt2. split; [done|].
    rewrite !fmap_cons, Hrest. f_equal. unfold essence.
    rewrite Hi, Ht, Hc, Htrim; [done|]. apply elem_of_cons. by left.
Qed.

End RoundTrip.

(** C7. For a well-formed container, loading the snapshot that [toJSON]
    produces succeeds and yields the same sequence of todos as far as
    identifier, title and completion go, the same [nextId] and the same
    view. *)
Theorem snapshot_round_trip {S : Type} (s : AppState) (x : S) (rt : Runtime) :
  wellFormed s →
  ∃ s' rt',
    AppState.fromObject (AppState.toJSON s) x rt = (Ok s', x, rt')
    ∧ essence <$> AppState.todos s' = essence <$> AppState.todos s
    ∧ AppState.nextId s' = AppState.nextId s
    ∧ AppState.currentView s' = AppState.currentView s.
Proof.
  intros (Htitles & Hnext & Hview).
  unfold AppState.fromObject, AppState.toJSON, Js.bind. simpl.
  destruct (fromObjects_toJSON (AppState.todos s) x rt) as (todos' & rt' & -> & He).
  { intros todo Hin. by apply Htitles. }
  eexists _, rt'. split; [reflexivity|]. simpl. split_and!; [done| |].
  - case_bool_decide; [lia|done].
  - unfold AppState.views in Hview.
    assert (JsString.truthy (AppState.currentView s) = true) as ->; [|done].
    unfold JsString.truthy, JsString.eqb. case_bool_decide as E; [|done].
    rewrite E in Hview. by repeat apply elem_of_cons in Hview as [?|Hview];
      try apply elem_of_nil in Hview.
Qed.

Lemma snapshot_round_trip_witness :
  ∃ s' rt',
    AppState.fromObject (AppState.toJSON sampleState) tt epoch = (Ok s', tt, rt')
    ∧ essence <$> AppState.todos s' = essence <$> AppState.todos sampleState
    ∧ AppState.nextId s' = AppState.nextId sampleState
    ∧ AppState.currentView s' = AppState.currentView sampleState.
Proof.
  apply (snapshot_round_trip sampleState tt epoch).
  split_and!.
  - intros todo Hin. unfold sampleState in Hin. simpl in Hin.
    repeat (apply elem_of_cons in Hin as [->|Hin]; [by vm_compute|]).
    by apply elem_of_nil in Hin.
  - vm_compute. done.
  - unfold AppState.views. simpl. apply elem_of_cons. right.
    apply elem_of_cons. by left.
Defined.

(** ** Frame of the in-place mutations *)

Section Frame.
Import JsString Validation.

Lemma list_find_insert (P : Todo → Prop) `{∀ x, Decision (P x)}
    (l : list Todo) k t t' :
  list_find P l = Some (k, t) → P t' → list_find P (<[k:=t']> l) = Some (k, t').
Proof.
  intros (Hk & Ht & Hbefore)%list_find_Some Ht'. apply list_find_Some.
  split_and!; [|done|].
  - apply list_lookup_insert_eq. by eapply lookup_lt_Some.
  - intros j y Hj Hlt. rewrite list_lookup_insert_ne in Hj by lia. eauto.
Qed.

(** Replacing, at the place where [i] is first found, a todo by one with
    the same identifier touches only [i]. *)
Lemma touchesOnly_insert i s k t t' :
  AppState.findTodoById i s = Some (k, t) → Todo.id t' = i →
  touchesOnly i s
    (AppState.mk (<[k:=t']> (AppState.todos s)) (AppState.nextId s)
                 (AppState.currentView s)).
Proof.
  intros (Hk & Ht & _)%list_find_Some Ht'. unfold touchesOnly, ids. simpl.
  split_and!; try done.
  - rewrite list_fmap_insert. apply list_insert_id.
    by rewrite list_lookup_fmap, Hk, Ht'; simpl; rewrite Ht.
  - intros j todo Hj Hne. destruct (decide (k = j)) as [->|Hkj].
    + congruence.
    + by rewrite list_lookup_insert_ne.
Qed.

Lemma lookup_throws (i : option Z) s rt e s' rt' :
  CompleteTodo.lookup i s rt = (Throw e, s', rt') → s' = s.
Proof.
  unfold CompleteTodo.lookup, Js.bind.
  destruct i as [i|]; simpl; [|by intros [= _ ->]].
  case_bool_decide; simpl; [by intros [= _ ->]|].
  unfold Js.get. destruct (AppState.findTodoById i s) as [[k t]|];
    by intros [= ? ->].
Qed.

Lemma lookup_finds (i : option Z) s rt k s' rt' :
  CompleteTodo.lookup i s rt = (Ok k, s', rt') →
  ∃ j t, i = Some j ∧ (1 ≤ j)%Z ∧ AppState.findTodoById j s = Some (k, t)
         ∧ s' = s ∧ rt' = rt.
Proof.
  unfold CompleteTodo.lookup, Js.bind.
  destruct i as [i|]; simpl; [|done].
  case_bool_decide; simpl; [done|].
  unfold Js.get. destruct (AppState.findTodoById i s) as [[k' t]|] eqn:E; [|done].
  intros [= -> <- <-]. exists i, t. split_and!; try done. lia.
Qed.

(** Calling a method on the object found and storing the object back. *)
Lemma send_then_store {A} (method : M Todo A) i s rt k t :
  keepsId method →
  AppState.findTodoById i s = Some (k, t) →
  ∃ r t' rt',
    let s1 := AppState.mk (<[k:=t']> (AppState.todos s)) (AppState.nextId s)
                          (AppState.currentView s) in
    method t rt = (r, t', rt')
    ∧ Todo.id t' = i
    ∧ AppState.send k method s rt = (r, s1, rt')
    ∧ ∀ rt2, CompleteTodo.store k s1 rt2 = (Ok t', s1, rt2).
Proof.
  intros Hkeep Hfind. pose proof Hfind as (Hk & Ht & _)%list_find_Some.
  destruct (method t rt) as [[r t'] rt'] eqn:Em.
  assert (Todo.id t' = i) as Hid.
  { specialize (Hkeep t rt). rewrite Em in Hkeep. simpl in Hkeep. congruence. }
  exists r, t', rt'. split_and!; try done.
  - unfold AppState.send. by rewrite Hk, Em.
  - intros rt2. unfold CompleteTodo.store, AppState.at_, Js.bind, Js.get, Js.call.
    simpl. rewrite list_lookup_insert_eq by (by eapply lookup_lt_Some). simpl.
    unfold AppState.updateTodo. simpl.
    rewrite (list_find_insert _ _ k t t'); [|by rewrite Hid|done].
    rewrite list_insert_insert_eq. simpl.
    by rewrite list_lookup_insert_eq by (by eapply lookup_lt_Some).
Qed.

Lemma keepsId_complete : keepsId Todo.complete.
Proof. done. Qed.

Lemma keepsId_uncomplete : keepsId Todo.uncomplete.
Proof. done. Qed.

Lemma keepsId_toggle : keepsId Todo.toggle.
Proof. done. Qed.

Lemma keepsId_updateTitle newTitle : keepsId (Todo.updateTitle newTitle).
Proof. intros todo rt. unfold Todo.updateTitle. by case_match. Qed.

End Frame.

Section FrameOps.
Import JsString Validation.

Ltac found El Hfind :=
  apply lookup_finds in El as (? & ? & [= <-] & _ & Hfind & -> & ->).

Ltac mutate m keeps Hfind rt :=
  let r := fresh "r" in
  let Hsend := fresh "Hsend" in
  let Hstore := fresh "Hstore" in
  destruct (send_then_store m _ _ rt _ _ keeps Hfind)
    as (r & ? & ? & _ & ? & Hsend & Hstore);
  rewrite Hsend; destruct r; [rewrite Hstore|]; simpl;
  by eapply touchesOnly_insert.

Lemma completeTodo_frame i s rt :
  touchesOnly i s (CompleteTodo.completeTodo (Some i) s rt).1.2.
Proof.
  unfold CompleteTodo.completeTodo, Js.bind.
  destruct (CompleteTodo.lookup (Some i) s rt) as [[[k|e] s0] rt0] eqn:El.
  - found El Hfind. mutate Todo.complete keepsId_complete Hfind rt.
  - by apply lookup_throws in El as ->.
Qed.

Lemma incompleteTodo_frame i s rt :
  touchesOnly i s (CompleteTodo.incompleteTodo (Some i) s rt).1.2.
Proof.
  unfold CompleteTodo.incompleteTodo, Js.bind.
  destruct (CompleteTodo.lookup (Some i) s rt) as [[[k|e] s0] rt0] eqn:El.
  - found El Hfind. mutate Todo.uncomplete keepsId_uncomplete Hfind rt.
  - by apply lookup_throws in El as ->.
Qed.

Lemma toggleTodo_frame i s rt :
  touchesOnly i s (CompleteTodo.toggleTodo (Some i) s rt).1.2.
Proof.
  unfold CompleteTodo.toggleTodo, Js.bind.
  destruct (CompleteTodo.lookup (Some i) s rt) as [[[k|e] s0] rt0] eqn:El.
  - found El Hfind. pose proof Hfind as (Hk & _)%list_find_Some.
    unfold AppState.at_ at 1, Js.bind, Js.get. rewrite Hk. simpl.
    mutate Todo.toggle keepsId_toggle Hfind rt.
  - by apply lookup_throws in El as ->.
Qed.

Lemma editTodo_frame i newTitle s rt :
  touchesOnly i s (EditTodo.editTodo (Some i) newTitle s rt).1.2.
Proof.
  unfold EditTodo.editTodo, EditTodo.retitle, Js.bind.
  destruct (validateTodoId (Some i)); simpl; [|done].
  destruct (validateTodoInput newTitle); simpl; [|done].
  destruct newTitle as [newTitle|]; simpl; [|done].
  destruct (AppState.findTodoById i s) as [[k t]|] eqn:Hfind; simpl; [|done].
  destruct (send_then_store (Todo.updateTitle newTitle) _ _ rt _ _
              (keepsId_updateTitle newTitle) Hfind)
    as (r & ? & ? & _ & ? & Hsend & Hstore).
  rewrite Hsend. destruct r; [rewrite Hstore|]; simpl;
    by eapply touchesOnly_insert.
Qed.

End FrameOps.

(** With unique identifiers, touching only [i] is changing one place. *)
Lemma touchesOnly_one_place (i : Z) (s s' : AppState) :
  NoDup (ids s) → i ∈ ids s → touchesOnly i s s' → differsAtOnePlace i s s'.
Proof.
  intros Hnd [k Hk]%list_elem_of_lookup (_ & _ & Hids & Hkeep).
  exists k. split; [done|]. intros k' Hne.
  destruct (AppState.todos s !! k') as [todo|] eqn:Hk'.
  - apply Hkeep; [done|]. intros Hi. apply Hne.
    apply (NoDup_lookup _ _ _ i Hnd); [|done].
    unfold ids. by rewrite list_lookup_fmap, Hk'; simpl; rewrite Hi.
  - apply lookup_ge_None. apply lookup_ge_None in Hk'.
    apply (f_equal length) in Hids. unfold ids in Hids.
    rewrite !length_fmap in Hids. lia.
Qed.

(** C10. In a container with unique identifiers that holds [i], Complete,
    Incomplete, Toggle and Edit (with a title that passes validation) on
    [i] touch only the todo with identifier [i]: every other todo keeps
    its place and all its fields, the order of the identifiers is the
    same, [nextId] and the view are unchanged, and the container differs
    from what it was at one place at most, the one that holds [i]. *)
Theorem mutations_touch_one_todo (s : AppState) (i : Z) (newTitle : string)
    (rt : Runtime) :
  NoDup (ids s) → i ∈ ids s → ¬ rejected newTitle →
  ∀ s',
    ( s' = (CompleteTodo.completeTodo (Some i) s rt).1.2
    ∨ s' = (CompleteTodo.incompleteTodo (Some i) s rt).1.2
    ∨ s' = (CompleteTodo.toggleTodo (Some i) s rt).1.2
    ∨ s' = (EditTodo.editTodo (Some i) (Some newTitle) s rt).1.2 ) →
    touchesOnly i s s' ∧ differsAtOnePlace i s s'.
Proof.
  intros Hnd Hin _ s' Hs'.
  assert (touchesOnly i s s') as Ht.
  { destruct Hs' as [->|[->|[->| ->]]].
    - apply completeTodo_frame.
    - apply incompleteTodo_frame.
    - apply toggleTodo_frame.
    - apply editTodo_frame. }
  split; [done|]. by apply touchesOnly_one_place.
Qed.

Lemma mutations_touch_one_todo_witness :
  let s' := (CompleteTodo.completeTodo (Some 2%Z) sampleState epoch).1.2 in
  touchesOnly 2 sampleState s' ∧ differsAtOnePlace 2 sampleState s'.
Proof.
  apply (mutations_touch_one_todo sampleState 2 "Walk the cat" epoch).
  - compute_done.
  - compute_done.
  - compute_done.
  - by left.
Defined.

(** ** A persistence callback that fails *)

Section FailingSave.
Import JsString Validation.
Variable save : AppState → Saving.
Hypothesis save_throws : alwaysThrowsValues save.

Lemma attemptSave_throws s rt :
  Op.attemptSave (Some save) s rt = (Ok false, s, rt).
Proof.
  unfold Op.attemptSave, Op.outcome, Js.bind, Js.get.
  by rewrite save_throws.
Qed.

Lemma bind_ext {A B} (m : M AppState A) (k1 k2 : A → M AppState B) s rt :
  (∀ a s rt, k1 a s rt = k2 a s rt) → Js.bind m k1 s rt = Js.bind m k2 s rt.
Proof. intros H. unfold Js.bind. by repeat case_match. Qed.

Lemma save_first {B} (k : bool → M AppState B) s rt :
  Js.bind (Op.attemptSave (Some save)) k s rt
  = Js.bind (Op.attemptSave None) k s rt.
Proof. unfold Js.bind. by rewrite attemptSave_throws. Qed.

Ltac same := repeat (apply bind_ext; intros); apply save_first.

Lemma add_same title s rt :
  AddTodo.addTodoWithPersistence title (Some save) s rt
  = AddTodo.addTodoWithPersistence title None s rt.
Proof. unfold AddTodo.addTodoWithPersistence. same. Qed.

Lemma complete_same id s rt :
  CompleteTodo.completeTodoWithPersistence id (Some save) s rt
  = CompleteTodo.completeTodoWithPersistence id None s rt.
Proof. unfold CompleteTodo.completeTodoWithPersistence. same. Qed.

Lemma incomplete_same id s rt :
  CompleteTodo.incompleteTodoWithPersistence id (Some save) s rt
  = CompleteTodo.incompleteTodoWithPersistence id None s rt.
Proof. unfold CompleteTodo.incompleteTodoWithPersistence. same. Qed.

Lemma toggle_same id s rt :
  CompleteTodo.toggleTodoWithPersistence id (Some save) s rt
  = CompleteTodo.toggleTodoWithPersistence id None s rt.
Proof. unfold CompleteTodo.toggleTodoWithPersistence. same. Qed.

Lemma delete_same id s rt :
  DeleteTodo.deleteTodoWithPersistence id (Some save) s rt
  = DeleteTodo.deleteTodoWithPersistence id None s rt.
Proof. unfold DeleteTodo.deleteTodoWithPersistence. same. Qed.

Lemma edit_same id newTitle s rt :
  EditTodo.editTodoWithPersistence id newTitle (Some save) s rt
  = EditTodo.editTodoWithPersistence id newTitle None s rt.
Proof.
  unfold EditTodo.editTodoWithPersistence. apply bind_ext.
  intros [todo oldTitle] s1 rt1. apply save_first.
Qed.

Lemma deleteMultiple_same ids s rt :
  DeleteTodo.deleteMultipleTodosWithPersistence ids (Some save) s rt
  = DeleteTodo.deleteMultipleTodosWithPersistence ids None s rt.
Proof.
  unfold DeleteTodo.deleteMultipleTodosWithPersistence. apply bind_ext.
  intros [results errors] s1 rt1. case_bool_decide; [apply save_first|done].
Qed.

Lemma clear_same s rt :
  ClearCompleted.clearCompletedTodosWithPersistence (Some save) s rt
  = ClearCompleted.clearCompletedTodosWithPersistence None s rt.
Proof.
  unfold ClearCompleted.clearCompletedTodosWithPersistence. apply bind_ext.
  intros appState s1 rt1. case_bool_decide; [done|].
  unfold Js.bind. by rewrite deleteMultiple_same.
Qed.

(** Routing with the failing callback is routing with no callback. *)
Lemma route_same command s rt :
  CommandRouter.routeCommand (Some save) command s rt
  = CommandRouter.routeCommand None command s rt.
Proof.
  unfold CommandRouter.routeCommand.
  destruct (Command.type command) as [ty|]; [|done].
  unfold Js.catch.
  destruct ty; try done;
    unfold CommandRouter.handleAddTodo, CommandRouter.handleCompleteTodo,
      CommandRouter.handleIncompleteTodo, CommandRouter.handleToggleTodo,
      CommandRouter.handleDeleteTodo, CommandRouter.handleEditTodo,
      CommandRouter.handleClearCompleted, Js.bind;
    by rewrite ?add_same, ?complete_same, ?incomplete_same, ?toggle_same,
      ?delete_same, ?edit_same, ?clear_same.
Qed.

End FailingSave.

(** What the operations mean to do when the save fails, and do when the
    callback throws an [Error] or any value other than [null] and
    [undefined]: routing an Add with a valid title returns a result with
    [success = true] whose [saveSuccess] is false, the new todo is in the
    container, and for every command the result and the container are
    those obtained with no callback at all. *)
Lemma thrown_error_is_not_a_failure (save : AppState → Saving)
    (title : string) (s : AppState) (rt : Runtime) :
  alwaysThrowsValues save → ¬ rejected title →
  (∃ r s' rt',
     CommandRouter.routeCommand (Some save) (addCommand title) s rt
     = (Ok (CommandRouter.mkResult true "ADD_TODO" None
              (Some (CommandRouter.Added r))), s', rt')
     ∧ Op.a_saveSuccess r = Some false
     ∧ Todo.title (Op.a_todo r) = JsString.trim title
     ∧ AppState.todos s' = AppState.todos s ++ [Op.a_todo r])
  ∧ ∀ command s rt,
      CommandRouter.routeCommand (Some save) command s rt
      = CommandRouter.routeCommand None command s rt.
Proof.
  intros Hsave Htitle. split; [|intros; by apply route_same].
  unfold CommandRouter.routeCommand, CommandRouter.handleAddTodo,
    AddTodo.addTodoWithPersistence, Js.catch, Js.bind, addCommand.
  cbn [Command.type Command.payload Command.title].
  rewrite create_accepts by done.
  rewrite attemptSave_throws by done. simpl.
  eexists _, _, _. split; [reflexivity|]. simpl. split_and!; try done.
  unfold AppState.addTodo. by case_match.
Qed.

Example full_disk_is_not_a_failure :
  ∃ r s' rt',
    CommandRouter.routeCommand (Some diskFull) (addCommand "Buy milk")
      resetAppState epoch
    = (Ok (CommandRouter.mkResult true "ADD_TODO" None
             (Some (CommandRouter.Added r))), s', rt')
    ∧ Op.a_saveSuccess r = Some false
    ∧ AppState.todos s' = [Op.a_todo r].
Proof. eexists _, _, _. by vm_compute. Qed.

(** C6.  A callback that throws on every call may throw [null], or reject
    with no reason.  Then the [catch] block that was to log the failure
    throws itself when it reads the message of what was thrown, and
    routing an Add with a valid title returns a result with
    [success = false] that carries the TypeError, although the new todo is
    in the container: the failure of the callback shows as a failed
    command. *)
Theorem null_thrown_by_save_fails_the_command (s : AppState) (rt : Runtime) :
  alwaysThrows throwsNull ∧ alwaysThrows rejectsBare
  ∧ CommandRouter.routeCommand (Some throwsNull) (addCommand "Buy milk") s rt
    = (Ok (CommandRouter.mkResult false "ADD_TODO"
             (Some "Cannot read properties of null (reading 'message')") None),
       AppState.addTodo (added "Buy milk" s rt) s, later2 rt)
  ∧ CommandRouter.routeCommand (Some rejectsBare) (addCommand "Buy milk") s rt
    = (Ok (CommandRouter.mkResult false "ADD_TODO"
             (Some "Cannot read properties of undefined (reading 'message')")
             None),
       AppState.addTodo (added "Buy milk" s rt) s, later2 rt)
  ∧ added "Buy milk" s rt ∈ AppState.todos (AppState.addTodo (added "Buy milk" s rt) s).
Proof.
  assert (¬ rejected "Buy milk") as Hok by compute_done.
  split_and!.
  - intros ?. by eexists.
  - intros ?. by eexists.
  - unfold CommandRouter.routeCommand, CommandRouter.handleAddTodo,
      AddTodo.addTodoWithPersistence, Js.catch, Js.bind, addCommand.
    cbn [Command.type Command.payload Command.title].
    by rewrite create_accepts by done.
  - unfold CommandRouter.routeCommand, CommandRouter.handleAddTodo,
      AddTodo.addTodoWithPersistence, Js.catch, Js.bind, addCommand.
    cbn [Command.type Command.payload Command.title].
    by rewrite create_accepts by done.
  - unfold AppState.addTodo. case_match; simpl; apply elem_of_app; right;
      apply list_elem_of_singleton; done.
Qed.

(** ** The grammar at work *)

(** C1. The input [c 1] is not an alias (an alias is the whole input) and
    matches no pattern: it is parsed as Unknown, and routing it fails and
    leaves the container as it was, whatever the container. *)
Theorem c_1_is_unknown (save : SaveFunction) (s : AppState) (rt : Runtime) :
  Parser.parseCommand "c 1" = Ok (unknownCommand "c 1")
  ∧ CommandRouter.routeCommand save (unknownCommand "c 1") s rt
    = (Ok (unknownResult "c 1"), s, rt)
  ∧ CommandRouter.processCommand save "c 1" s rt
    = (Ok (unknownResult "c 1"), s, rt).
Proof. split_and!; reflexivity. Qed.

(** The alias on its own does not reach Complete either: the alias table
    names keys that the table of command types does not have. *)
Example c_alone_has_no_type :
  Parser.parseCommand "c"
  = Ok (Command.mk None
          (Command.mkPayload (Some "c") None None None None None None)
          Command.noMeta).
Proof. reflexivity. Qed.

(** The long form does what the scenario describes: the todo is completed,
    its [updatedAt] is the time of the call, the message holds the title
    (the result is the successful one unless the callback throws [null]
    or [undefined]). *)
Example complete_1_completes (save : SaveFunction) (now : string) :
  let command :=
    Command.mk (Some COMPLETE_TODO)
      (Command.mkPayload None None (Some 1%Z) None None None None)
      Command.noMeta in
  let completed := Todo.mk 1 "Buy milk" true "t0" now in
  let run := CommandRouter.routeCommand save command oneTodo (at_time now) in
  Parser.parseCommand "complete 1" = Ok command
  ∧ run.1.2 = AppState.mk [completed] 2 "all"
  ∧ (∀ saved,
       Op.outcome save (AppState.mk [completed] 2 "all") = Ok saved →
       run.1.1
       = Ok (CommandRouter.mkResult true "COMPLETE_TODO" None
               (Some (CommandRouter.Changed
                        (Op.mkTodo completed
                           (CompleteTodo.completeMessage completed)
                           (Some saved))))))
  ∧ JsString.includes (CompleteTodo.completeMessage completed) "Buy milk" = true.
Proof.
  split_and!; try reflexivity.
  - destruct save as [save|]; [|reflexivity].
    vm_compute. by destruct (save _) as [?|[]].
  - intros saved. destruct save as [save|]; [|by intros [= <-]].
    vm_compute. destruct (save _) as [?|[]]; by intros [= <-].
Qed.

(** C2. The input [sort title desc] is parsed as a List command whose sort
    key is the command word and whose direction is ascending; routing it
    fails on the sort key and returns no todos, whatever the container. *)
Theorem sort_title_desc_fails (save : SaveFunction) (s : AppState) (rt : Runtime) :
  Parser.parseCommand "sort title desc" = Ok sortCommand
  ∧ CommandRouter.routeCommand save sortCommand s rt
    = (Ok (CommandRouter.mkResult false "LIST_TODOS"
             (Some "Sort by must be one of: id, title, createdAt, updatedAt, completed")
             None), s, rt).
Proof. split; reflexivity. Qed.

(** Handed the key and the direction of the input, the sort gives the
    order of the scenario. *)
Example sortTodos_title_desc (rt : Runtime) :
  ∃ sorted, ListTodos.sortTodos (Some "title") (Some false) (Some "all") bac rt
            = (Ok sorted, bac, rt)
            ∧ Todo.title <$> sorted = ["c"; "b"; "a"].
Proof. eexists. split; reflexivity. Qed.

(** C3. For each of the three view words, the input [filter w] is parsed
    as a Filter command whose filter is the command word; routing it fails
    and leaves the view as it was. *)
Theorem filter_command_fails (save : SaveFunction) (s : AppState) (rt : Runtime) :
  Forall (λ w, Parser.parseCommand ("filter " +:+ w) = Ok filterCommand)
         ["all"; "active"; "completed"]
  ∧ CommandRouter.routeCommand save filterCommand s rt
    = (Ok (CommandRouter.mkResult false "FILTER_TODOS"
             (Some "Invalid view: filter. Must be 'all', 'active', or 'completed'")
             None), s, rt).
Proof. split; [repeat constructor|reflexivity]. Qed.

(** [setCurrentView] itself keeps to the three views. *)
Lemma setCurrentView_spec (view : option string) (s : AppState) (rt : Runtime) :
  match view with
  | Some v =>
      if decide (v ∈ AppState.views)
      then AppState.setCurrentView view s rt
           = (Ok tt, AppState.mk (AppState.todos s) (AppState.nextId s) v, rt)
      else ∃ message, AppState.setCurrentView view s rt = (Throw message, s, rt)
  | None => ∃ message, AppState.setCurrentView view s rt = (Throw message, s, rt)
  end.
Proof.
  destruct view as [v|]; simpl; [|by eexists].
  case_decide; case_bool_decide; try done. by eexists.
Qed.

(** ** Views, sorting and searching *)

Section Views.
Import JsString.

Lemma listTodos_view (view : string) s rt :
  view ∈ AppState.views →
  ListTodos.listTodos (Some view) s rt
  = (Ok (AppState.getFilteredTodos (viewing view s)), viewing view s, rt).
Proof.
  intros Hv. unfold ListTodos.listTodos, AppState.setCurrentView, Js.bind. simpl.
  by rewrite !bool_decide_eq_true_2.
Qed.

Lemma views_elem (view : string) :
  view ∈ AppState.views ↔ view = "all" ∨ view = "active" ∨ view = "completed".
Proof.
  unfold AppState.views. rewrite !elem_of_cons, elem_of_nil. tauto.
Qed.

End Views.

(** X1. The active view and the completed view split the container: listed
    one after the other they hold exactly the todos of the all view, no
    todo is in both, and each keeps the order of the container. *)
Theorem views_partition (s : AppState) (rt : Runtime) :
  ∃ active completed,
    ListTodos.listTodos (Some "active") s rt = (Ok active, viewing "active" s, rt)
    ∧ ListTodos.listTodos (Some "completed") s rt
      = (Ok completed, viewing "completed" s, rt)
    ∧ ListTodos.listTodos (Some "all") s rt
      = (Ok (AppState.todos s), viewing "all" s, rt)
    ∧ active ++ completed ≡ₚ AppState.todos s
    ∧ (∀ todo, todo ∈ active → todo ∉ completed)
    ∧ active `sublist_of` AppState.todos s
    ∧ completed `sublist_of` AppState.todos s.
Proof.
  eexists _, _. split_and!.
  - apply listTodos_view, views_elem. tauto.
  - apply listTodos_view, views_elem. tauto.
  - apply listTodos_view, views_elem. tauto.
  - change (AppState.getFilteredTodos (viewing "active" s))
      with (filter (λ todo, Todo.completed todo = false) (AppState.todos s)).
    change (AppState.getFilteredTodos (viewing "completed" s))
      with (filter (λ todo, Todo.completed todo = true) (AppState.todos s)).
    assert (filter (λ todo, Todo.completed todo = true) (AppState.todos s)
            = filter (λ todo, ¬ Todo.completed todo = false) (AppState.todos s))
      as ->.
    { apply list_filter_iff. intros todo. by destruct (Todo.completed todo). }
    apply filter_app_complement.
  - change (AppState.getFilteredTodos (viewing "active" s))
      with (filter (λ todo, Todo.completed todo = false) (AppState.todos s)).
    change (AppState.getFilteredTodos (viewing "completed" s))
      with (filter (λ todo, Todo.completed todo = true) (AppState.todos s)).
    intros todo [H1 _]%list_elem_of_filter [H2 _]%list_elem_of_filter.
    congruence.
  - apply sublist_filter.
  - apply sublist_filter.
Qed.

Section Sorting.
Import JsString ListTodos.

Lemma code_inj (x y : ascii) : code x = code y → x = y.
Proof.
  unfold code. intros H.
  by rewrite <- (ascii_N_embedding x), <- (ascii_N_embedding y), H.
Qed.

Lemma ltb_irrefl (a : string) : ltb a a = false.
Proof.
  induction a as [|x a IH]; simpl; [done|].
  by rewrite N.ltb_irrefl.
Qed.



Lemma lt_irrefl (v : SortValue) : lt v v = false.
Proof.
  destruct v; simpl; [|apply ltb_irrefl|done].
  apply bool_decide_eq_false. lia.
Qed.


(** Todos with the same sort value compare equal, in both directions. *)
Lemma compareTodos_same rt sortBy ascending a b :
  sortValue rt sortBy a = sortValue rt sortBy b →
  compareTodos rt sortBy ascending a b = 0%Z.
Proof.
  intros H. unfold compareTodos. rewrite H, lt_irrefl. by destruct ascending.
Qed.

Lemma insert_perm cmp x l : insert cmp x l ≡ₚ x :: l.
Proof.
  induction l as [|y l IH]; simpl; [done|].
  case_bool_decide; [done|]. rewrite IH. apply Permutation_swap.
Qed.

Lemma sort_perm cmp l : sort cmp l ≡ₚ l.
Proof.
  induction l as [|x l IH]; simpl; [done|].
  unfold sort in *. by rewrite insert_perm, IH.
Qed.

Lemma insert_filter rt sortBy ascending v x l :
  filter (λ t, sortValue rt sortBy t = v)
         (insert (compareTodos rt sortBy ascending) x l)
  = filter (λ t, sortValue rt sortBy t = v) (x :: l).
Proof.
  induction l as [|y l IH]; simpl; [done|].
  case_bool_decide as Hcmp; [done|].
  rewrite filter_cons, IH, !filter_cons.
  destruct (decide (sortValue rt sortBy y = v)) as [Hy|Hy],
    (decide (sortValue rt sortBy x = v)) as [Hx|Hx]; try done.
  exfalso. apply Hcmp. rewrite compareTodos_same; [done|congruence].
Qed.

End Sorting.

(** The stable sort is a permutation that keeps the todos of equal sort
    value in the order they had. *)
Lemma sort_keeps_ties (rt : Runtime) (sortBy : string) (ascending : bool)
    (todos : list Todo) (v : ListTodos.SortValue) :
  filter (λ todo, ListTodos.sortValue rt sortBy todo = v)
         (ListTodos.sort (ListTodos.compareTodos rt sortBy ascending) todos)
  = filter (λ todo, ListTodos.sortValue rt sortBy todo = v) todos.
Proof.
  induction todos as [|x l IH]; [done|].
  unfold ListTodos.sort in *. simpl. rewrite insert_filter, !filter_cons.
  by rewrite IH.
Qed.

(** The identifier, the title and the completion of a todo are never
    NaN. *)
Lemma comparable_plain_keys (rt : Runtime) (sortBy : string) (todos : list Todo) :
  sortBy ∈ ["id"; "title"; "completed"] →
  ListTodos.comparable rt sortBy todos = true.
Proof.
  intros Hkey. unfold ListTodos.comparable. apply forallb_forall. intros todo _.
  rewrite !elem_of_cons, elem_of_nil in Hkey.
  by destruct Hkey as [->|[->|[->|[]]]].
Qed.

(** X2. Where no sort value is NaN, that is where every date that is
    compared is a valid one, [sortTodos] returns the todos of the view,
    each once (a permutation), and is stable: the todos that share a sort
    value come out in the order they had, whatever the key and the
    direction.  (With an invalid date among the values the comparison is
    not consistent and the order is the engine's.) *)
Theorem sort_stable (sortBy view : string) (ascending : bool) (s : AppState)
    (rt : Runtime) :
  sortBy ∈ ListTodos.sortKeys → view ∈ AppState.views →
  ListTodos.comparable rt sortBy (AppState.getFilteredTodos (viewing view s))
  = true →
  ∃ sorted,
    ListTodos.sortTodos (Some sortBy) (Some ascending) (Some view) s rt
    = (Ok sorted, viewing view s, rt)
    ∧ sorted ≡ₚ AppState.getFilteredTodos (viewing view s)
    ∧ ∀ v, filter (λ todo, ListTodos.sortValue rt sortBy todo = v) sorted
           = filter (λ todo, ListTodos.sortValue rt sortBy todo = v)
                    (AppState.getFilteredTodos (viewing view s)).
Proof.
  intros Hkey Hview Hcomparable.
  unfold ListTodos.sortTodos, Js.bind. simpl.
  rewrite bool_decide_eq_true_2 by done.
  rewrite listTodos_view by done. simpl.
  unfold ListTodos.sorted. rewrite Hcomparable.
  eexists. split; [reflexivity|]. split; [apply sort_perm|].
  intros v. apply sort_keeps_ties.
Qed.

Lemma sort_stable_witness :
  ∃ sorted,
    ListTodos.sortTodos (Some "completed") (Some true) (Some "all") mixedState epoch
    = (Ok sorted, mixedState, epoch)
    ∧ Todo.title <$> sorted = ["Read"; "rest"; "write"; "review"].
Proof.
  destruct (sort_stable "completed" "all" true mixedState epoch)
    as (sorted & Hrun & _ & _); [compute_done|compute_done|reflexivity|].
  exists sorted. split; [exact Hrun|].
  vm_compute in Hrun. by injection Hrun as <-.
Defined.

Section Ordering.
Import JsString ListTodos.
Variable rt : Runtime.
Variable sortBy : string.
Variable ascending : bool.

(** The values of the key are all numbers or all strings. *)
Hypothesis uniform :
  (∀ todo, ∃ n, sortValue rt sortBy todo = Number n)
  ∨ (∀ todo, ∃ s, sortValue rt sortBy todo = Text s).

Let cmp := compareTodos rt sortBy ascending.
Let key := sortValue rt sortBy.







End Ordering.



(** ** How commands change the container *)

Section Changes.
Import JsString Validation.

Lemma trimStart_length s : String.length (trimStart s) ≤ String.length s.
Proof.
  induction s as [|c s IH]; simpl; [done|]. destruct (is_space c); simpl; lia.
Qed.

Lemma trimEnd_length s : String.length (trimEnd s) ≤ String.length s.
Proof.
  induction s as [|c s IH]; simpl; [done|].
  destruct (trimEnd s); [destruct (is_space c)|]; simpl in *; lia.
Qed.

Lemma trim_length s : String.length (trim s) ≤ String.length s.
Proof.
  unfold trim. pose proof (trimEnd_length (trimStart s)).
  pose proof (trimStart_length s). lia.
Qed.

(** The save changes neither the state nor the clock; it returns the flag
    or throws what the [catch] block throws. *)
Lemma attemptSave_spec (saveFunction : SaveFunction) s rt :
  Op.attemptSave saveFunction s rt = (Op.outcome saveFunction s, s, rt).
Proof.
  unfold Op.attemptSave, Js.bind, Js.get.
  by destruct (Op.outcome saveFunction s).
Qed.

Lemma attemptSave_inv (saveFunction : SaveFunction) s rt :
  ∃ r, Op.attemptSave saveFunction s rt = (r, s, rt).
Proof. eexists. apply attemptSave_spec. Qed.

(** The state after a computation that ends with the save is the state
    before the save. *)
Lemma state_then_save {A B} (m : M AppState A) (saveFunction : SaveFunction)
    (k : A → bool → B) s rt :
  ((let* a := m in
    let* saved := Op.attemptSave saveFunction in Js.ret (k a saved)) s rt).1.2
  = (m s rt).1.2.
Proof.
  unfold Js.bind. destruct (m s rt) as [[[a|e] s1] rt1]; [|done].
  by destruct (attemptSave_inv saveFunction s1 rt1) as [[saved|failure] ->].
Qed.

Lemma shrinks_refl s : shrinks s s.
Proof. done. Qed.

Lemma shrinks_trans s1 s2 s3 : shrinks s1 s2 → shrinks s2 s3 → shrinks s1 s3.
Proof.
  intros (H1 & H2 & H3) (H1' & H2' & H3'). split_and!; [|congruence..].
  by etrans.
Qed.

Lemma revises_complete : revises Todo.complete.
Proof. intros todo rt. split_and!; try done. by left. Qed.

Lemma revises_uncomplete : revises Todo.uncomplete.
Proof. intros todo rt. split_and!; try done. by left. Qed.

Lemma revises_toggle : revises Todo.toggle.
Proof. intros todo rt. split_and!; try done. by left. Qed.

Lemma revises_updateTitle newTitle :
  ¬ rejected newTitle → revises (Todo.updateTitle newTitle).
Proof.
  intros Hok todo rt. unfold Todo.updateTitle.
  case_match; (split_and!; try done); [by left|right; eauto].
Qed.

Lemma revises_keepsId {A} (method : M Todo A) : revises method → keepsId method.
Proof. intros H todo rt. apply H. Qed.

(** Find, call the method, store back, go on without touching the state:
    the shape of Complete, Incomplete and Edit, with and without
    persistence. *)
Lemma mutation_change {A X} (method : M Todo A) (rest : Todo → M AppState X)
    (id : option Z) s rt :
  revises method →
  (∀ todo s rt, (rest todo s rt).1.2 = s) →
  change s
    ((let* index := CompleteTodo.lookup id in
      AppState.send index method;;
      let* todo := CompleteTodo.store index in
      rest todo) s rt).1.2.
Proof.
  intros Hrev Hrest. unfold Js.bind.
  destruct (CompleteTodo.lookup id s rt) as [[[k|e] s0] rt0] eqn:El.
  - apply lookup_finds in El as (i & t & -> & _ & Hfind & -> & ->).
    destruct (send_then_store method _ _ rt _ _ (revises_keepsId _ Hrev) Hfind)
      as (r & t' & rt' & Hm & _ & Hsend & Hstore).
    pose proof Hfind as (Hk & _)%list_find_Some.
    assert (revised t t') as Hr.
    { specialize (Hrev t rt). by rewrite Hm in Hrev. }
    rewrite Hsend. destruct r; [rewrite Hstore, Hrest|]; simpl;
      by eapply ch_replaced.
  - apply lookup_throws in El as ->. by apply ch_unchanged.
Qed.

Lemma no_touch_save {X} saveFunction (f : Todo → bool → X) todo s rt :
  ((let* saved := Op.attemptSave saveFunction in Js.ret (f todo saved)) s rt).1.2
  = s.
Proof.
  unfold Js.bind. by destruct (attemptSave_inv saveFunction s rt) as [[saved|failure] ->].
Qed.

Lemma complete_change id saveFunction s rt :
  change s (CompleteTodo.completeTodoWithPersistence id saveFunction s rt).1.2.
Proof.
  apply (mutation_change Todo.complete
           (λ todo, let* saved := Op.attemptSave saveFunction in
                    Js.ret (Op.mkTodo todo (CompleteTodo.completeMessage todo)
                              (Some saved)))).
  - apply revises_complete.
  - intros. apply (no_touch_save _ (λ todo saved, Op.mkTodo todo _ (Some saved))).
Qed.

Lemma incomplete_change id saveFunction s rt :
  change s (CompleteTodo.incompleteTodoWithPersistence id saveFunction s rt).1.2.
Proof.
  apply (mutation_change Todo.uncomplete
           (λ todo, let* saved := Op.attemptSave saveFunction in
                    Js.ret (Op.mkTodo todo (CompleteTodo.incompleteMessage todo)
                              (Some saved)))).
  - apply revises_uncomplete.
  - intros. apply (no_touch_save _ (λ todo saved, Op.mkTodo todo _ (Some saved))).
Qed.

Lemma toggle_change id saveFunction s rt :
  change s (CompleteTodo.toggleTodoWithPersistence id saveFunction s rt).1.2.
Proof.
  unfold CompleteTodo.toggleTodoWithPersistence, Js.bind.
  destruct (CompleteTodo.lookup id s rt) as [[[k|e] s0] rt0] eqn:El.
  - apply lookup_finds in El as (i & t & -> & _ & Hfind & -> & ->).
    pose proof Hfind as (Hk & _)%list_find_Some.
    unfold AppState.at_ at 1, Js.bind, Js.get. rewrite Hk. simpl.
    destruct (send_then_store Todo.toggle _ _ rt _ _ keepsId_toggle Hfind)
      as (r & t' & rt' & Hm & _ & Hsend & Hstore).
    assert (revised t t') as Hr.
    { pose proof (revises_toggle t rt) as H. by rewrite Hm in H. }
    rewrite Hsend. destruct r; [rewrite Hstore|]; simpl.
    + destruct (attemptSave_inv saveFunction
                  (AppState.mk (<[k:=t']> (AppState.todos s)) (AppState.nextId s)
                     (AppState.currentView s)) rt') as [[saved|failure] ->];
        by eapply ch_replaced.
    + by eapply ch_replaced.
  - apply lookup_throws in El as ->. by apply ch_unchanged.
Qed.

Lemma retitle_change id newTitle s rt :
  change s (EditTodo.retitle id newTitle s rt).1.2.
Proof.
  unfold EditTodo.retitle, Js.bind.
  destruct (validateTodoId id) eqn:Eid; simpl; [|by apply ch_unchanged].
  destruct (validateTodoInput newTitle) eqn:Et; simpl; [|by apply ch_unchanged].
  destruct id as [i|]; simpl; [|by apply ch_unchanged].
  destruct newTitle as [newTitle|]; simpl; [|by apply ch_unchanged].
  apply validateTodoInput_nil in Et.
  destruct (AppState.findTodoById i s) as [[k t]|] eqn:Hfind; simpl;
    [|by apply ch_unchanged].
  destruct (send_then_store (Todo.updateTitle newTitle) _ _ rt _ _
              (keepsId_updateTitle newTitle) Hfind)
    as (r & t' & rt' & Hm & _ & Hsend & Hstore).
  pose proof Hfind as (Hk & _)%list_find_Some.
  assert (revised t t') as Hr.
  { pose proof (revises_updateTitle newTitle Et t rt) as H. by rewrite Hm in H. }
  rewrite Hsend. destruct r; [rewrite Hstore|]; simpl; by eapply ch_replaced.
Qed.

Lemma edit_change id newTitle saveFunction s rt :
  change s (EditTodo.editTodoWithPersistence id newTitle saveFunction s rt).1.2.
Proof.
  unfold EditTodo.editTodoWithPersistence.
  pose proof (retitle_change id newTitle s rt) as H.
  unfold Js.bind. destruct (EditTodo.retitle id newTitle s rt) as [[[[t o]|e] s1] rt1];
    [|done].
  by destruct (attemptSave_inv saveFunction s1 rt1) as [[saved|failure] ->].
Qed.

Lemma create_change title s rt : change s (AddTodo.create title s rt).1.2.
Proof.
  destruct title as [title|]; [|by apply ch_unchanged].
  destruct (decide (rejected title)).
  - rewrite create_rejects by done. by apply ch_unchanged.
  - rewrite create_accepts by done. by eapply ch_appended.
Qed.

Lemma add_change title saveFunction s rt :
  change s (AddTodo.addTodoWithPersistence title saveFunction s rt).1.2.
Proof.
  unfold AddTodo.addTodoWithPersistence.
  pose proof (create_change title s rt) as H.
  unfold Js.bind. destruct (AddTodo.create title s rt) as [[[t|e] s1] rt1];
    [|done].
  by destruct (attemptSave_inv saveFunction s1 rt1) as [[saved|failure] ->].
Qed.

Lemma remove_shrinks id s rt : shrinks s (DeleteTodo.remove id s rt).1.2.
Proof.
  unfold DeleteTodo.remove, Js.bind, Js.get, Js.call.
  destruct (validateTodoId id); simpl; [|done].
  destruct id as [i|]; simpl; [|done].
  destruct (AppState.findTodoById i s) as [[k t]|]; simpl; [|done].
  case_bool_decide; simpl; (split_and!; [apply sublist_filter|done..]).
Qed.

Lemma delete_shrinks id saveFunction s rt :
  shrinks s (DeleteTodo.deleteTodoWithPersistence id saveFunction s rt).1.2.
Proof.
  unfold DeleteTodo.deleteTodoWithPersistence.
  pose proof (remove_shrinks id s rt) as H.
  unfold Js.bind. destruct (DeleteTodo.remove id s rt) as [[[t|e] s1] rt1];
    [|done].
  by destruct (attemptSave_inv saveFunction s1 rt1) as [[saved|failure] ->].
Qed.

Lemma deleteEach_shrinks ids s rt :
  shrinks s (DeleteTodo.deleteEach ids s rt).1.2.
Proof.
  revert s rt. induction ids as [|i ids IH]; intros s rt; [done|].
  simpl. unfold Js.bind, Js.catch.
  pose proof (delete_shrinks (Some i) None s rt) as H1.
  destruct (DeleteTodo.deleteTodoWithPersistence (Some i) None s rt)
    as [[[r|e] s1] rt1]; simpl in *.
  - pose proof (IH s1 rt1) as H2.
    destruct (DeleteTodo.deleteEach ids s1 rt1) as [[[[rs es]|e'] s2] rt2];
      simpl in *; by eapply shrinks_trans.
  - pose proof (IH s1 rt1) as H2.
    destruct (DeleteTodo.deleteEach ids s1 rt1) as [[[[rs es]|e'] s2] rt2];
      simpl in *; by eapply shrinks_trans.
Qed.

Lemma clear_shrinks saveFunction s rt :
  shrinks s
    (ClearCompleted.clearCompletedTodosWithPersistence saveFunction s rt).1.2.
Proof.
  unfold ClearCompleted.clearCompletedTodosWithPersistence,
    DeleteTodo.deleteMultipleTodosWithPersistence, Js.bind, Js.get.
  case_bool_decide; [done|].
  match goal with |- context [DeleteTodo.deleteEach ?l s rt] =>
    pose proof (deleteEach_shrinks l s rt) as H1;
    destruct (DeleteTodo.deleteEach l s rt) as [[[[rs es]|e] s1] rt1] end;
    simpl in *; [|done].
  destruct (bool_decide (0 < length rs)); [|done].
  by destruct (attemptSave_inv saveFunction s1 rt1) as [[saved|failure] ->].
Qed.

Lemma shrinks_change s s' : shrinks s s' → change s s'.
Proof. intros (?&?&?). by apply ch_removed. Qed.

(** Listing sets the view, or throws before doing so. *)
Lemma listTodos_change filter s rt :
  let s' := (ListTodos.listTodos filter s rt).1.2 in
  s' = s ∨ ∃ view, view ∈ AppState.views ∧ s' = viewing view s.
Proof.
  unfold ListTodos.listTodos, AppState.setCurrentView, Js.bind. cbv zeta.
  case_bool_decide as Hv; [|by left].
  simpl. right. eauto.
Qed.

Lemma searchTodos_change term filter s rt :
  let s' := (ListTodos.searchTodos term filter s rt).1.2 in
  s' = s ∨ ∃ view, view ∈ AppState.views ∧ s' = viewing view s.
Proof.
  unfold ListTodos.searchTodos. destruct term as [term|]; [|by left].
  case_bool_decide; [|by left]. unfold Js.bind.
  pose proof (listTodos_change filter s rt) as Hl.
  by destruct (ListTodos.listTodos filter s rt) as [[[l|e] s1] rt1].
Qed.

Lemma sortTodos_change sortBy ascending filter s rt :
  let s' := (ListTodos.sortTodos sortBy ascending filter s rt).1.2 in
  s' = s ∨ ∃ view, view ∈ AppState.views ∧ s' = viewing view s.
Proof.
  unfold ListTodos.sortTodos. case_bool_decide; [|by left]. unfold Js.bind.
  pose proof (listTodos_change filter s rt) as Hl.
  by destruct (ListTodos.listTodos filter s rt) as [[[l|e] s1] rt1].
Qed.

Lemma handleListTodos_change command s rt :
  let s' := (CommandRouter.handleListTodos command s rt).1.2 in
  s' = s ∨ ∃ view, view ∈ AppState.views ∧ s' = viewing view s.
Proof.
  unfold CommandRouter.handleListTodos, Js.bind.
  destruct (Command.search (Command.meta command));
    [|destruct (Command.sort (Command.meta command))].
  - pose proof (searchTodos_change
      (Command.searchTerm (Command.payload command))
      (Command.filter (Command.payload command)) s rt) as Hl.
    by destruct (ListTodos.searchTodos _ _ s rt) as [[[l|e] s1] rt1].
  - pose proof (sortTodos_change
      (Command.sortBy (Command.payload command))
      (Command.ascending (Command.payload command))
      (Command.filter (Command.payload command)) s rt) as Hl.
    by destruct (ListTodos.sortTodos _ _ _ s rt) as [[[l|e] s1] rt1].
  - pose proof (listTodos_change (Command.filter (Command.payload command)) s rt)
      as Hl.
    by destruct (ListTodos.listTodos _ s rt) as [[[l|e] s1] rt1].
Qed.

Lemma handleFilterTodos_change command s rt :
  let s' := (CommandRouter.handleFilterTodos command s rt).1.2 in
  s' = s ∨ ∃ view, view ∈ AppState.views ∧ s' = viewing view s.
Proof.
  unfold CommandRouter.handleFilterTodos, Js.bind.
  destruct (Command.filter (Command.payload command)) as [v|]; simpl; [|by left].
  case_bool_decide as Hv; simpl; [|by left].
  rewrite (listTodos_view v) by done. simpl. right. exists v. split; [done|].
  by destruct s.
Qed.

Lemma catch_state {A} (m : M AppState A) (h : string → A) s rt :
  (Js.catch m (λ e, Js.ret (h e)) s rt).1.2 = (m s rt).1.2.
Proof. unfold Js.catch. by destruct (m s rt) as [[[a|e] s1] rt1]. Qed.

Lemma bind_ret_state {A B} (m : M AppState A) (f : A → B) s rt :
  ((let* a := m in Js.ret (f a)) s rt).1.2 = (m s rt).1.2.
Proof. unfold Js.bind. by destruct (m s rt) as [[[a|e] s1] rt1]. Qed.

Lemma view_change s s' :
  (s' = s ∨ ∃ view, view ∈ AppState.views ∧ s' = viewing view s) → change s s'.
Proof. intros [->|(v & Hv & ->)]; [by apply ch_unchanged|by eapply ch_viewed]. Qed.

(** Whatever the command, the router changes the container in one of the
    five ways. *)
Lemma route_change saveFunction command s rt :
  change s (CommandRouter.routeCommand saveFunction command s rt).1.2.
Proof.
  unfold CommandRouter.routeCommand.
  destruct (Command.type command) as [ty|]; [|by apply ch_unchanged].
  rewrite catch_state. destruct ty.
  - unfold CommandRouter.handleAddTodo. rewrite bind_ret_state. apply add_change.
  - unfold CommandRouter.handleCompleteTodo. rewrite bind_ret_state.
    apply complete_change.
  - unfold CommandRouter.handleIncompleteTodo. rewrite bind_ret_state.
    apply incomplete_change.
  - unfold CommandRouter.handleToggleTodo. rewrite bind_ret_state.
    apply toggle_change.
  - unfold CommandRouter.handleDeleteTodo. rewrite bind_ret_state.
    apply shrinks_change, delete_shrinks.
  - unfold CommandRouter.handleEditTodo. rewrite bind_ret_state.
    apply edit_change.
  - apply view_change, handleListTodos_change.
  - unfold CommandRouter.handleClearCompleted. rewrite bind_ret_state.
    apply shrinks_change, clear_shrinks.
  - apply view_change, handleFilterTodos_change.
  - by apply ch_unchanged.
  - by apply ch_unchanged.
  - by apply ch_unchanged.
Qed.

End Changes.

Section Invariants.
Import JsString.

Lemma ids_insert (s : AppState) k todo todo' :
  AppState.todos s !! k = Some todo → Todo.id todo' = Todo.id todo →
  Todo.id <$> <[k:=todo']> (AppState.todos s) = Todo.id <$> AppState.todos s.
Proof.
  intros Hk Hid. rewrite list_fmap_insert. apply list_insert_id.
  by rewrite list_lookup_fmap, Hk, Hid.
Qed.

Lemma change_freshIds s s' : change s s' → freshIds s → freshIds s'.
Proof.
  intros Hch [Hnd Hlt]. destruct Hch as [->| view _ -> | title rt _ -> |
    k todo todo' Hk (Hid & _) -> | Hsub Hn _]; try done.
  - unfold freshIds, ids, AppState.addTodo, added in *. simpl.
    rewrite Z.leb_refl. simpl. rewrite fmap_app. simpl. split.
    + apply NoDup_app. split_and!; [done| |apply NoDup_singleton].
      intros i Hi ->%list_elem_of_singleton. apply Hlt in Hi. lia.
    + intros i [Hi| ->%list_elem_of_singleton]%elem_of_app; [|lia].
      apply Hlt in Hi. lia.
  - unfold freshIds, ids in *. simpl. by rewrite (ids_insert s k todo todo').
  - unfold freshIds, ids in *. rewrite Hn.
    assert (Todo.id <$> AppState.todos s' `sublist_of` Todo.id <$> AppState.todos s)
      as Hsub' by by apply fmap_sublist.
    split; [by eapply sublist_NoDup|].
    intros i Hi. apply Hlt. by eapply elem_of_sublist.
Qed.

Lemma accepted_title title :
  ¬ rejected title →
  trim title ≠ "" ∧ trim (trim title) = trim title
  ∧ String.length (trim title) ≤ 255.
Proof.
  intros H. unfold rejected in H. split_and!; [tauto|apply trim_idem|].
  pose proof (trim_length title). lia.
Qed.

Lemma change_modelInvariant s s' : change s s' → modelInvariant s → modelInvariant s'.
Proof.
  intros Hch [(Htitles & Hnext & Hview) Hlen].
  destruct Hch as [->| view Hv -> | title rt Hok -> |
    k todo todo' Hk (_ & _ & Htitle) -> | Hsub Hn Hvw]; try done.
  - destruct (accepted_title title Hok) as (H1 & H2 & H3).
    unfold modelInvariant, wellFormed, AppState.addTodo, added. simpl.
    rewrite Z.leb_refl. simpl. split_and!; try done; try lia.
    + intros todo [Hin| ->%list_elem_of_singleton]%elem_of_app; [by apply Htitles|].
      done.
    + intros todo [Hin| ->%list_elem_of_singleton]%elem_of_app; [by apply Hlen|].
      done.
  - assert (∀ x, x ∈ <[k:=todo']> (AppState.todos s) →
                 x = todo' ∨ x ∈ AppState.todos s) as Hin.
    { intros x [j Hj]%list_elem_of_lookup.
      apply list_lookup_insert_Some in Hj as [(_ & -> & _)|(_ & Hj)]; [by left|].
      right. apply list_elem_of_lookup. eauto. }
    assert (todo ∈ AppState.todos s) as Ht by (apply list_elem_of_lookup; eauto).
    assert ((Todo.title todo' ≠ "" ∧ trim (Todo.title todo') = Todo.title todo')
            ∧ String.length (Todo.title todo') ≤ 255) as [Hnew Hnewlen].
    { destruct Htitle as [->|(newTitle & Hok & ->)].
      - split; [by apply Htitles|by apply Hlen].
      - destruct (accepted_title newTitle Hok) as (H1 & H2 & H3). done. }
    unfold modelInvariant, wellFormed. simpl. split_and!; try done.
    + intros x [->|Hx]%Hin; [done|by apply Htitles].
    + intros x [->|Hx]%Hin; [done|by apply Hlen].
  - unfold modelInvariant, wellFormed. rewrite Hn, Hvw. split_and!; try done.
    + intros x Hx. apply Htitles. by eapply elem_of_sublist.
    + intros x Hx. apply Hlen. by eapply elem_of_sublist.
Qed.

End Invariants.

(** X4. Whatever the command and whatever the persistence callback does,
    routing a command keeps the identifiers unique and all below [nextId]:
    an identifier is never given twice, also after deletions. *)
Theorem route_keeps_fresh_ids (saveFunction : SaveFunction) (command : Command)
    (s : AppState) (rt : Runtime) :
  freshIds s →
  freshIds (CommandRouter.routeCommand saveFunction command s rt).1.2.
Proof. apply change_freshIds, route_change. Qed.

Lemma route_keeps_fresh_ids_witness :
  freshIds (CommandRouter.routeCommand None (idCommand DELETE_TODO 1)
              mixedState epoch).1.2
  ∧ ids (CommandRouter.routeCommand None (idCommand DELETE_TODO 1)
           mixedState epoch).1.2 = [3; 2; 4]%Z.
Proof.
  split; [|reflexivity].
  apply (route_keeps_fresh_ids None (idCommand DELETE_TODO 1) mixedState epoch).
  split; [compute_done|].
  intros i Hi. unfold ids, mixedState in Hi. simpl in Hi.
  repeat (apply elem_of_cons in Hi as [->|Hi]; [simpl; lia|]).
  by apply elem_of_nil in Hi.
Defined.

(** X5. Whatever the command, routing it keeps the invariants of the data
    model: every title non-empty, trimmed and at most 255 characters long,
    [nextId] at least 1, the view one of all, active, completed. *)
Theorem route_keeps_model_invariant (saveFunction : SaveFunction)
    (command : Command) (s : AppState) (rt : Runtime) :
  modelInvariant s →
  modelInvariant (CommandRouter.routeCommand saveFunction command s rt).1.2.
Proof. apply change_modelInvariant, route_change. Qed.

Lemma route_keeps_model_invariant_witness :
  modelInvariant
    (CommandRouter.routeCommand None (editCommand 2 "  Walk the cat ")
       sampleState epoch).1.2
  ∧ Todo.title <$>
      AppState.todos
        (CommandRouter.routeCommand None (editCommand 2 "  Walk the cat ")
           sampleState epoch).1.2
    = ["Buy milk"; "Walk the cat"].
Proof.
  split; [|reflexivity].
  apply (route_keeps_model_invariant None (editCommand 2 "  Walk the cat ")
           sampleState epoch).
  split; [split_and!|].
  - intros todo Hin. unfold sampleState in Hin. simpl in Hin.
    repeat (apply elem_of_cons in Hin as [->|Hin]; [by vm_compute|]).
    by apply elem_of_nil in Hin.
  - simpl. lia.
  - compute_done.
  - intros todo Hin. unfold sampleState in Hin. simpl in Hin.
    repeat (apply elem_of_cons in Hin as [->|Hin]; [vm_compute; lia|]).
    by apply elem_of_nil in Hin.
Defined.

(** X6. The commands that read (List with its search, sort and stats
    variants, Filter, Help, Exit, Unknown) never change a todo nor
    [nextId]; the view stays or becomes one of the three views. *)
Theorem reading_commands_keep_todos (saveFunction : SaveFunction)
    (command : Command) (s : AppState) (rt : Runtime) :
  Command.type command ∈ readingTypes →
  let s' := (CommandRouter.routeCommand saveFunction command s rt).1.2 in
  AppState.todos s' = AppState.todos s
  ∧ AppState.nextId s' = AppState.nextId s
  ∧ (AppState.currentView s' = AppState.currentView s
     ∨ AppState.currentView s' ∈ AppState.views).
Proof.
  intros Hty. cbv zeta.
  assert (let s' := (CommandRouter.routeCommand saveFunction command s rt).1.2 in
          s' = s ∨ ∃ view, view ∈ AppState.views ∧ s' = viewing view s) as H.
  { unfold CommandRouter.routeCommand, readingTypes in *.
    rewrite !elem_of_cons, elem_of_nil in Hty.
    destruct Hty as [->|[->|[->|[->|[->|[]]]]]]; cbv zeta; rewrite catch_state.
    - apply handleListTodos_change.
    - apply handleFilterTodos_change.
    - by left.
    - by left.
    - by left. }
  destruct H as [->|(view & Hv & ->)]; simpl; [tauto|]. split_and!; try done.
  by right.
Qed.

Lemma reading_commands_keep_todos_witness :
  let s' := (CommandRouter.routeCommand None (searchCommand "RE")
               mixedState epoch).1.2 in
  AppState.todos s' = AppState.todos mixedState
  ∧ AppState.nextId s' = AppState.nextId mixedState
  ∧ (AppState.currentView s' = AppState.currentView mixedState
     ∨ AppState.currentView s' ∈ AppState.views).
Proof.
  apply (reading_commands_keep_todos None (searchCommand "RE") mixedState epoch).
  compute_done.
Defined.

Section Searching.
Import JsString.



End Searching.



Section Missing.
Import JsString Validation.

Lemma find_missing id s : id ∉ ids s → AppState.findTodoById id s = None.
Proof.
  intros Hid. apply list_find_None, Forall_forall. intros todo Hin Heq.
  apply Hid. unfold ids. rewrite <- Heq. by apply list_elem_of_fmap_2.
Qed.

Lemma find_present id s :
  id ∈ ids s → ∃ k todo, AppState.findTodoById id s = Some (k, todo).
Proof.
  intros (todo & -> & Hin)%list_elem_of_fmap.
  destruct (AppState.findTodoById (Todo.id todo) s) as [[k t]|] eqn:E; [eauto|].
  exfalso. eapply list_find_None, Forall_forall in E; [|exact Hin]. done.
Qed.

Lemma validateTodoId_ok id : (1 ≤ id)%Z → validateTodoId (Some id) = [].
Proof. intros H. unfold validateTodoId. by rewrite bool_decide_eq_false_2 by lia. Qed.

Lemma lookup_missing id s rt :
  (1 ≤ id)%Z → id ∉ ids s →
  CompleteTodo.lookup (Some id) s rt
  = (Throw ("Todo with ID " +:+ of_Z id +:+ " not found"), s, rt).
Proof.
  intros H1 Hid. unfold CompleteTodo.lookup, Js.bind.
  rewrite validateTodoId_ok by done. simpl. by rewrite find_missing.
Qed.

Lemma lookup_present id s rt k todo :
  (1 ≤ id)%Z → AppState.findTodoById id s = Some (k, todo) →
  CompleteTodo.lookup (Some id) s rt = (Ok k, s, rt).
Proof.
  intros H1 Hfind. unfold CompleteTodo.lookup, Js.bind.
  rewrite validateTodoId_ok by done. simpl. by rewrite Hfind.
Qed.

End Missing.

(** X8. A command on an identifier that no todo carries fails with the
    not-found message and leaves the container as it was: Complete,
    Incomplete, Toggle and Delete always, Edit when the new title is
    valid (the title is validated first).  The identifier is a safe
    integer, so that the message shows all its digits. *)
Theorem missing_id_is_not_found (saveFunction : SaveFunction) (id : Z)
    (s : AppState) (rt : Runtime) :
  (1 ≤ id)%Z → JsString.isSafeInteger id = true → id ∉ ids s →
  (∀ ty, ty ∈ [COMPLETE_TODO; INCOMPLETE_TODO; TOGGLE_TODO; DELETE_TODO] →
     CommandRouter.routeCommand saveFunction (idCommand ty id) s rt
     = (Ok (notFound ty id), s, rt))
  ∧ (∀ title, ¬ rejected title →
       CommandRouter.routeCommand saveFunction (editCommand id title) s rt
       = (Ok (notFound EDIT_TODO id), s, rt)).
Proof.
  intros H1 _ Hid. split.
  - intros ty Hty. rewrite !elem_of_cons, elem_of_nil in Hty.
    destruct Hty as [->|[->|[->|[->|[]]]]];
      unfold CommandRouter.routeCommand, idCommand, Js.catch;
      cbn [Command.type Command.payload Command.id].
    + unfold CommandRouter.handleCompleteTodo,
        CompleteTodo.completeTodoWithPersistence, Js.bind. simpl.
      by rewrite lookup_missing.
    + unfold CommandRouter.handleIncompleteTodo,
        CompleteTodo.incompleteTodoWithPersistence, Js.bind. simpl.
      by rewrite lookup_missing.
    + unfold CommandRouter.handleToggleTodo,
        CompleteTodo.toggleTodoWithPersistence, Js.bind. simpl.
      by rewrite lookup_missing.
    + unfold CommandRouter.handleDeleteTodo,
        DeleteTodo.deleteTodoWithPersistence, DeleteTodo.remove, Js.bind.
      cbn [Command.type Command.payload Command.id].
      rewrite validateTodoId_ok by done. simpl. by rewrite find_missing.
  - intros title Hok.
    unfold CommandRouter.routeCommand, editCommand, Js.catch,
      CommandRouter.handleEditTodo, EditTodo.editTodoWithPersistence,
      EditTodo.retitle, Js.bind.
    cbn [Command.type Command.payload Command.id Command.title].
    rewrite validateTodoId_ok by done.
    apply validateTodoInput_nil in Hok. rewrite Hok. simpl.
    by rewrite find_missing.
Qed.

Lemma missing_id_is_not_found_witness :
  CommandRouter.routeCommand None (idCommand DELETE_TODO 99) sampleState epoch
  = (Ok (notFound DELETE_TODO 99), sampleState, epoch).
Proof.
  apply (missing_id_is_not_found None 99 sampleState epoch).
  - lia.
  - reflexivity.
  - compute_done.
  - compute_done.
Defined.

(** ** What the operations do to a todo that is there *)

Section Found.
Import JsString Validation.


(** Find, call a method that succeeds, store back. *)
Lemma mutation_found {A X} (method : M Todo A) (rest : Todo → M AppState X)
    id s rt k todo a todo' rt' :
  (1 ≤ id)%Z → AppState.findTodoById id s = Some (k, todo) →
  keepsId method → method todo rt = (Ok a, todo', rt') →
  (let* index := CompleteTodo.lookup (Some id) in
   AppState.send index method;;
   let* stored := CompleteTodo.store index in
   rest stored) s rt
  = rest todo' (withTodo k todo' s) rt'.
Proof.
  intros H1 Hfind Hkeep Hm. unfold Js.bind.
  rewrite (lookup_present id s rt k todo) by done.
  destruct (send_then_store method _ _ rt _ _ Hkeep Hfind)
    as (r & t' & rt'' & Hm' & _ & Hsend & Hstore).
  rewrite Hm in Hm'. injection Hm' as <- <- <-.
  by rewrite Hsend, Hstore.
Qed.

Lemma lookup_throws_at (i : option Z) s rt e s' rt' :
  CompleteTodo.lookup i s rt = (Throw e, s', rt') → s' = s ∧ rt' = rt.
Proof.
  unfold CompleteTodo.lookup, Js.bind.
  destruct i as [i|]; simpl; [|by intros [= _ -> ->]].
  case_bool_decide; simpl; [by intros [= _ -> ->]|].
  unfold Js.get. destruct (AppState.findTodoById i s) as [[k t]|];
    by intros [= ? -> ->].
Qed.

Lemma toggle_found id s rt k todo :
  (1 ≤ id)%Z → AppState.findTodoById id s = Some (k, todo) →
  ∃ r, CompleteTodo.toggleTodo (Some id) s rt
       = (Ok r, withTodo k (toggled rt todo) s, later1 rt)
       ∧ Op.t_todo r = toggled rt todo.
Proof.
  intros H1 Hfind. pose proof Hfind as (Hk & _)%list_find_Some.
  unfold CompleteTodo.toggleTodo, Js.bind.
  rewrite (lookup_present id s rt k todo) by done.
  unfold AppState.at_ at 1, Js.bind, Js.get. rewrite Hk. simpl.
  destruct (send_then_store Todo.toggle _ _ rt _ _ keepsId_toggle Hfind)
    as (r & t' & rt'' & Hm' & _ & Hsend & Hstore).
  injection Hm' as <- <- <-. rewrite Hsend, Hstore. by eexists.
Qed.

Lemma find_withTodo id s k todo todo' :
  AppState.findTodoById id s = Some (k, todo) → Todo.id todo' = id →
  AppState.findTodoById id (withTodo k todo' s) = Some (k, todo').
Proof. intros Hfind Hid. by apply (list_find_insert _ _ k todo todo'). Qed.

Lemma withTodo_twice k t1 t2 s :
  withTodo k t2 (withTodo k t1 s) = withTodo k t2 s.
Proof. unfold withTodo. simpl. by rewrite list_insert_insert_eq. Qed.

Lemma essence_withTodo k todo todo' s :
  AppState.todos s !! k = Some todo → essence todo' = essence todo →
  essence <$> AppState.todos (withTodo k todo' s) = essence <$> AppState.todos s.
Proof.
  intros Hk He. simpl. rewrite list_fmap_insert. apply list_insert_id.
  by rewrite list_lookup_fmap, Hk, He.
Qed.

End Found.

(** X9. Toggling a todo twice restores it: after the two calls every todo
    has the identifier, title and completion it had, and [nextId] and the
    view are what they were (only [updatedAt] of the todo has moved). *)
Theorem toggle_twice_restores (id : option Z) (s : AppState) (rt : Runtime) :
  let first := CompleteTodo.toggleTodo id s rt in
  let second := CompleteTodo.toggleTodo id first.1.2 first.2 in
  essence <$> AppState.todos second.1.2 = essence <$> AppState.todos s
  ∧ AppState.nextId second.1.2 = AppState.nextId s
  ∧ AppState.currentView second.1.2 = AppState.currentView s.
Proof.
  cbv zeta.
  destruct (CompleteTodo.lookup id s rt) as [[[k|e] s0] rt0] eqn:El.
  - apply lookup_finds in El as (i & todo & -> & Hi & Hfind & _ & _).
    destruct (toggle_found i s rt k todo Hi Hfind) as (r1 & -> & _). simpl.
    assert (AppState.findTodoById i (withTodo k (toggled rt todo) s)
            = Some (k, toggled rt todo)) as Hfind'.
    { apply (find_withTodo i s k todo); [done|].
      by apply list_find_Some in Hfind as (_ & ? & _). }
    destruct (toggle_found i _ (later1 rt) k _ Hi Hfind') as (r2 & -> & _).
    simpl. rewrite list_insert_insert_eq, list_fmap_insert.
    split; [|done]. apply list_insert_id.
    apply list_find_Some in Hfind as (Hk & _).
    rewrite list_lookup_fmap, Hk. simpl. unfold essence. simpl.
    by rewrite negb_involutive.
  - destruct (lookup_throws_at _ _ _ _ _ _ El) as [-> ->].
    unfold CompleteTodo.toggleTodo, Js.bind. rewrite El. simpl. by rewrite El.
Qed.

Section FoundOps.
Import JsString Validation.

Lemma remove_found id s rt k todo :
  (1 ≤ id)%Z → AppState.findTodoById id s = Some (k, todo) →
  DeleteTodo.remove (Some id) s rt = (Ok todo, without id s, rt).
Proof.
  intros H1 Hfind. unfold DeleteTodo.remove, Js.bind, Js.get, Js.call.
  rewrite validateTodoId_ok by done. simpl. rewrite Hfind.
  unfold AppState.removeTodo. simpl.
  rewrite bool_decide_eq_true_2; [done|].
  apply filter_length_lt_iff. apply list_find_Some in Hfind as (Hk & Hid & _).
  exists todo. split; [|done]. apply list_elem_of_lookup. eauto.
Qed.

Lemma retitle_found id newTitle s rt k todo :
  (1 ≤ id)%Z → ¬ rejected newTitle →
  AppState.findTodoById id s = Some (k, todo) →
  EditTodo.retitle (Some id) (Some newTitle) s rt
  = (Ok (retitled rt newTitle todo, Todo.title todo),
     withTodo k (retitled rt newTitle todo) s, later1 rt).
Proof.
  intros H1 Hok Hfind. unfold EditTodo.retitle, Js.bind.
  rewrite validateTodoId_ok by done.
  pose proof Hok as Hv%validateTodoInput_nil. rewrite Hv. simpl.
  rewrite Hfind.
  destruct (send_then_store (Todo.updateTitle newTitle) _ _ rt _ _
              (keepsId_updateTitle newTitle) Hfind)
    as (r & t' & rt'' & Hm' & _ & Hsend & Hstore).
  assert (Todo.updateTitle newTitle todo rt
          = (Ok tt, retitled rt newTitle todo, later1 rt)) as Hm.
  { unfold Todo.updateTitle. unfold rejected in Hok.
    assert (truthy newTitle = true) as ->.
    { unfold truthy, eqb. case_bool_decide as E; [|done].
      exfalso. apply Hok. left. by rewrite E. }
    assert (eqb (trim newTitle) "" = false) as ->.
    { unfold eqb. case_bool_decide; [tauto|done]. }
    done. }
  rewrite Hm in Hm'. injection Hm' as <- <- <-.
  by rewrite Hsend, Hstore.
Qed.

Lemma retitle_rejected id newTitle s rt :
  rejected newTitle →
  ∃ message, EditTodo.retitle id (Some newTitle) s rt = (Throw message, s, rt).
Proof.
  intros Hbad. unfold EditTodo.retitle, Js.bind.
  destruct (validateTodoId id) eqn:Eid; simpl; [|by eexists].
  rewrite check_cons; [by eexists|].
  by intros ?%validateTodoInput_nil.
Qed.

End FoundOps.

(** X10. Edit changes nothing when the new title is rejected, whether or
    not the todo exists; on a todo that is there, with a valid title, it
    sets the title to the trimmed new title, moves [updatedAt], reports the
    old title, and touches no other field and no other todo. *)
Theorem editTodo_spec (id : Z) (newTitle : string) (s : AppState) (rt : Runtime) :
  (rejected newTitle →
     ∃ message,
       EditTodo.editTodo (Some id) (Some newTitle) s rt = (Throw message, s, rt))
  ∧ ((1 ≤ id)%Z → ¬ rejected newTitle →
     ∀ k todo, AppState.findTodoById id s = Some (k, todo) →
       let todo' := retitled rt newTitle todo in
       EditTodo.editTodo (Some id) (Some newTitle) s rt
       = (Ok (Op.mkEdit todo' (Todo.title todo)
                (EditTodo.editMessage (Todo.title todo) todo') None),
          withTodo k todo' s, later1 rt)).
Proof.
  split.
  - intros Hbad. destruct (retitle_rejected (Some id) newTitle s rt Hbad)
      as [message Hr].
    exists message. unfold EditTodo.editTodo, Js.bind. by rewrite Hr.
  - intros H1 Hok k todo Hfind. cbv zeta.
    unfold EditTodo.editTodo, Js.bind.
    by rewrite (retitle_found id newTitle s rt k todo).
Qed.

Lemma editTodo_spec_witness :
  (∃ message,
     EditTodo.editTodo (Some 2%Z) (Some "   ") sampleState epoch
     = (Throw message, sampleState, epoch))
  ∧ AppState.todos
      (EditTodo.editTodo (Some 2%Z) (Some " Walk the cat ") sampleState epoch).1.2
    = [ Todo.mk 1 "Buy milk" false "2024-01-01T00:00:00.000Z"
          "2024-01-01T00:00:00.000Z";
        Todo.mk 2 "Walk the cat" true "2024-01-02T00:00:00.000Z"
          "1970-01-01T00:00:00.000Z" ].
Proof.
  split.
  - apply (editTodo_spec 2 "   " sampleState epoch). compute_done.
  - destruct (editTodo_spec 2 " Walk the cat " sampleState epoch) as [_ Hok].
    rewrite (Hok ltac:(lia) ltac:(compute_done) 1
               (Todo.mk 2 "Walk the dog" true "2024-01-02T00:00:00.000Z"
                  "2024-01-03T00:00:00.000Z") eq_refl).
    reflexivity.
Defined.

(** X11. Delete on an identifier that is there removes every todo that
    carries it and nothing else, and leaves [nextId] where it was.  The
    result is the successful one, with the first of the todos removed and
    the flag of the save, unless the callback throws [null] or
    [undefined]: then the result is a failure that carries the TypeError
    of the [catch] block, and the todos are removed all the same. *)
Theorem delete_removes (saveFunction : SaveFunction) (id : Z) (s : AppState)
    (rt : Runtime) :
  (1 ≤ id)%Z → id ∈ ids s →
  ∃ k todo,
    AppState.findTodoById id s = Some (k, todo)
    ∧ CommandRouter.routeCommand saveFunction (idCommand DELETE_TODO id) s rt
      = (Ok match Op.outcome saveFunction (without id s) with
            | Ok saved =>
                CommandRouter.done DELETE_TODO
                  (CommandRouter.Changed
                     (Op.mkTodo todo (DeleteTodo.deleteMessage todo) (Some saved)))
            | Throw message =>
                CommandRouter.mkResult false "DELETE_TODO" (Some message) None
            end,
         without id s, rt)
    ∧ (id ∉ ids (without id s))
    ∧ AppState.nextId (without id s) = AppState.nextId s.
Proof.
  intros H1 Hin. destruct (find_present id s Hin) as (k & todo & Hfind).
  exists k, todo. split_and!; try done.
  - unfold CommandRouter.routeCommand, CommandRouter.handleDeleteTodo,
      DeleteTodo.deleteTodoWithPersistence, idCommand, Js.catch, Js.bind.
    cbn [Command.type Command.payload Command.id].
    rewrite (remove_found id s rt k todo), attemptSave_spec by done.
    by destruct (Op.outcome saveFunction (without id s)).
  - unfold ids, without. simpl.
    intros (t & Ht & Hf)%list_elem_of_fmap.
    by apply list_elem_of_filter in Hf as [Hne _].
Qed.

Lemma delete_removes_witness :
  CommandRouter.routeCommand (Some throwsNull) (idCommand DELETE_TODO 1) twins epoch
  = (Ok (CommandRouter.mkResult false "DELETE_TODO"
           (Some "Cannot read properties of null (reading 'message')") None),
     AppState.mk [] 2 "all", epoch)
  ∧ 1%Z ∉ ids (without 1 twins).
Proof.
  destruct (delete_removes (Some throwsNull) 1 twins epoch)
    as (k & todo & _ & Hr & Hn & _).
  - lia.
  - compute_done.
  - split; [by rewrite Hr|exact Hn].
Defined.

Section Clearing.
Import JsString Validation.





End Clearing.



(** ** The parser never throws *)

Section Groups.
Import JsString Regex Parser.
Context {R : Type} (P : R → Prop).

Lemma alt_inv ws s (k : string → string → option R) :
  (∀ m r x, k m r = Some x → P x) → ∀ x, alt ws s k = Some x → P x.
Proof.
  intros Hk. induction ws as [|w ws IH]; intros x; simpl; [done|].
  destruct (lit w s) as [[m r]|]; simpl; [|apply IH].
  destruct (k m r) eqn:Ek; [|apply IH].
  intros [= <-]. eauto.
Qed.

Lemma plus_inv c s (k : string → string → option R) :
  (∀ m r x, k m r = Some x → P x) → ∀ x, plus c s k = Some x → P x.
Proof.
  intros Hk x. unfold plus. destruct s as [|a s]; [done|].
  destruct (c a); [|done].
  intros (m & r' & _ & Hx)%star_split. eauto.
Qed.

Lemma opt_inv e s (k : option string → string → option R) :
  (∀ k', (∀ m r x, k' m r = Some x → P x) → ∀ s x, e s k' = Some x → P x) →
  (∀ g r x, k g r = Some x → P x) → ∀ x, opt e s k = Some x → P x.
Proof.
  intros He Hk x. unfold opt.
  destruct (e s (λ m r, k (Some m) r)) as [y|] eqn:E; [|by apply Hk].
  intros [= <-]. eapply He; [|exact E]. intros m r' z. apply Hk.
Qed.

Lemma eos_inv s (x : R) : P x → ∀ y, eos s x = Some y → P y.
Proof. intros Hx y. destruct s; [by intros [= <-]|done]. Qed.

End Groups.

Section Total.
Import JsString Regex Parser.

(** Every capture group that [createCommandFromMatch] reads took part in
    the match of the pattern it belongs to. *)
Lemma pattern_builds commandName pattern trimmedInput m :
  (commandName, pattern) ∈ COMMAND_PATTERNS →
  pattern trimmedInput = Some m →
  ∃ command, createCommandFromMatch commandName m = Ok command.
Proof.
  unfold COMMAND_PATTERNS. intros Hin. revert m.
  repeat (apply elem_of_cons in Hin as [[= -> ->]|Hin]);
    [..|by apply elem_of_nil in Hin];
    unfold Pattern.ADD, Pattern.COMPLETE, Pattern.INCOMPLETE, Pattern.TOGGLE,
      Pattern.DELETE, Pattern.EDIT, Pattern.LIST, Pattern.CLEAR_COMPLETED,
      Pattern.FILTER, Pattern.HELP, Pattern.EXIT, Pattern.SEARCH, Pattern.STATS,
      Pattern.SORT, Pattern.kw_text, Pattern.kw_id, Pattern.kw_only;
    repeat first
      [ apply eos_inv; by eexists
      | apply alt_inv; intros ? ?
      | apply plus_inv; intros ? ?
      | apply opt_inv;
        [ intros k' Hk' ?; cbv beta;
          apply plus_inv; intros ? ?; apply alt_inv; exact Hk'
        | intros ? ? ] ].
Qed.

Lemma firstMatch_elem ps trimmedInput commandName m :
  firstMatch ps trimmedInput = Some (commandName, m) →
  ∃ pattern, (commandName, pattern) ∈ ps ∧ pattern trimmedInput = Some m.
Proof.
  induction ps as [|[n p] ps IH]; simpl; [done|].
  destruct (p trimmedInput) as [m'|] eqn:E.
  - intros [= <- <-]. exists p. split; [apply elem_of_cons; by left|done].
  - intros (p' & Hin & Hm)%IH. exists p'. split; [apply elem_of_cons; by right|done].
Qed.

Lemma parseCommand_ok (input : string) : ∃ command, parseCommand input = Ok command.
Proof.
  unfold parseCommand.
  destruct (JsString.eqb _ _); [by eexists|].
  destruct (alias _); [by eexists|].
  destruct (firstMatch _ _) as [[commandName m]|] eqn:E; [|by eexists].
  apply firstMatch_elem in E as (pattern & Hin & Hm).
  by eapply pattern_builds.
Qed.

Lemma parseEach_ok (cmds : list string) :
  ∃ commands, Batch.parseEach cmds = Ok commands
              ∧ Forall2 (λ cmd command, parseCommand cmd = Ok command) cmds commands.
Proof.
  induction cmds as [|cmd cmds (commands & IH & Hall)]; [by exists []|].
  destruct (parseCommand_ok cmd) as [command Hc].
  exists (command :: commands). simpl. rewrite Hc, IH. split; [done|].
  by constructor.
Qed.

End Total.

(** X13. [parseCommand] returns a command for every input string: none of
    the string methods it calls on a capture group meets a group that is
    undefined.  So [parseMultipleCommands] returns one command for each
    non-blank piece of its input, in order. *)
Theorem parseCommand_never_throws (input : string) :
  (∃ command, Parser.parseCommand input = Ok command)
  ∧ ∃ commands,
      Batch.parseMultipleCommands input = Ok commands
      ∧ Forall2 (λ cmd command, Parser.parseCommand cmd = Ok command)
                (Batch.commandStrings input) commands.
Proof. split; [apply parseCommand_ok|apply parseEach_ok]. Qed.

(** ** Blanks around a command *)

Section Padding.
Import JsString.

Lemma trimStart_blank b : trim b = "" → trimStart b = "".
Proof.
  unfold trim. destruct (trimStart_head b) as [->|(c & r & -> & Hc)]; [done|].
  simpl. destruct (trimEnd r); by rewrite ?Hc.
Qed.

Lemma trimEnd_blank a : trimStart a = "" → trimEnd a = "".
Proof.
  induction a as [|c a IH]; simpl; [done|].
  destruct (is_space c); [|done]. by intros ->%IH.
Qed.

Lemma trimStart_app_blank b s : trimStart b = "" → trimStart (b +:+ s) = trimStart s.
Proof.
  induction b as [|c b IH]; simpl; [done|]. destruct (is_space c); [done|done].
Qed.

Lemma trimStart_app s a : trimStart s ≠ "" → trimStart (s +:+ a) = trimStart s +:+ a.
Proof.
  induction s as [|c s IH]; simpl; [done|]. destruct (is_space c); [done|done].
Qed.

Lemma trimEnd_app_blank s a : trimEnd a = "" → trimEnd (s +:+ a) = trimEnd s.
Proof. intros Ha. induction s as [|c s IH]; simpl; [done|]. by rewrite IH. Qed.

Lemma trim_padding before input after :
  trim before = "" → trim after = "" → trim input ≠ "" →
  trim (before +:+ input +:+ after) = trim input.
Proof.
  intros Hb%trimStart_blank Ha%trimStart_blank%trimEnd_blank Hi. unfold trim.
  rewrite trimStart_app_blank, trimStart_app, trimEnd_app_blank; try done.
  intros E. apply Hi. unfold trim. by rewrite E.
Qed.

End Padding.

(** X14. Blanks before and after a command do not matter: an input that
    is not blank parses to the same command with any blanks around it. *)
Theorem parseCommand_ignores_padding (before input after : string) :
  JsString.trim before = "" → JsString.trim after = "" →
  JsString.trim input ≠ "" →
  Parser.parseCommand (before +:+ input +:+ after) = Parser.parseCommand input.
Proof.
  intros Hb Ha Hi. unfold Parser.parseCommand.
  rewrite (trim_padding before input after) by done.
  unfold JsString.eqb. by rewrite bool_decide_eq_false_2.
Qed.

Lemma parseCommand_ignores_padding_witness :
  Parser.parseCommand ("  " +:+ "add Buy milk" +:+ " ")
  = Parser.parseCommand "add Buy milk"
  ∧ Parser.parseCommand "add Buy milk" = Ok (addCommand "Buy milk").
Proof.
  split; [|by vm_compute].
  apply (parseCommand_ignores_padding "  " "add Buy milk" " "); by vm_compute.
Defined.

(** ** Batches of commands *)

Section BatchFacts.
Variable saveFunction : SaveFunction.

(** One turn of the loop: it always leaves a result, and the loop stops
    after it exactly when the command is an Exit command, which changes
    nothing. *)
Lemma batch_step command s rt :
  ∃ r s1 rt1,
    Js.catch
      (let* r := CommandRouter.routeCommand saveFunction command in
       Js.ret (r, bool_decide (Command.type command = Some EXIT)))
      (λ message,
         Js.ret (CommandRouter.mkResult false "PROCESSING_ERROR" None
                   (Some (CommandRouter.Failed message
                            "Error processing command")), false)) s rt
    = (Ok (r, bool_decide (Command.type command = Some EXIT)), s1, rt1)
    ∧ (Command.type command = Some EXIT →
       r = CommandRouter.done EXIT (CommandRouter.Exiting "Exiting application...")
       ∧ s1 = s ∧ rt1 = rt).
Proof.
  unfold Js.catch, Js.bind.
  destruct (Command.type command) as [ty|] eqn:Hty.
  - destruct (CommandRouter.routeCommand saveFunction command s rt)
      as [[[r|e] s1] rt1] eqn:Hroute.
    + exists r, s1, rt1. split; [done|]. intros [= ->].
      unfold CommandRouter.routeCommand in Hroute. rewrite Hty in Hroute.
      by injection Hroute as <- <- <-.
    + unfold CommandRouter.routeCommand, Js.catch in Hroute. rewrite Hty in Hroute.
      by repeat case_match.
  - unfold CommandRouter.routeCommand. rewrite Hty. simpl.
    eexists _, _, _. split; [reflexivity|done].
Qed.

Lemma processEach_cons command s rt :
  ∃ r s1 rt1,
    (∀ commands,
       Batch.processEach saveFunction (command :: commands) s rt
       = (if bool_decide (Command.type command = Some EXIT)
          then (Ok [r], s1, rt1)
          else match Batch.processEach saveFunction commands s1 rt1 with
               | (Ok results, s', rt') => (Ok (r :: results), s', rt')
               | (Throw e, s', rt') => (Throw e, s', rt')
               end))
    ∧ (Command.type command = Some EXIT →
       r = CommandRouter.done EXIT (CommandRouter.Exiting "Exiting application...")
       ∧ s1 = s ∧ rt1 = rt).
Proof.
  destruct (batch_step command s rt) as (r & s1 & rt1 & Hstep & Hr).
  exists r, s1, rt1. split; [|done]. intros commands.
  simpl. unfold Js.bind at 1. rewrite Hstep. simpl.
  destruct (bool_decide _); [done|]. unfold Js.bind.
  by destruct (Batch.processEach saveFunction commands s1 rt1) as [[[?|?] ?] ?].
Qed.

End BatchFacts.

(** X15. In a batch, nothing after the first Exit command is run: the
    commands before it leave one result each, the Exit command adds its
    own, and the state is as the commands before it left it. *)
Theorem batch_stops_at_exit (saveFunction : SaveFunction)
    (before after : list Command) (exit : Command) (s : AppState) (rt : Runtime) :
  Command.type exit = Some EXIT →
  Forall (λ command, Command.type command ≠ Some EXIT) before →
  ∃ results s' rt',
    Batch.processEach saveFunction before s rt = (Ok results, s', rt')
    ∧ length results = length before
    ∧ Batch.processEach saveFunction (before ++ exit :: after) s rt
      = (Ok (results ++
             [CommandRouter.done EXIT
                (CommandRouter.Exiting "Exiting application...")]), s', rt').
Proof.
  intros Hexit Hbefore. revert s rt.
  induction Hbefore as [|command before Hc _ IH]; intros s rt.
  - exists [], s, rt. split_and!; [done..|]. simpl app.
    destruct (processEach_cons saveFunction exit s rt)
      as (r & s1 & rt1 & -> & Hr).
    destruct (Hr Hexit) as (-> & -> & ->). by rewrite bool_decide_eq_true_2.
  - rewrite <- app_comm_cons.
    destruct (processEach_cons saveFunction command s rt)
      as (r & s1 & rt1 & Hcons & _).
    rewrite !Hcons, !bool_decide_eq_false_2 by done.
    destruct (IH s1 rt1) as (results & s' & rt' & Hrun & Hlen & Hall).
    rewrite Hrun, Hall.
    exists (r :: results), s', rt'. split_and!; [done|simpl; by rewrite Hlen|done].
Qed.

Lemma batch_stops_at_exit_witness :
  ∃ results s',
    Batch.processMultipleCommands None "add Buy milk; exit; add Walk the dog"
      resetAppState epoch
    = (Ok results, s', later2 epoch)
    ∧ length results = 2
    ∧ Todo.title <$> AppState.todos s' = ["Buy milk"].
Proof.
  destruct (batch_stops_at_exit None [addCommand "Buy milk"]
              [addCommand "Walk the dog"]
              (Command.mk (Some EXIT) Command.noPayload Command.noMeta)
              resetAppState epoch)
    as (results & s' & rt' & Hrun & Hlen & Hall); [done|by repeat constructor|].
  exists (results ++ [CommandRouter.done EXIT
                        (CommandRouter.Exiting "Exiting application...")]), s'.
  assert (Batch.parseMultipleCommands "add Buy milk; exit; add Walk the dog"
          = Ok ([addCommand "Buy milk"]
                ++ Command.mk (Some EXIT) Command.noPayload Command.noMeta
                :: [addCommand "Walk the dog"])) as Hparse by (by vm_compute).
  unfold Batch.processMultipleCommands. rewrite Hparse, Hall.
  assert (Batch.processEach None [addCommand "Buy milk"] resetAppState epoch
          = (Ok [CommandRouter.done ADD_TODO
                   (CommandRouter.Added
                      (Op.mkAdd (Todo.mk 1 "Buy milk" false (clock epoch 0)
                                   (clock epoch 1)) 2 1 (Some false)))],
             AppState.mk [Todo.mk 1 "Buy milk" false (clock epoch 0) (clock epoch 1)]
               2 "all", later2 epoch)) as Hone by (by vm_compute).
  rewrite Hone in Hrun. injection Hrun as <- <- <-.
  split_and!; done.
Defined.

(** ** Splitting a line into commands *)

Section Splitting.
Import JsString.

Lemma split_nonempty input : ∃ piece pieces, Batch.split input = piece :: pieces.
Proof.
  induction input as [|c input (piece & pieces & IH)]; simpl; [by eexists _, _|].
  destruct (Batch.is_separator c); [by eexists _, _|]. rewrite IH. by eexists _, _.
Qed.

Lemma split_app first rest c :
  Batch.is_separator c = true →
  Batch.split (first +:+ String c rest) = Batch.split first ++ Batch.split rest.
Proof.
  intros Hc. induction first as [|a first IH]; simpl; [by rewrite Hc|].
  rewrite IH. destruct (Batch.is_separator a); [done|].
  by destruct (split_nonempty first) as (piece & pieces & ->).
Qed.

Lemma parseEach_app cmds1 cmds2 commands1 commands2 :
  Batch.parseEach cmds1 = Ok commands1 → Batch.parseEach cmds2 = Ok commands2 →
  Batch.parseEach (cmds1 ++ cmds2) = Ok (commands1 ++ commands2).
Proof.
  revert commands1. induction cmds1 as [|cmd cmds1 IH]; intros commands1; simpl.
  - by intros [= <-].
  - destruct (Parser.parseCommand cmd); [|done].
    destruct (Batch.parseEach cmds1) eqn:E; [|done].
    intros [= <-] H2. by rewrite (IH _ eq_refl H2).
Qed.

End Splitting.

(** X16. A semicolon or a line feed separates two batches: the commands
    of the whole line are the commands of what is before the separator
    followed by the commands of what is after it; and no piece that is
    handed to the parser is empty or has blanks around it. *)
Theorem batch_of_two_parts (first rest : string) (c : ascii) :
  Batch.is_separator c = true →
  Batch.commandStrings (first +:+ String c rest)
  = Batch.commandStrings first ++ Batch.commandStrings rest
  ∧ (∃ commands1 commands2,
       Batch.parseMultipleCommands first = Ok commands1
       ∧ Batch.parseMultipleCommands rest = Ok commands2
       ∧ Batch.parseMultipleCommands (first +:+ String c rest)
         = Ok (commands1 ++ commands2))
  ∧ ∀ cmd, cmd ∈ Batch.commandStrings (first +:+ String c rest) →
           cmd ≠ "" ∧ JsString.trim cmd = cmd.
Proof.
  intros Hc.
  assert (Batch.commandStrings (first +:+ String c rest)
          = Batch.commandStrings first ++ Batch.commandStrings rest) as Happ.
  { unfold Batch.commandStrings. by rewrite split_app, fmap_app, filter_app. }
  split_and!; [done| |].
  - unfold Batch.parseMultipleCommands. rewrite Happ.
    destruct (parseEach_ok (Batch.commandStrings first)) as (commands1 & H1 & _).
    destruct (parseEach_ok (Batch.commandStrings rest)) as (commands2 & H2 & _).
    exists commands1, commands2. split_and!; [done..|]. by apply parseEach_app.
  - intros cmd. unfold Batch.commandStrings.
    intros [Hcmd (piece & -> & _)%list_elem_of_fmap]%list_elem_of_filter.
    split; [|apply trim_idem].
    unfold JsString.truthy, JsString.eqb in Hcmd. by case_bool_decide.
Qed.

Lemma batch_of_two_parts_witness :
  Batch.commandStrings ("add a ;; " +:+ String ";" " list ")
  = Batch.commandStrings "add a ;; " ++ Batch.commandStrings " list "
  ∧ Batch.commandStrings ("add a ;; " +:+ String ";" " list ") = ["add a"; "list"].
Proof.
  split; [|by vm_compute].
  by apply (batch_of_two_parts "add a ;; " " list " ";").
Defined.

(** ** Raw input *)

Section RawInput.
Import JsString.

Lemma removeHarmful_clean s :
  Forall (λ c, Input.is_harmful c = false)
         (String.list_ascii_of_string (Input.removeHarmful s)).
Proof.
  induction s as [|c s IH]; simpl; [constructor|].
  destruct (Input.is_harmful c) eqn:Hc; [done|]. simpl. by constructor.
Qed.

Lemma removeHarmful_length s :
  String.length (Input.removeHarmful s) ≤ String.length s.
Proof.
  induction s as [|c s IH]; simpl; [done|].
  destruct (Input.is_harmful c); simpl; lia.
Qed.

Lemma sanitizeInput_length input :
  String.length (Input.sanitizeInput input) ≤ String.length input.
Proof.
  unfold Input.sanitizeInput.
  etrans; [apply removeHarmful_length|apply trim_length].
Qed.

End RawInput.

(** X17. What [sanitizeInput] returns holds none of the characters of its
    class and is no longer than the input.  So for a raw input of at most
    1000 characters the length check of [validateInput] never fires:
    either nothing but blanks is left and the input is refused with the
    state untouched, or the sanitized text is processed as a command. *)
Theorem raw_input_is_sanitized (saveFunction : SaveFunction) (rawInput : string)
    (s : AppState) (rt : Runtime) :
  String.length rawInput ≤ 1000 →
  let sanitizedInput := Input.sanitizeInput rawInput in
  Forall (λ c, Input.is_harmful c = false) (String.list_ascii_of_string sanitizedInput)
  ∧ String.length sanitizedInput ≤ String.length rawInput
  ∧ Input.processRawInput saveFunction rawInput s rt
    = if decide (JsString.trim sanitizedInput = "")
      then (Ok (CommandRouter.mkResult false "INPUT_VALIDATION_ERROR" None
                  (Some (CommandRouter.Invalid ["Input cannot be empty"]
                           "Invalid input"))), s, rt)
      else CommandRouter.processCommand saveFunction sanitizedInput s rt.
Proof.
  intros Hlen. simpl. split_and!.
  - apply removeHarmful_clean.
  - apply sanitizeInput_length.
  - unfold Input.processRawInput, Input.validateInput, JsString.eqb.
    pose proof (sanitizeInput_length rawInput).
    destruct (decide _) as [E|E].
    + by rewrite bool_decide_eq_true_2.
    + rewrite bool_decide_eq_false_2 by done.
      by rewrite bool_decide_eq_false_2 by lia.
Qed.

Lemma raw_input_is_sanitized_witness :
  Input.sanitizeInput "  add Buy $(milk); " = "add Buy milk"
  ∧ Todo.title <$>
      AppState.todos
        (Input.processRawInput None "  add Buy $(milk); " resetAppState epoch).1.2
    = ["Buy milk"].
Proof.
  split; [by vm_compute|].
  destruct (raw_input_is_sanitized None "  add Buy $(milk); " resetAppState epoch)
    as (_ & _ & ->); [simpl; lia|].
  by vm_compute.
Defined.

(** ** Clearing without persistence *)

(** [clearCompletedTodos] calls a function that its module does not
    import: with a completed todo in the container it throws, and the
    preview shows what it was to clear. *)
Example clearCompletedTodos_throws :
  (ClearSync.clearCompletedTodos mixedState epoch).1.1
  = Throw "deleteMultipleTodos is not defined"
  ∧ ClearSync.previewClearCompletedTodos mixedState
    = [ Todo.mk 3 "write" true "t0" "t1"; Todo.mk 2 "review" true "t3" "t4" ].
Proof. by vm_compute. Qed.

(** ** Adding several todos *)

Section BulkAdd.
Import JsString Validation.

Lemma addTodo_accepts title trimmed s rt :
  accepts title = Some trimmed →
  ∃ r, AddTodo.addTodo title s rt
       = (Ok r, AppState.mk (AppState.todos s ++ [Op.a_todo r])
                  (AppState.nextId s + 1) (AppState.currentView s), later2 rt)
       ∧ Todo.id (Op.a_todo r) = AppState.nextId s
       ∧ Todo.title (Op.a_todo r) = trimmed.
Proof.
  destruct title as [title|]; [|done]. simpl.
  destruct (decide (rejected title)) as [|Hok]; [done|]. intros [= <-].
  unfold AddTodo.addTodo, Js.bind. rewrite create_accepts by done.
  assert (AppState.addTodo (added title s rt) s
          = AppState.mk (AppState.todos s ++ [added title s rt])
              (AppState.nextId s + 1) (AppState.currentView s)) as ->.
  { unfold AppState.addTodo, added. simpl.
    by rewrite (proj2 (Z.leb_le _ _)) by lia. }
  simpl.
  by exists (Op.mkAdd (added title s rt) (AppState.nextId s + 1)
               (length (AppState.todos s ++ [added title s rt])) None).
Qed.

Lemma addTodo_refuses title s rt :
  accepts title = None → ∃ e, AddTodo.addTodo title s rt = (Throw e, s, rt).
Proof.
  destruct title as [title|]; simpl.
  - destruct (decide (rejected title)) as [Hno|]; [|done]. intros _.
    unfold AddTodo.addTodo, Js.bind. rewrite create_rejects by done. by eexists.
  - intros _. by eexists.
Qed.

Lemma addEach_cons title titles s rt :
  Bulk.addEach (title :: titles) s rt
  = match AddTodo.addTodo title s rt with
    | (Ok r, s1, rt1) =>
        match Bulk.addEach titles s1 rt1 with
        | (Ok (results, errors), s', rt') => (Ok (r :: results, errors), s', rt')
        | (Throw e, s', rt') => (Throw e, s', rt')
        end
    | (Throw e, s1, rt1) =>
        match Bulk.addEach titles s1 rt1 with
        | (Ok (results, errors), s', rt') =>
            (Ok (results, (title, e) :: errors), s', rt')
        | (Throw e', s', rt') => (Throw e', s', rt')
        end
    end.
Proof.
  simpl. unfold Js.bind, Js.catch, Js.ret.
  destruct (AddTodo.addTodo title s rt) as [[[r|e] s1] rt1];
    by destruct (Bulk.addEach titles s1 rt1) as [[[[? ?]|?] ?] ?].
Qed.

Lemma addEach_spec titles s rt :
  ∃ results errors s',
    Bulk.addEach titles s rt = (Ok (results, errors), s', (addSequence titles s rt).2)
    ∧ s' = (addSequence titles s rt).1
    ∧ length results + length errors = length titles
    ∧ Todo.title <$> (Op.a_todo <$> results) = acceptedTitles titles
    ∧ fst <$> errors = refusedTitles titles
    ∧ AppState.todos s' = AppState.todos s ++ (Op.a_todo <$> results)
    ∧ Todo.id <$> (Op.a_todo <$> results)
      = seqZ (AppState.nextId s) (Z.of_nat (length results))
    ∧ AppState.nextId s' = (AppState.nextId s + Z.of_nat (length results))%Z
    ∧ AppState.currentView s' = AppState.currentView s.
Proof.
  revert s rt. induction titles as [|title titles IH]; intros s rt.
  - exists [], [], s. simpl. rewrite app_nil_r. split_and!; try done. lia.
  - rewrite addEach_cons. simpl addSequence.
    unfold acceptedTitles, refusedTitles. simpl omap. rewrite filter_cons.
    destruct (accepts title) as [trimmed|] eqn:Ha.
    + destruct (addTodo_accepts title trimmed s rt Ha) as (r & -> & Hid & Htitle).
      match goal with |- context [Bulk.addEach titles ?s1 ?rt1] =>
        destruct (IH s1 rt1)
          as (results & errors & s' & Hrun & -> & Hlen & Ht & He & Htodos & Hids
              & Hnext & Hview) end.
      rewrite Hrun.
      eexists (r :: results), errors, _. split; [reflexivity|].
      rewrite decide_False by done. rewrite !fmap_cons. cbn [length].
      split_and!; try done.
      * lia.
      * rewrite Htitle. f_equal. exact Ht.
      * rewrite Htodos. simpl. by rewrite <- app_assoc.
      * rewrite seqZ_cons by lia. rewrite Hid, Hids. simpl. do 2 f_equal; lia.
      * rewrite Hnext. simpl. lia.
    + destruct (addTodo_refuses title s rt Ha) as (e & ->).
      destruct (IH s rt)
        as (results & errors & s' & Hrun & -> & Hlen & Ht & He & Htodos & Hids
            & Hnext & Hview).
      rewrite Hrun.
      eexists results, ((title, e) :: errors), _. split; [reflexivity|].
      rewrite decide_True by done. rewrite fmap_cons. cbn [length].
      split_and!; try done.
      * lia.
      * simpl. f_equal. exact He.
Qed.

End BulkAdd.

(** X19. [addMultipleTodos] tries every title, in order, whether or not
    the ones before were refused: the accepted titles become todos,
    appended in order with consecutive identifiers from [nextId] on, the
    refused ones are reported, and the two totals add up to the number of
    titles. *)
Theorem addMultipleTodos_spec (titles : list (option string)) (s : AppState)
    (rt : Runtime) :
  ∃ r s' rt',
    Bulk.addMultipleTodos titles s rt = (Ok r, s', rt')
    ∧ (s', rt') = addSequence titles s rt
    ∧ Bulk.totalAdded r + Bulk.added_totalErrors r = length titles
    ∧ Todo.title <$> (Op.a_todo <$> Bulk.added_results r) = acceptedTitles titles
    ∧ fst <$> Bulk.added_errors r = refusedTitles titles
    ∧ AppState.todos s' = AppState.todos s ++ (Op.a_todo <$> Bulk.added_results r)
    ∧ Todo.id <$> (Op.a_todo <$> Bulk.added_results r)
      = seqZ (AppState.nextId s) (Z.of_nat (Bulk.totalAdded r))
    ∧ AppState.nextId s' = (AppState.nextId s + Z.of_nat (Bulk.totalAdded r))%Z
    ∧ AppState.currentView s' = AppState.currentView s.
Proof.
  destruct (addEach_spec titles s rt)
    as (results & errors & s' & Hrun & Hs & H).
  unfold Bulk.addMultipleTodos, Js.bind. rewrite Hrun. simpl.
  eexists _, _, _. split; [reflexivity|]. simpl. split; [|done].
  rewrite Hs. by destruct (addSequence titles s rt).
Qed.

Example addMultipleTodos_skips_bad_titles :
  ∃ r s' rt',
    Bulk.addMultipleTodos [Some " Buy milk"; Some "  "; None; Some "Walk the dog"]
      oneTodo epoch = (Ok r, s', rt')
    ∧ ids s' = [1; 2; 3]%Z
    ∧ Bulk.totalAdded r = 2 ∧ Bulk.added_totalErrors r = 2
    ∧ snd <$> Bulk.added_errors r
      = ["Todo title cannot be empty"; "Todo title is required"].
Proof. eexists _, _, _. by vm_compute. Qed.

(** ** Snapshots on disk *)

Section Compatibility.
Import Persist.

Lemma ensureDataCompatibility_shape data :
  ∃ todos nextId currentView,
    ensureDataCompatibility data
    = mkData (Good todos) (Good nextId) (Good currentView)
             (orDefault (d_version data) (Good "1.0.0"))
    ∧ (1 ≤ nextId)%Z ∧ currentView ∈ AppState.views.
Proof.
  unfold ensureDataCompatibility, withDefaults, DEFAULT_DATA.
  destruct data as [todos nextId currentView version]. simpl.
  eexists _, _, _. split; [reflexivity|]. split.
  - destruct nextId as [| |n]; simpl; try done. case_bool_decide; lia.
  - destruct currentView as [| |v]; simpl; try by compute_done.
    case_bool_decide; [done|by compute_done].
Qed.

Lemma loadTodosFromFile_shape file :
  ∃ todos nextId currentView version,
    loadTodosFromFile file
    = mkData (Good todos) (Good nextId) (Good currentView) version
    ∧ (1 ≤ nextId)%Z ∧ currentView ∈ AppState.views.
Proof.
  destruct file as [| | |data]; simpl.
  1-3: by (eexists [], 1%Z, "all", _; split; [reflexivity|];
           split; [done|compute_done]).
  destruct (ensureDataCompatibility_shape data) as (t & n & v & -> & ? & ?).
  by eexists _, _, _, _.
Qed.

End Compatibility.

(** X20. [ensureDataCompatibility] always returns a structure that
    [validateDataStructure] accepts, with an array of todos, a [nextId]
    of at least 1 and one of the three views; on a structure it returned
    it changes nothing; and what [loadTodosFromFile] returns is such a
    structure whatever the file holds. *)
Theorem ensureDataCompatibility_repairs (data : Persist.Data) (file : Persist.File) :
  let repaired := Persist.ensureDataCompatibility data in
  Persist.validateDataStructure repaired = true
  ∧ (∃ todos nextId currentView,
       Persist.d_todos repaired = Persist.Good todos
       ∧ Persist.d_nextId repaired = Persist.Good nextId ∧ (1 ≤ nextId)%Z
       ∧ Persist.d_currentView repaired = Persist.Good currentView
       ∧ currentView ∈ AppState.views)
  ∧ Persist.ensureDataCompatibility repaired = repaired
  ∧ Persist.ensureDataCompatibility (Persist.loadTodosFromFile file)
    = Persist.loadTodosFromFile file.
Proof.
  assert (∀ todos nextId currentView version,
            (1 ≤ nextId)%Z → currentView ∈ AppState.views →
            Persist.ensureDataCompatibility
              (Persist.mkData (Persist.Good todos) (Persist.Good nextId)
                 (Persist.Good currentView) version)
            = Persist.mkData (Persist.Good todos) (Persist.Good nextId)
                (Persist.Good currentView)
                (Persist.orDefault version (Persist.Good "1.0.0"))) as Hfix.
  { intros todos nextId currentView version Hn Hv.
    unfold Persist.ensureDataCompatibility, Persist.withDefaults. simpl.
    rewrite bool_decide_eq_false_2 by lia. by rewrite bool_decide_eq_true_2. }
  cbv zeta.
  destruct (ensureDataCompatibility_shape data) as (t & n & v & -> & Hn & Hv).
  split_and!.
  - done.
  - by eexists _, _, _.
  - rewrite Hfix by done. f_equal. by destruct (Persist.d_version data).
  - destruct file as [| | |data']; simpl.
    1-3: by vm_compute.
    destruct (ensureDataCompatibility_shape data') as (t' & n' & v' & -> & ? & ?).
    rewrite Hfix by done. f_equal. by destruct (Persist.d_version data').
Qed.

Section Loading.
Import JsString Persist.
Context {S : Type}.

Lemma new_total id title completed createdAt updatedAt (x : S) rt :
  ∃ rt' c u,
    Todo.new id title completed createdAt updatedAt x rt
    = (Ok (Todo.mk id (trim title) (default false completed) c u), x, rt').
Proof.
  unfold Todo.new, Todo.orNow, Js.bind, Js.ret, Js.now.
  destruct createdAt as [c|], updatedAt as [u|]; simpl;
    repeat (match goal with |- context [truthy ?v] => destruct (truthy v) end;
            simpl);
    by eexists _, _, _.
Qed.

Lemma dateNow_total (x : S) rt : ∃ n rt', dateNow x rt = (Ok n, x, rt').
Proof. unfold dateNow, Js.bind, Js.now, Js.runtime, Js.ret. by eexists _, _. Qed.

Lemma toInstance_total obj (x : S) rt :
  ∃ todo rt', toInstance obj x rt = (Ok todo, x, rt').
Proof.
  unfold toInstance, Js.catch, Todo.fromObject.
  destruct (Todo.o_id obj) as [id|], (Todo.o_title obj) as [title|]; simpl.
  - destruct (new_total id title (Todo.o_completed obj) (Todo.o_createdAt obj)
                (Todo.o_updatedAt obj) x rt) as (rt' & c & u & ->).
    by eexists _, _.
  - unfold Js.bind. case_bool_decide.
    + destruct (dateNow_total x rt) as (n & rt1 & ->).
      destruct (new_total n "Recovery todo"
                  (Some (default false (Todo.o_completed obj)))
                  (Todo.o_createdAt obj) (Todo.o_updatedAt obj) x rt1)
        as (rt' & c & u & ->).
      by eexists _, _.
    + simpl.
      destruct (new_total id "Recovery todo"
                  (Some (default false (Todo.o_completed obj)))
                  (Todo.o_createdAt obj) (Todo.o_updatedAt obj) x rt)
        as (rt' & c & u & ->).
      by eexists _, _.
  - unfold Js.bind. destruct (dateNow_total x rt) as (n & rt1 & ->).
    match goal with |- context [Todo.new n ?t] =>
      destruct (new_total n t (Some (default false (Todo.o_completed obj)))
                  (Todo.o_createdAt obj) (Todo.o_updatedAt obj) x rt1)
        as (rt' & c & u & ->) end.
    by eexists _, _.
  - unfold Js.bind. destruct (dateNow_total x rt) as (n & rt1 & ->).
    destruct (new_total n "Recovery todo"
                (Some (default false (Todo.o_completed obj)))
                (Todo.o_createdAt obj) (Todo.o_updatedAt obj) x rt1)
      as (rt' & c & u & ->).
    by eexists _, _.
Qed.

Lemma toInstances_total objs (x : S) rt :
  ∃ todos rt', toInstances objs x rt = (Ok todos, x, rt')
               ∧ length todos = length objs.
Proof.
  revert rt. induction objs as [|obj objs IH]; intros rt; [by exists [], rt|].
  simpl. unfold Js.bind.
  destruct (toInstance_total obj x rt) as (todo & rt1 & ->).
  destruct (IH rt1) as (todos & rt2 & -> & Hlen).
  exists (todo :: todos), rt2. simpl. by rewrite Hlen.
Qed.

Lemma toInstances_toJSON (todos : list Todo) (x : S) rt :
  (∀ todo, todo ∈ todos → trim (Todo.title todo) = Todo.title todo) →
  ∃ todos' rt',
    toInstances (Todo.toJSON <$> todos) x rt = (Ok todos', x, rt')
    ∧ essence <$> todos' = essence <$> todos.
Proof.
  revert rt. induction todos as [|todo todos IH]; intros rt Htrim.
  - by exists [], rt.
  - rewrite fmap_cons. simpl toInstances. unfold Js.bind, toInstance, Js.catch.
    destruct (fromObject_toJSON todo x rt) as (todo' & rt1 & -> & Hi & Ht & Hc).
    destruct (IH rt1) as (todos' & rt2 & -> & Hrest).
    { intros t Ht'. apply Htrim, elem_of_cons. by right. }
    exists (todo' :: todos'), rt2. split; [done|].
    rewrite !fmap_cons, Hrest. f_equal. unfold essence.
    rewrite Hi, Ht, Hc, Htrim; [done|]. apply elem_of_cons. by left.
Qed.

(** What [loadTodosAsInstances] returns is what the repaired snapshot
    holds, with one instance per todo object. *)
Lemma loadTodosAsInstances_shape file (x : S) rt :
  ∃ objs nextId currentView version todos rt',
    loadTodosFromFile file
    = mkData (Good objs) (Good nextId) (Good currentView) version
    ∧ toInstances objs x rt = (Ok todos, x, rt')
    ∧ loadTodosAsInstances file x rt
      = (Ok (mkLoaded todos nextId currentView), x, rt')
    ∧ (1 ≤ nextId)%Z ∧ currentView ∈ AppState.views.
Proof.
  destruct (loadTodosFromFile_shape file) as (objs & n & v & version & E & Hn & Hv).
  destruct (toInstances_total objs x rt) as (todos & rt' & Hrun & _).
  exists objs, n, v, version, todos, rt'. split_and!; try done.
  unfold loadTodosAsInstances, Js.catch, Js.bind. rewrite E. simpl. rewrite Hrun.
  simpl. rewrite bool_decide_eq_false_2 by lia.
  assert (truthy v = true) as ->; [|done].
  unfold truthy, eqb. case_bool_decide as Ev; [|done].
  rewrite Ev in Hv. by apply views_elem in Hv as [?|[?|?]].
Qed.

Lemma initialize_shape file (x : S) rt todos nextId currentView rt' :
  loadTodosAsInstances file x rt = (Ok (mkLoaded todos nextId currentView), x, rt') →
  (1 ≤ nextId)%Z → currentView ∈ AppState.views →
  initializeAppState file x rt = (Ok (AppState.mk todos nextId currentView), x, rt')
  ∧ initializeCompatibleState file x rt
    = (Ok (AppState.mk todos nextId currentView), x, rt').
Proof.
  intros Hload Hn Hv.
  unfold initializeAppState, initializeCompatibleState, Js.catch, Js.bind.
  rewrite Hload. simpl. split; [done|].
  rewrite bool_decide_eq_false_2 by lia.
  rewrite (bool_decide_eq_true_2 (currentView ∈ AppState.views)) by done.
  unfold validState. simpl.
  rewrite bool_decide_eq_true_2 by done.
  by rewrite bool_decide_eq_true_2 by done.
Qed.

End Loading.

(** X21. A well-formed container that was saved is loaded back: from the
    file that [saveTodosToFile] wrote, [initializeAppState] and
    [initializeCompatibleState] both build a state with the same todos as
    far as identifier, title and completion go, the same [nextId] and the
    same view. *)
Theorem save_then_load {S : Type} (s : AppState) (file : Persist.File) (x : S)
    (rt : Runtime) :
  wellFormed s →
  let saved := Persist.saveTodosToFile true s file in
  saved.2 = true
  ∧ ∃ s' rt',
      Persist.initializeAppState saved.1 x rt = (Ok s', x, rt')
      ∧ Persist.initializeCompatibleState saved.1 x rt = (Ok s', x, rt')
      ∧ essence <$> AppState.todos s' = essence <$> AppState.todos s
      ∧ AppState.nextId s' = AppState.nextId s
      ∧ AppState.currentView s' = AppState.currentView s.
Proof.
  intros (Htitles & Hnext & Hview). simpl. split; [done|].
  destruct (loadTodosAsInstances_shape
              (Persist.Snapshot (Persist.snapshotOf s)) x rt)
    as (objs & n & v & version & todos & rt' & Hfile & Hrun & Hload & Hn & Hv).
  assert (Persist.loadTodosFromFile (Persist.Snapshot (Persist.snapshotOf s))
          = Persist.mkData (Persist.Good (Todo.toJSON <$> AppState.todos s))
              (Persist.Good (AppState.nextId s))
              (Persist.Good (AppState.currentView s)) (Persist.Good "1.0.0"))
    as Hsnap.
  { unfold Persist.loadTodosFromFile, Persist.ensureDataCompatibility,
      Persist.snapshotOf, Persist.withDefaults. simpl.
    rewrite bool_decide_eq_false_2 by lia. by rewrite bool_decide_eq_true_2. }
  rewrite Hsnap in Hfile. injection Hfile as <- <- <- _.
  destruct (toInstances_toJSON (AppState.todos s) x rt) as (todos' & rt2 & Hrun' & He).
  { intros todo Hin. by apply Htitles. }
  rewrite Hrun in Hrun'. injection Hrun' as <- <-.
  destruct (initialize_shape _ x rt _ _ _ _ Hload Hn Hv) as [-> ->].
  by eexists _, _.
Qed.

Lemma save_then_load_witness :
  ∃ s' rt',
    Persist.initializeCompatibleState
      (Persist.saveTodosToFile true sampleState Persist.NoFile).1 tt epoch
    = (Ok s', tt, rt')
    ∧ essence <$> AppState.todos s' = essence <$> AppState.todos sampleState
    ∧ AppState.nextId s' = AppState.nextId sampleState
    ∧ AppState.currentView s' = AppState.currentView sampleState.
Proof.
  destruct (save_then_load sampleState Persist.NoFile tt epoch)
    as (_ & s' & rt' & _ & Hrun & H).
  - split_and!.
    + intros todo Hin. unfold sampleState in Hin. simpl in Hin.
      repeat (apply elem_of_cons in Hin as [->|Hin]; [by vm_compute|]).
      by apply elem_of_nil in Hin.
    + by vm_compute.
    + compute_done.
  - by exists s', rt'.
Defined.

(** X22. Whatever the file holds, initialisation does not throw, and
    [initializeAppState] and [initializeCompatibleState] return the same
    state, which passes the validation of the state: the repairs of
    [initializeCompatibleState] never have anything to repair, because
    [loadTodosFromFile] has made them already.  Without a file, or with
    one that is not JSON, the state is the empty one. *)
Theorem initialize_always_valid {S : Type} (file : Persist.File) (x : S)
    (rt : Runtime) :
  ∃ s rt',
    Persist.initializeAppState file x rt = (Ok s, x, rt')
    ∧ Persist.initializeCompatibleState file x rt = (Ok s, x, rt')
    ∧ Persist.validState s = true
    ∧ (file = Persist.NoFile ∨ file = Persist.NotJson ∨ file = Persist.NotAnObject →
       s = resetAppState ∧ rt' = rt).
Proof.
  destruct (loadTodosAsInstances_shape file x rt)
    as (objs & n & v & version & todos & rt' & Hfile & Hrun & Hload & Hn & Hv).
  destruct (initialize_shape _ x rt _ _ _ _ Hload Hn Hv) as [-> ->].
  eexists _, _. split_and!; [done..| |].
  - unfold Persist.validState. simpl.
    rewrite bool_decide_eq_true_2 by done. by rewrite bool_decide_eq_true_2.
  - intros [->|[->| ->]]; vm_compute in Hfile; injection Hfile as <- <- <- _;
      simpl in Hrun; by injection Hrun as <- <-.
Qed.

(** A file may hold a [nextId] that is not above its identifiers;
    [initializeAppState] keeps both as they are. *)
Example initializeAppState_keeps_stale_nextId :
  let file :=
    Persist.Snapshot
      (Persist.mkData
         (Persist.Good [Todo.mkObject (Some 5%Z) (Some "late") None (Some "t0")
                          (Some "t0")])
         (Persist.Good 1%Z) (Persist.Good "all") Persist.Missing) in
  Persist.initializeAppState file tt epoch
  = (Ok (AppState.mk [Todo.mk 5 "late" false "t0" "t0"] 1 "all"), tt, epoch).
Proof. by vm_compute. Qed.

Section Defaults.
Import JsString Persist.
Context {S : Type}.

Lemma defaultInstances_state index defaults (x : S) rt :
  ∃ r rt', defaultInstances index defaults x rt = (r, x, rt').
Proof.
  revert index rt. induction defaults as [|todoData defaults IH]; intros index rt.
  - by eexists _, _.
  - simpl. unfold Js.bind.
    destruct (Todo.o_title todoData) as [title|]; simpl; [|by eexists _, _].
    destruct (new_total (index + 1) title
                (Some (default false (Todo.o_completed todoData)))
                (Todo.o_createdAt todoData) (Todo.o_updatedAt todoData) x rt)
      as (rt1 & c & u & ->).
    destruct (IH (index + 1)%Z rt1) as (r & rt2 & ->).
    destruct r; by eexists _, _.
Qed.

Lemma maxOf_above todos i : i ∈ Todo.id <$> todos → (i < maxOf todos + 1)%Z.
Proof. intros Hi%foldr_max_ge. unfold maxOf. lia. Qed.

End Defaults.

(** X23. [initializeAppStateWithDefaults] does not throw, and in the state
    it returns every identifier is below [nextId], which is at least 1:
    it computes [nextId] from the todos and does not take it from the
    file. *)
Theorem defaults_put_nextId_above_ids {S : Type} (file : Persist.File)
    (defaultTodos : list Todo.Object) (x : S) (rt : Runtime) :
  ∃ s rt',
    Persist.initializeAppStateWithDefaults file defaultTodos x rt = (Ok s, x, rt')
    ∧ (∀ i, i ∈ ids s → (i < AppState.nextId s)%Z)
    ∧ (1 ≤ AppState.nextId s)%Z
    ∧ AppState.currentView s ∈ AppState.views.
Proof.
  destruct (loadTodosAsInstances_shape file x rt)
    as (objs & n & v & version & todos & rt1 & _ & _ & Hload & _ & Hv).
  unfold Persist.initializeAppStateWithDefaults, Js.catch, Js.bind.
  rewrite Hload. simpl.
  assert (∀ todos' : list Todo,
            let nextId := if bool_decide (0 < length todos')
                          then (Persist.maxOf todos' + 1)%Z else 1%Z in
            (∀ i, i ∈ Todo.id <$> todos' → (i < nextId)%Z) ∧ (1 ≤ nextId)%Z)
    as Hmax.
  { intros todos'. cbv zeta. split.
    - intros i Hi. case_bool_decide as Hlen; [by apply maxOf_above|].
      destruct todos'; [by apply elem_of_nil in Hi|simpl in Hlen; lia].
    - case_bool_decide; [|done]. unfold Persist.maxOf.
      pose proof (foldr_max_nonneg (Todo.id <$> todos')). lia. }
  case_bool_decide as Hloaded.
  - simpl. eexists _, _. split; [reflexivity|]. simpl.
    destruct (Hmax todos). by split_and!.
  - destruct (defaultInstances_state 0 defaultTodos x rt1) as ([todos'|e] & rt2 & ->).
    + simpl. eexists _, _. split; [reflexivity|]. simpl.
      destruct (Hmax todos'). by split_and!.
    + simpl. eexists _, _. split; [reflexivity|]. simpl. split_and!.
      * intros i Hi. by apply elem_of_nil in Hi.
      * done.
      * compute_done.
Qed.

Example defaults_repair_stale_nextId :
  let file :=
    Persist.Snapshot
      (Persist.mkData
         (Persist.Good [Todo.mkObject (Some 5%Z) (Some "late") None (Some "t0")
                          (Some "t0")])
         (Persist.Good 1%Z) (Persist.Good "all") Persist.Missing) in
  Persist.initializeAppStateWithDefaults file [] tt epoch
  = (Ok (AppState.mk [Todo.mk 5 "late" false "t0" "t0"] 6 "all"), tt, epoch).
Proof. by vm_compute. Qed.

(** ** Counting *)

Section Counting.

Lemma filter_completed_length (todos : list Todo) :
  length todos
  = length (filter (λ todo, Todo.completed todo = false) todos)
    + length (filter (λ todo, Todo.completed todo = true) todos).
Proof.
  induction todos as [|todo todos IH]; [done|].
  rewrite !filter_cons. destruct (Todo.completed todo); simpl; lia.
Qed.

Lemma hasTodos_view (view : string) s rt :
  view ∈ AppState.views →
  Lookup.hasTodos (Some view) s rt
  = (Ok (bool_decide (0 < length (AppState.getFilteredTodos (viewing view s)))),
     viewing view s, rt).
Proof.
  intros Hv. unfold Lookup.hasTodos, Js.bind. by rewrite listTodos_view.
Qed.

End Counting.

(** X24. The statistics count the views: the total is the sum of the
    active and the completed todos, and [hasTodos] answers for each view
    whether its count is positive.  Asking changes the current view to
    the one asked about. *)
Theorem stats_count_the_views (s : AppState) (rt : Runtime) :
  let stats := ListTodos.getTodoStats s in
  Op.s_total stats = Op.s_active stats + Op.s_completed stats
  ∧ Lookup.hasTodos (Some "all") s rt
    = (Ok (bool_decide (0 < Op.s_total stats)), viewing "all" s, rt)
  ∧ Lookup.hasTodos (Some "active") s rt
    = (Ok (bool_decide (0 < Op.s_active stats)), viewing "active" s, rt)
  ∧ Lookup.hasTodos (Some "completed") s rt
    = (Ok (bool_decide (0 < Op.s_completed stats)), viewing "completed" s, rt)
  ∧ Lookup.hasTodos None s rt = Lookup.hasTodos (Some "all") s rt.
Proof.
  simpl. split_and!.
  - apply filter_completed_length.
  - by rewrite hasTodos_view by compute_done.
  - by rewrite hasTodos_view by compute_done.
  - by rewrite hasTodos_view by compute_done.
  - done.
Qed.

(** ** Looking up what was added *)

Section LookingUp.

Lemma getTodoById_finds id s rt :
  (1 ≤ id)%Z →
  Lookup.getTodoById (Some id) s rt
  = (Ok (snd <$> AppState.findTodoById id s), s, rt).
Proof.
  intros Hid. unfold Lookup.getTodoById. by rewrite bool_decide_eq_false_2 by lia.
Qed.

Lemma find_app_new id todos todo :
  id ∉ Todo.id <$> todos → Todo.id todo = id →
  list_find (λ t, Todo.id t = id) (todos ++ [todo]) = Some (length todos, todo).
Proof.
  intros Hnew Hid. apply list_find_Some. split_and!.
  - by rewrite lookup_app_r, Nat.sub_diag by lia.
  - done.
  - intros j t Hj Hlt. rewrite lookup_app_l in Hj by done.
    intros E. apply Hnew. rewrite <- E. apply list_elem_of_fmap_2.
    by eapply list_elem_of_lookup_2.
Qed.

End LookingUp.

(** X25. A todo that was just added is found under its identifier, as
    long as [nextId] was positive and the identifier of no todo; and
    [getTodoById] refuses an identifier below 1. *)
Theorem added_todo_is_found (title : string) (s : AppState) (rt : Runtime) :
  ¬ rejected title → (1 ≤ AppState.nextId s)%Z → AppState.nextId s ∉ ids s →
  ∃ r s' rt',
    AddTodo.addTodo (Some title) s rt = (Ok r, s', rt')
    ∧ Lookup.getTodoById (Some (AppState.nextId s)) s' rt'
      = (Ok (Some (Op.a_todo r)), s', rt')
    ∧ Lookup.getTodoById (Some 0%Z) s' rt'
      = (Throw "ID must be a positive number", s', rt').
Proof.
  intros Hok Hpos Hnew.
  destruct (addTodo_accepts (Some title) (JsString.trim title) s rt)
    as (r & Hrun & Hid & _).
  { simpl. by rewrite decide_False. }
  eexists r, _, _. split; [exact Hrun|]. split; [|done].
  rewrite getTodoById_finds by done. unfold AppState.findTodoById. simpl.
  by rewrite (find_app_new _ _ (Op.a_todo r)).
Qed.

Lemma added_todo_is_found_witness :
  ∃ r s' rt',
    AddTodo.addTodo (Some "Feed the cat") oneTodo epoch = (Ok r, s', rt')
    ∧ Lookup.getTodoById (Some 2%Z) s' rt' = (Ok (Some (Op.a_todo r)), s', rt')
    ∧ Todo.title (Op.a_todo r) = "Feed the cat".
Proof.
  destruct (added_todo_is_found "Feed the cat" oneTodo epoch)
    as (r & s' & rt' & Hrun & Hget & _).
  - compute_done.
  - by vm_compute.
  - compute_done.
  - exists r, s', rt'. split_and!; [done..|].
    vm_compute in Hrun. by injection Hrun as <- _ _.
Defined.

(** With a [nextId] that a todo already carries, the lookup finds the
    older todo and not the one just added. *)
Example stale_nextId_hides_new_todo :
  ∃ r s' rt',
    AddTodo.addTodo (Some "new") staleState epoch = (Ok r, s', rt')
    ∧ ids s' = [2; 2]%Z
    ∧ Lookup.getTodoById (Some 2%Z) s' rt'
      = (Ok (Some (Todo.mk 2 "old" false "t0" "t0")), s', rt').
Proof. eexists _, _, _. by vm_compute. Qed.

(** ** Deleting several todos *)

Section BulkDelete.



End BulkDelete.



(** ** Editing several todos *)

Section BulkEdit.




End BulkEdit.


Example bulk_edit_reports_each_edit :
  ∃ r s' rt',
    Bulk.editMultipleTodos
      [(Some 2%Z, Some " Walk the cat "); (Some 9%Z, Some "x"); (Some 1%Z, Some " ")]
      sampleState epoch = (Ok r, s', rt')
    ∧ Todo.title <$> AppState.todos s' = ["Buy milk"; "Walk the cat"]
    ∧ Bulk.totalEdited r = 1
    ∧ snd <$> Bulk.edited_errors r
      = ["Todo with ID 9 not found"; "Todo title cannot be empty"].
Proof. eexists _, _, _. by vm_compute. Qed.

(** ** Replacing a todo *)

(** X28. [updateTodo] reports true exactly when a todo carries the
    identifier of the given todo.  It then puts the given todo in the
    first place that holds the identifier and leaves every other place as
    it was, the later todos with the same identifier among them; when it
    reports false it changes nothing.  [nextId] and the view stay, and a
    lookup of the identifier then finds the new todo. *)
Theorem updateTodo_replaces_first (updatedTodo : Todo) (s : AppState) :
  let '(updated, s') := AppState.updateTodo updatedTodo s in
  (updated = true ↔ Todo.id updatedTodo ∈ ids s)
  ∧ (updated = false → s' = s)
  ∧ (updated = true →
     ∃ first,
       ids s !! first = Some (Todo.id updatedTodo)
       ∧ (∀ place, place < first → ids s !! place ≠ Some (Todo.id updatedTodo))
       ∧ AppState.todos s' !! first = Some updatedTodo
       ∧ (∀ place, place ≠ first →
            AppState.todos s' !! place = AppState.todos s !! place)
       ∧ length (AppState.todos s') = length (AppState.todos s))
  ∧ (updated = true →
     snd <$> AppState.findTodoById (Todo.id updatedTodo) s' = Some updatedTodo)
  ∧ AppState.nextId s' = AppState.nextId s
  ∧ AppState.currentView s' = AppState.currentView s
  ∧ touchesOnly (Todo.id updatedTodo) s s'.
Proof.
  unfold AppState.updateTodo.
  destruct (list_find _ _) as [[k todo]|] eqn:Hfind.
  - pose proof Hfind as (Hk & Hid & Hfirst)%list_find_Some.
    split_and!; try done.
    + split; [intros _|done].
      rewrite <- Hid. apply list_elem_of_fmap_2. by eapply list_elem_of_lookup_2.
    + intros _. exists k. simpl. split_and!.
      * unfold ids. by rewrite list_lookup_fmap, Hk, <- Hid.
      * intros place Hlt. unfold ids. rewrite list_lookup_fmap.
        destruct (AppState.todos s !! place) as [other|] eqn:Hother; [|done].
        simpl. intros [= E]. by apply (Hfirst place other).
      * apply list_lookup_insert_eq. by eapply lookup_lt_Some.
      * intros place Hne. by apply list_lookup_insert_ne.
      * apply length_insert.
    + intros _. unfold AppState.findTodoById. simpl.
      by rewrite (list_find_insert _ _ k todo updatedTodo).
    + by apply (touchesOnly_insert _ _ k todo).
  - split_and!; try done.
    split; [done|]. intros Hin. apply list_elem_of_fmap in Hin as (t & Hid & Ht).
    eapply list_find_None, Forall_forall in Hfind; [|exact Ht]. done.
Qed.

Example updateTodo_leaves_later_twin :
  AppState.todos
    (AppState.updateTodo (Todo.mk 1 "third" true "t2" "t2") twins).2
  = [ Todo.mk 1 "third" true "t2" "t2"; Todo.mk 1 "second" false "t1" "t1" ].
Proof. by vm_compute. Qed.

(** ** Valid states *)

Section Valid.

Lemma validators_agree s :
  StateValidation.validateAppState s = [] ↔ Persist.validState s = true.
Proof.
  unfold StateValidation.validateAppState, Persist.validState.
  rewrite andb_true_iff, !bool_decide_eq_true.
  repeat case_bool_decide; simpl; (split; [intros ?|intros [? ?]]);
    try done; try lia; split; (done || lia).
Qed.

Lemma change_valid s s' :
  change s s' → Persist.validState s = true → Persist.validState s' = true.
Proof.
  unfold Persist.validState.
  rewrite !andb_true_iff, !bool_decide_eq_true.
  intros Hc [Hn Hv].
  destruct Hc as [->|view Hview ->|title rt _ ->|k todo todo' _ _ ->|_ En Ev];
    simpl; try done.
  - unfold AppState.addTodo, added. simpl.
    rewrite (proj2 (Z.leb_le _ _)) by lia. simpl. split; [lia|done].
  - by rewrite En, Ev.
Qed.

End Valid.

(** X29. The two validators of the state, [validateAppState] and
    [validateStateWithErrorHandling], accept the same states, and a state
    they accept is still accepted after any command that the router
    handles. *)
Theorem valid_state_stays_valid (saveFunction : SaveFunction) (command : Command)
    (s : AppState) (rt : Runtime) :
  (StateValidation.validateAppState s = [] ↔ Persist.validState s = true)
  ∧ (StateValidation.validateAppState s = [] →
     StateValidation.validateAppState
       (CommandRouter.routeCommand saveFunction command s rt).1.2 = []).
Proof.
  split; [apply validators_agree|].
  rewrite !validators_agree. apply change_valid, route_change.
Qed.

Lemma valid_state_stays_valid_witness :
  StateValidation.validateAppState
    (CommandRouter.routeCommand None (addCommand "Buy milk") resetAppState epoch).1.2
  = []
  ∧ StateValidation.validateAppState (AppState.mk [] 0 "done")
    = ["Next ID must be a positive number"; StateValidation.viewError].
Proof.
  split; [|by vm_compute].
  by apply (valid_state_stays_valid None (addCommand "Buy milk") resetAppState epoch).
Defined.

(** ** From the line typed to the todo added *)

Section AddLine.
Import JsString Regex Parser.

Lemma star_all {R} (c : ascii → bool) (s : string)
    (k : string → string → option R) (x : R) :
  allChars c s = true → k s "" = Some x → star c s k = Some x.
Proof.
  revert k. induction s as [|a s IH]; intros k; simpl; [done|].
  intros [-> Hall]%andb_true_iff Hk. by rewrite (IH (λ m r, k (String a m) r)).
Qed.

Lemma trimEnd_app_nonblank p t : trimEnd t ≠ "" → trimEnd (p +:+ t) = p +:+ trimEnd t.
Proof.
  intros Ht. induction p as [|c p IH]; simpl; [done|]. rewrite IH.
  destruct p; simpl; [by destruct (trimEnd t)|done].
Qed.

Lemma trimmed_head title :
  title ≠ "" → trim title = title →
  ∃ a rest, title = String a rest ∧ is_space a = false ∧ trimEnd title = title.
Proof.
  intros Hne Htrim. destruct title as [|a rest]; [done|].
  destruct (is_space a) eqn:Ha.
  - exfalso. unfold trim in Htrim. simpl in Htrim. rewrite Ha in Htrim.
    pose proof (trimEnd_length (trimStart rest)).
    pose proof (trimStart_length rest).
    rewrite Htrim in *. simpl in *. lia.
  - exists a, rest. split_and!; [done..|].
    unfold trim in Htrim. simpl in Htrim. by rewrite Ha in Htrim.
Qed.

Lemma trim_prefixed c p t :
  is_space c = false → trimEnd t = t → t ≠ "" →
  trim (String c p +:+ t) = String c p +:+ t.
Proof.
  intros Hc Ht Hne. unfold trim. simpl trimStart. rewrite Hc.
  change (String c (p +:+ t)) with (String c p +:+ t).
  rewrite trimEnd_app_nonblank; by rewrite Ht.
Qed.

Lemma add_line_trimmed kw title :
  kw ∈ addKeywords → title ≠ "" → trim title = title →
  trim (kw +:+ " " +:+ title) = kw +:+ " " +:+ title.
Proof.
  intros Hkw Hne Htrim.
  destruct (trimmed_head title Hne Htrim) as (a & rest & _ & _ & Hend).
  unfold addKeywords in Hkw.
  repeat (apply elem_of_cons in Hkw as [->|Hkw]);
    [..|by apply elem_of_nil in Hkw].
  - by apply (trim_prefixed "a" "dd " title).
  - by apply (trim_prefixed "c" "reate " title).
  - by apply (trim_prefixed "n" "ew " title).
Qed.

Lemma lit_prefix w rest : lit w (w +:+ rest) = Some (w, rest).
Proof.
  induction w as [|c w IH]; simpl; [done|].
  rewrite bool_decide_eq_true_2 by done. by rewrite IH.
Qed.

Lemma ADD_matches kw title :
  kw ∈ addKeywords → title ≠ "" → trim title = title →
  allChars is_dot title = true →
  Pattern.ADD (kw +:+ " " +:+ title)
  = Some [Some (kw +:+ " " +:+ title); Some kw; Some title].
Proof.
  intros Hkw Hne Htrim Hdot.
  destruct (trimmed_head title Hne Htrim) as (a & rest & -> & Ha & _).
  simpl in Hdot. apply andb_true_iff in Hdot as [Hd Hall].
  unfold addKeywords in Hkw. unfold Pattern.ADD, Pattern.kw_text, alt.
  repeat (apply elem_of_cons in Hkw as [->|Hkw]);
    [..|by apply elem_of_nil in Hkw];
    rewrite lit_prefix; simpl; rewrite Ha, Hd;
    match goal with |- context [star is_dot rest ?k] =>
      by rewrite (star_all is_dot rest k _ Hall eq_refl)
    end.
Qed.

Lemma alias_add_line kw title :
  kw ∈ addKeywords → alias (toLowerCase (kw +:+ " " +:+ title)) = None.
Proof.
  intros Hkw. unfold addKeywords in Hkw. unfold alias, COMMAND_ALIASES.
  repeat (apply elem_of_cons in Hkw as [->|Hkw]);
    [..|by apply elem_of_nil in Hkw];
    simpl toLowerCase;
    (rewrite not_elem_of_list_to_map_1;
     [by rewrite !bool_decide_eq_false_2 by discriminate|]);
    simpl; intros Hin;
    repeat (apply elem_of_cons in Hin as [Hin|Hin]; [discriminate Hin|]);
    by apply elem_of_nil in Hin.
Qed.

End AddLine.

(** X30. A line made of an Add keyword, a blank and a title is parsed to
    the Add command for that title, with the quotes around it removed,
    whenever the title is not empty, has no blanks around it and no line
    break in it; and processing the line appends the todo with that
    title, at [nextId], unless the title is refused.  The result is the
    successful one, with the todo and the flag of the save, unless the
    callback throws [null] or [undefined]: then the result is a failure
    that carries the TypeError of the [catch] block, and the todo is
    appended all the same. *)
Theorem add_line_adds (kw title : string) (saveFunction : SaveFunction)
    (s : AppState) (rt : Runtime) :
  kw ∈ addKeywords → title ≠ "" → JsString.trim title = title →
  allChars JsString.is_dot title = true →
  Parser.parseCommand (kw +:+ " " +:+ title)
  = Ok (addCommand (Parser.stripQuotes title))
  ∧ (¬ rejected (Parser.stripQuotes title) →
     ∃ todo s' rt',
       CommandRouter.processCommand saveFunction (kw +:+ " " +:+ title) s rt
       = (Ok match Op.outcome saveFunction s' with
             | Ok saved =>
                 CommandRouter.done ADD_TODO
                   (CommandRouter.Added
                      (Op.mkAdd todo (AppState.nextId s')
                         (length (AppState.todos s')) (Some saved)))
             | Throw message =>
                 CommandRouter.mkResult false "ADD_TODO" (Some message) None
             end, s', rt')
       ∧ AppState.todos s' = AppState.todos s ++ [todo]
       ∧ Todo.id todo = AppState.nextId s
       ∧ Todo.title todo = JsString.trim (Parser.stripQuotes title)
       ∧ Todo.completed todo = false).
Proof.
  intros Hkw Hne Htrim Hdot.
  assert (Parser.parseCommand (kw +:+ " " +:+ title)
          = Ok (addCommand (Parser.stripQuotes title))) as Hparse.
  { unfold Parser.parseCommand. rewrite add_line_trimmed by done.
    rewrite alias_add_line by done.
    unfold Parser.COMMAND_PATTERNS, Parser.firstMatch.
    rewrite ADD_matches by done.
    assert (JsString.eqb (kw +:+ " " +:+ title) "" = false) as ->.
    { unfold JsString.eqb. apply bool_decide_eq_false_2.
      unfold addKeywords in Hkw.
      repeat (apply elem_of_cons in Hkw as [->|Hkw]); try done.
      by apply elem_of_nil in Hkw. }
    unfold Parser.createCommandFromMatch, Parser.method, Parser.arg. simpl.
    by rewrite Htrim. }
  split; [done|]. intros Hok.
  unfold CommandRouter.processCommand, Js.catch. rewrite Hparse.
  assert (Parser.validateParsedCommand (addCommand (Parser.stripQuotes title)) = [])
    as ->.
  { unfold Parser.validateParsedCommand, addCommand. simpl.
    assert (JsString.truthy (Parser.stripQuotes title) = true) as ->; [|done].
    unfold JsString.truthy, JsString.eqb. rewrite bool_decide_eq_false_2; [done|].
    intros E. apply Hok. left. by rewrite E. }
  unfold CommandRouter.routeCommand, addCommand, Js.catch. simpl.
  unfold CommandRouter.handleAddTodo, AddTodo.addTodoWithPersistence, Js.bind. simpl.
  rewrite create_accepts, attemptSave_spec by done.
  exists (added (Parser.stripQuotes title) s rt),
    (AppState.addTodo (added (Parser.stripQuotes title) s rt) s), (later2 rt).
  split; [by destruct (Op.outcome saveFunction _)|].
  unfold AppState.addTodo. by destruct (_ <=? _)%Z.
Qed.

Lemma add_line_adds_witness :
  ∃ s' rt',
    CommandRouter.processCommand (Some rejectsBare)
      ("create" +:+ " " +:+ String JsString.quote ("Buy milk" +:+ String JsString.quote ""))
      resetAppState epoch
    = (Ok (CommandRouter.mkResult false "ADD_TODO"
             (Some "Cannot read properties of undefined (reading 'message')")
             None), s', rt')
    ∧ Todo.title <$> AppState.todos s' = ["Buy milk"].
Proof.
  destruct (add_line_adds "create"
              (String JsString.quote ("Buy milk" +:+ String JsString.quote ""))
              (Some rejectsBare) resetAppState epoch)
    as [_ Hrun]; [compute_done|done|by vm_compute|by vm_compute|].
  destruct Hrun as (todo & s' & rt' & Hrun & Htodos & _ & Htitle & _);
    [compute_done|].
  exists s', rt'. split; [exact Hrun|]. rewrite Htodos. simpl. by rewrite Htitle.
Defined.
